(** * The vin_display protocol engine of klippy/extras/display/vin_display.py

    A shallow embedding of the framed serial protocol spoken between the
    host and the display/knob/button/buzzer peripheral: the CRC routine,
    the command encoder ([send_cmd] and the three builders), the frame
    decoder ([parse_incoming_data]), the dispatcher and its handlers.

    Python integers are [Z]; a [bytes]/[bytearray] value is a [list Z]
    whose elements lie in [0, 256); Python floats are binary64 primitive
    floats; a raised exception is the [Raise] branch of [result]. *)

From Stdlib Require Import String ZArith List Lia Bool.
From Stdlib Require Import PrimFloat FloatOps SpecFloat.
Import ListNotations.
Open Scope Z_scope.

Set Warnings "-inexact-float".

(** ** Module constants (lines 10-20) *)

Definition MESSAGE_MIN : Z := 5.
Definition MESSAGE_MAX : Z := 128.
Definition MESSAGE_SYNC : Z := 0x7e.

Definition CMD_DISPLAY_TEXT : Z := 10.
Definition CMD_KNOB_EVENT : Z := 12.
Definition CMD_BUTTON_EVENT : Z := 13.
Definition CMD_BUZZER_PLAY : Z := 14.
Definition CMD_BUZZER_QUEUE : Z := 15.
Definition CMD_BUZZER_EVENT : Z := 16.

(** Modelled from the spec: [send_cmd] reads the module constant
    MESSAGE_TRAILER_SIZE, whose assignment is not in the source file.  The
    wire layout of the spec (the length byte counts itself, the payload,
    the two CRC bytes and the sync byte) fixes it to the two CRC bytes plus
    the sync byte. *)
Definition MESSAGE_TRAILER_SIZE : Z := 3.

(** ** Python values *)

Definition is_byte (b : Z) : Prop := 0 <= b < 256.
Definition is_byteb (b : Z) : bool := (0 <=? b) && (b <? 256).

(** [len(x)] *)
Definition len {A : Type} (l : list A) : Z := Z.of_nat (length l).

(** [x[lo:hi]] for indices that are not negative. *)
Definition slice {A : Type} (l : list A) (lo hi : Z) : list A :=
  skipn (Z.to_nat lo) (firstn (Z.to_nat hi) l).

(** [x[i]] where the surrounding code has already checked [0 <= i < len(x)]. *)
Definition item (l : list Z) (i : Z) : Z := nth (Z.to_nat i) l 0.

(** [a == b] on lists of integers. *)
Definition list_eqb (a b : list Z) : bool :=
  if list_eq_dec Z.eq_dec a b then true else false.

(** The exceptions the modelled code can raise. *)
Inductive exn : Type :=
| ValueError
| OverflowError
| ZeroDivisionError
| StructError
| IndexError.

(** The outcome of a call: a value, a raised exception, or [OutOfFuel], which
    is not a Python outcome but the bound of a modelled [while] loop being
    reached (shown below never to happen). *)
Inductive result (A : Type) : Type :=
| Ok (a : A)
| Raise (e : exn)
| OutOfFuel.

Arguments Ok {A} a.
Arguments Raise {A} e.
Arguments OutOfFuel {A}.

Definition bind {A B : Type} (r : result A) (k : A -> result B) : result B :=
  match r with
  | Ok a => k a
  | Raise e => Raise e
  | OutOfFuel => OutOfFuel
  end.

Notation "x <- r ;; k" := (bind r (fun x => k))
  (at level 61, r at next level, right associativity).

(** [bytes(iterable_of_ints)]: ValueError unless every element is in range(256). *)
Definition py_bytes (l : list Z) : result (list Z) :=
  if forallb is_byteb l then Ok l else Raise ValueError.

(** [int(x)] for a float: truncation toward zero. *)
Definition py_int (x : float) : result Z :=
  match Prim2SF x with
  | S754_zero _ => Ok 0
  | S754_finite s m e =>
      let mag := if 0 <=? e then Z.shiftl (Z.pos m) e
                 else Z.shiftr (Z.pos m) (- e) in
      Ok (if s then - mag else mag)
  | S754_infinity _ => Raise OverflowError
  | S754_nan => Raise ValueError
  end.

(** [a / b] on floats. *)
Definition py_truediv (a b : float) : result float :=
  if PrimFloat.eqb b 0%float then Raise ZeroDivisionError
  else Ok (PrimFloat.div a b).

(** *** struct.pack / struct.unpack, for the formats the file uses *)

(** 'B': one unsigned byte. *)
Definition pack_B (v : Z) : result (list Z) :=
  if (0 <=? v) && (v <=? 255) then Ok [v] else Raise StructError.

(** '?': one byte, 0 or 1. *)
Definition pack_bool (b : bool) : list Z := [Z.b2z b].

(** '<H': unsigned 16 bits, least significant byte first. *)
Definition pack_H (v : Z) : result (list Z) :=
  if (0 <=? v) && (v <=? 65535) then Ok [v mod 256; v / 256]
  else Raise StructError.

(** '<L': unsigned 32 bits, least significant byte first. *)
Definition pack_L (v : Z) : result (list Z) :=
  if (0 <=? v) && (v <=? 4294967295)
  then Ok [v mod 256; (v / 256) mod 256; (v / 65536) mod 256; v / 16777216]
  else Raise StructError.

(** '{n}s': the first n bytes of the argument, padded with zero bytes. *)
Definition pack_s (n : Z) (s : list Z) : list Z :=
  firstn (Z.to_nat n) s ++ repeat 0 (Z.to_nat n - length s).

(** '<h' read back: two bytes as a signed 16-bit integer. *)
Definition int16_le (lo hi : Z) : Z :=
  let u := lo + 256 * hi in
  if u <? 32768 then u else u - 65536.

Definition uint16_le (lo hi : Z) : Z := lo + 256 * hi.

Definition uint32_le (b0 b1 b2 b3 : Z) : Z :=
  b0 + 256 * b1 + 65536 * b2 + 16777216 * b3.

(** [unpack('<BBhhB', data)]: struct.error unless data has exactly 7 bytes. *)
Definition unpack_BBhhB (data : list Z) : result (Z * Z * Z * Z * Z) :=
  match data with
  | [size; cmd_id; p0; p1; c0; c1; sync] =>
      Ok (size, cmd_id, int16_le p0 p1, int16_le c0 c1, sync)
  | _ => Raise StructError
  end.

(** [unpack('<BBBhB', data)]: struct.error unless data has exactly 6 bytes. *)
Definition unpack_BBBhB (data : list Z) : result (Z * Z * Z * Z * Z) :=
  match data with
  | [size; cmd_id; v; c0; c1; sync] =>
      Ok (size, cmd_id, v, int16_le c0 c1, sync)
  | _ => Raise StructError
  end.

(** ** crc16_ccitt (lines 23-29) *)

(** One pass of the loop body: [data] is the loop variable, [crc] the
    accumulator; the result is the new accumulator. *)
Definition crc_update (crc data : Z) : Z :=
  let data := Z.lxor data (Z.land crc 0xff) in
  let data := Z.lxor data (Z.shiftl (Z.land data 0x0f) 4) in
  Z.lxor
    (Z.lxor (Z.lor (Z.shiftl data 8) (Z.shiftr crc 8)) (Z.shiftr data 4))
    (Z.shiftl data 3).

(** The accumulator after the [for] loop has consumed [buf]. *)
Definition crc_acc (buf : list Z) : Z := fold_left crc_update buf 0xffff.

Definition crc16_ccitt (buf : list Z) : list Z :=
  let crc := crc_acc buf in
  [Z.shiftr crc 8; Z.land crc 0xff].

(** The CRC Engine in the words of the specification, for comparison with
    the source: every operation is carried out in 16-bit arithmetic that
    wraps around, and the result is given most significant byte first. *)
Definition wrap16 (z : Z) : Z := z mod 2 ^ 16.

Definition spec_update (crc b : Z) : Z :=
  let b := wrap16 (Z.lxor b (wrap16 (Z.land crc 0xFF))) in
  let b := wrap16 (Z.lxor b (wrap16 (Z.shiftl (wrap16 (Z.land b 0x0F)) 4))) in
  wrap16
    (Z.lxor
       (wrap16
          (Z.lxor
             (wrap16 (Z.lor (wrap16 (Z.shiftl b 8)) (wrap16 (Z.shiftr crc 8))))
             (wrap16 (Z.shiftr b 4))))
       (wrap16 (Z.shiftl b 3))).

Definition spec_acc (buf : list Z) : Z := fold_left spec_update buf 0xFFFF.

Definition spec_compute (buf : list Z) : list Z :=
  let crc := spec_acc buf in
  [wrap16 crc / 256; wrap16 crc mod 256].

(** ** The VinDisplay object and what it acts on *)

(** The lines the code prints. *)
Inductive out_line : Type :=
| PrintCommandError            (* 'INCOMING COMMAND ERRROR!' *)
| PrintKnob (pos : Z)          (* 'Knob position:', pos *)
| PrintButton (state : Z)      (* 'Button state:', state *)
| PrintWrongCrc.               (* 'wrong CRC!' *)

(** The attributes of [self] that the protocol engine reads or writes,
    together with the surroundings it acts on: the serial device ([dev_out],
    the arguments of [dev.write] so far), the installed key callback
    ([key_log], its calls so far), standard output, and the clock
    ([clock k] is what the k-th call of [time()] returns; [ticks] counts the
    calls made).  The display staging buffer is not part of the protocol
    engine and is left out. *)
Record VinDisplay : Type := mkVinDisplay {
  rdata : list Z;
  in_commands : list (list Z);
  last_knob_pos : Z;
  last_knob_time : float;
  last_btn_state : Z;
  last_btn_time : float;
  dev_out : list (list Z);
  key_log : list (string * float);
  stdout : list out_line;
  clock : nat -> float;
  ticks : nat
}.

Definition set_rdata (self : VinDisplay) (v : list Z) : VinDisplay :=
  mkVinDisplay v (in_commands self) (last_knob_pos self) (last_knob_time self)
    (last_btn_state self) (last_btn_time self) (dev_out self) (key_log self)
    (stdout self) (clock self) (ticks self).

Definition set_in_commands (self : VinDisplay) (v : list (list Z)) : VinDisplay :=
  mkVinDisplay (rdata self) v (last_knob_pos self) (last_knob_time self)
    (last_btn_state self) (last_btn_time self) (dev_out self) (key_log self)
    (stdout self) (clock self) (ticks self).

Definition set_last_knob_pos (self : VinDisplay) (v : Z) : VinDisplay :=
  mkVinDisplay (rdata self) (in_commands self) v (last_knob_time self)
    (last_btn_state self) (last_btn_time self) (dev_out self) (key_log self)
    (stdout self) (clock self) (ticks self).

Definition set_last_btn_state (self : VinDisplay) (v : Z) : VinDisplay :=
  mkVinDisplay (rdata self) (in_commands self) (last_knob_pos self)
    (last_knob_time self) v (last_btn_time self) (dev_out self) (key_log self)
    (stdout self) (clock self) (ticks self).

Definition set_last_btn_time (self : VinDisplay) (v : float) : VinDisplay :=
  mkVinDisplay (rdata self) (in_commands self) (last_knob_pos self)
    (last_knob_time self) (last_btn_state self) v (dev_out self) (key_log self)
    (stdout self) (clock self) (ticks self).

(** [self.dev.write(msg)] *)
Definition dev_write (self : VinDisplay) (msg : list Z) : VinDisplay :=
  mkVinDisplay (rdata self) (in_commands self) (last_knob_pos self)
    (last_knob_time self) (last_btn_state self) (last_btn_time self)
    (dev_out self ++ [msg]) (key_log self) (stdout self) (clock self)
    (ticks self).

(** [self.menu_key_callback(event, ev_time)] *)
Definition menu_key_callback (self : VinDisplay) (event : string) (ev_time : float)
  : VinDisplay :=
  mkVinDisplay (rdata self) (in_commands self) (last_knob_pos self)
    (last_knob_time self) (last_btn_state self) (last_btn_time self)
    (dev_out self) (key_log self ++ [(event, ev_time)]) (stdout self)
    (clock self) (ticks self).

(** [print(...)] *)
Definition print (self : VinDisplay) (l : out_line) : VinDisplay :=
  mkVinDisplay (rdata self) (in_commands self) (last_knob_pos self)
    (last_knob_time self) (last_btn_state self) (last_btn_time self)
    (dev_out self) (key_log self) (stdout self ++ [l]) (clock self)
    (ticks self).

(** [time()]: the reading, and the object after the call. *)
Definition time (self : VinDisplay) : float * VinDisplay :=
  (clock self (ticks self),
   mkVinDisplay (rdata self) (in_commands self) (last_knob_pos self)
     (last_knob_time self) (last_btn_state self) (last_btn_time self)
     (dev_out self) (key_log self) (stdout self) (clock self)
     (S (ticks self))).

(** [__init__] (lines 46-72), for a device that has been written nothing yet. *)
Definition init (clk : nat -> float) : VinDisplay :=
  mkVinDisplay [] [] 0 (clk 0%nat) 0 (clk 1%nat) [] [] [] clk 2%nat.

(** ** The command encoder (lines 33-41, 140-158, 193-195) *)

(** Lines 36-37 of [send_cmd]: the frame built around the builder's bytes. *)
Definition frame_of (msg : list Z) : result (list Z) :=
  hd <- py_bytes [len msg + MESSAGE_TRAILER_SIZE + 1] ;;
  let msg := hd ++ msg in
  crc <- py_bytes (crc16_ccitt msg) ;;
  sync <- py_bytes [MESSAGE_SYNC] ;;
  Ok (msg ++ crc ++ sync).

(** The decorator: [send_cmd cmd_fun] is the function [_cmd_fun]. *)
Definition send_cmd {A : Type} (cmd_fun : VinDisplay -> A -> result (list Z))
  (self : VinDisplay) (cmd_args : A) : result VinDisplay :=
  msg <- cmd_fun self cmd_args ;;
  msg <- frame_of msg ;;
  Ok (dev_write self msg).

(** The bodies of the three decorated methods. *)
Definition display_text_msg (self : VinDisplay) (text : list Z) : result (list Z) :=
  let size := len text in
  c <- pack_B CMD_DISPLAY_TEXT ;;
  s <- pack_B size ;;
  Ok (c ++ s ++ pack_s size text).

Definition buzzer_play_msg (self : VinDisplay) (cancel_pplay : bool) : result (list Z) :=
  c <- pack_B CMD_BUZZER_PLAY ;;
  Ok (c ++ pack_bool cancel_pplay).

Definition buzzer_queue_msg (self : VinDisplay) (args : float * float) : result (list Z) :=
  let (freq, duration) := args in
  n <- py_int (PrimFloat.mul freq duration) ;;
  let ncycles := Z.max 1 n in
  q <- py_truediv 1000000%float freq ;;
  h <- py_int q ;;
  let hperiod := h / 2 in
  c <- pack_B CMD_BUZZER_QUEUE ;;
  e <- pack_B 8 ;;
  l <- pack_L ncycles ;;
  h1 <- pack_H hperiod ;;
  h2 <- pack_H hperiod ;;
  Ok (c ++ e ++ l ++ h1 ++ h2).

Definition cmd_display_text : VinDisplay -> list Z -> result VinDisplay :=
  send_cmd display_text_msg.

Definition cmd_buzzer_play : VinDisplay -> bool -> result VinDisplay :=
  send_cmd buzzer_play_msg.

Definition cmd_buzzer_queue (self : VinDisplay) (freq duration : float)
  : result VinDisplay :=
  send_cmd buzzer_queue_msg self (freq, duration).

Definition beep (self : VinDisplay) (freq duration : float) : result VinDisplay :=
  self <- cmd_buzzer_queue self freq duration ;;
  cmd_buzzer_play self true.

(** ** The frame decoder (lines 161-190) *)

(** One pass of the [while] loop: [None] when the loop is left (its
    condition is false, or [break]), the object after the pass otherwise. *)
Definition parse_iter (self : VinDisplay) : option VinDisplay :=
  let rd := rdata self in
  if len rd <? MESSAGE_MIN then None
  else if item rd 0 =? MESSAGE_SYNC then Some (set_rdata self (slice rd 1 (len rd)))
  else
    let block_len := item rd 0 in
    if negb ((MESSAGE_MIN <=? block_len) && (block_len <=? MESSAGE_MAX))
    then Some (set_rdata self (tl rd))
    else if len rd <? block_len then None
    else if negb (item rd (block_len - 1) =? MESSAGE_SYNC)
    then Some (set_rdata self (tl rd))
    else
      let msg_crc := slice rd (block_len - 3) (block_len - 1) in
      let crc := crc16_ccitt (slice rd 0 (block_len - 3)) in
      if negb (list_eqb crc msg_crc)
      then Some (print (set_rdata self (slice rd 1 (len rd))) PrintWrongCrc)
      else
        let self := set_in_commands self
                      (in_commands self ++ [slice rd 0 block_len]) in
        Some (set_rdata self (slice rd block_len (len rd))).

Fixpoint parse_loop (fuel : nat) (self : VinDisplay) : VinDisplay :=
  match fuel with
  | O => self
  | S fuel =>
      match parse_iter self with
      | None => self
      | Some self => parse_loop fuel self
      end
  end.

(** Every pass that does not leave the loop shortens [rdata], so its length
    bounds the number of passes ([parse_incoming_data_exits] below). *)
Definition parse_incoming_data (self : VinDisplay) : VinDisplay :=
  parse_loop (length (rdata self)) self.

(** ** The dispatcher and its handlers (lines 86-137) *)

Definition cmd_in_knob_event (self : VinDisplay) (data : list Z) : result VinDisplay :=
  u <- unpack_BBhhB data ;;
  let '(size, cmd_id, pos, crc, sync) := u in
  let (now, self) := time self in
  let diff := pos - last_knob_pos self in
  self <- (if 0 <? diff then
             beep (menu_key_callback self "down" now) 1000%float 0.05%float
           else if diff <? 0 then
             beep (menu_key_callback self "up" now) 1000%float 0.05%float
           else Ok self) ;;
  let self := set_last_knob_pos self pos in
  Ok (print self (PrintKnob pos)).

Definition cmd_in_button_event (self : VinDisplay) (data : list Z) : result VinDisplay :=
  u <- unpack_BBBhB data ;;
  let '(size, cmd_id, state, crc, sync) := u in
  let (now, self) := time self in
  self <- (if (state =? 1) && (last_btn_state self =? 0) then
             Ok (set_last_btn_time self now)
           else if (state =? 0) && (last_btn_state self =? 1) then
             let dt := PrimFloat.sub now (last_btn_time self) in
             if PrimFloat.leb 1%float dt then
               Ok (menu_key_callback self "long_click" now)
             else
               beep (menu_key_callback self "click" now) 400%float 0.05%float
           else Ok self) ;;
  let self := set_last_btn_state self state in
  Ok (print self (PrintButton state)).

Definition cmd_in_buzzer_event (self : VinDisplay) (data : list Z) : result VinDisplay :=
  u <- unpack_BBBhB data ;;
  Ok self.

(** [self.in_cmd_dict], built once in [__init__] and never changed. *)
Definition in_cmd_dict : list (Z * (VinDisplay -> list Z -> result VinDisplay)) :=
  [ (CMD_KNOB_EVENT, cmd_in_knob_event);
    (CMD_BUTTON_EVENT, cmd_in_button_event);
    (CMD_BUZZER_EVENT, cmd_in_buzzer_event) ].

Fixpoint dict_get {V : Type} (d : list (Z * V)) (k : Z) : option V :=
  match d with
  | [] => None
  | (k', v) :: d => if k =? k' then Some v else dict_get d k
  end.

(** The body of the [while] loop, after [cmd] has been popped. *)
Definition dispatch_cmd (self : VinDisplay) (cmd : list Z) : result VinDisplay :=
  match nth_error cmd 1 with
  | None => Raise IndexError
  | Some cmd_id =>
      match dict_get in_cmd_dict cmd_id with
      | Some handler => handler self cmd
      | None => Ok (print self PrintCommandError)
      end
  end.

Fixpoint dispatch_loop (fuel : nat) (self : VinDisplay) : result VinDisplay :=
  match in_commands self with
  | [] => Ok self
  | cmd :: rest =>
      match fuel with
      | O => OutOfFuel
      | S fuel =>
          self <- dispatch_cmd (set_in_commands self rest) cmd ;;
          dispatch_loop fuel self
      end
  end.

(** No handler touches the queue, so each pass shortens it by one and its
    length bounds the number of passes. *)
Definition dispatch_in_commands (self : VinDisplay) : result VinDisplay :=
  dispatch_loop (length (in_commands self)) self.

(** ** The reader loop (lines 79-83) *)

(** [self.rdata.extend(chunk)] *)
Definition rdata_extend (self : VinDisplay) (chunk : list Z) : VinDisplay :=
  set_rdata self (rdata self ++ chunk).

(** One pass of [while True], [chunk] being what [self.dev.read()] returned. *)
Definition read_process_iter (self : VinDisplay) (chunk : list Z) : result VinDisplay :=
  dispatch_in_commands (parse_incoming_data (rdata_extend self chunk)).

(** The passes of the loop over the successive reads [chunks]. *)
Fixpoint read_process (self : VinDisplay) (chunks : list (list Z)) : result VinDisplay :=
  match chunks with
  | [] => Ok self
  | chunk :: chunks =>
      self <- read_process_iter self chunk ;;
      read_process self chunks
  end.

(** The decoder alone over successive reads: append, then parse. *)
Definition feed (self : VinDisplay) (chunks : list (list Z)) : VinDisplay :=
  fold_left (fun s chunk => parse_incoming_data (rdata_extend s chunk)) chunks self.

(** ** The display surface (lines 48-49, 75-76, 198-230) *)

(** [self.line_length] and [self.n_lines], set once in [__init__]. *)
Definition line_length : Z := 20.
Definition n_lines : Z := 2.

(** The object with its staging buffer: [core] holds the attributes of the
    protocol engine and what they act on, [buffer] is [self.buffer], a list
    of rows, each a bytearray. *)
Record Surface : Type := mkSurface {
  core : VinDisplay;
  buffer : list (list Z)
}.

(** [s[i]] on a list of n items: a negative index counts from the end, and
    an index outside [-n, n) raises IndexError.  The result is the position
    from the front. *)
Definition py_index (n i : Z) : result nat :=
  let j := if i <? 0 then i + n else i in
  if (0 <=? j) && (j <? n) then Ok (Z.to_nat j) else Raise IndexError.

(** A bound of a slice [lo:hi] of a sequence of n items: a negative bound
    counts from the end, and the result is clipped to [0, n]. *)
Definition slice_bound (n i : Z) : Z :=
  let j := if i <? 0 then i + n else i in
  if j <? 0 then 0 else if n <? j then n else j.

(** [s[:hi]] *)
Definition py_prefix (s : list Z) (hi : Z) : list Z :=
  firstn (Z.to_nat (slice_bound (len s) hi)) s.

(** [s[lo:hi] = v] on a bytearray: the items from lo up to hi are replaced
    by v, whatever its length; when hi lies before lo, v is inserted at lo. *)
Definition set_slice (s : list Z) (lo hi : Z) (v : list Z) : list Z :=
  let start := slice_bound (len s) lo in
  let stop := slice_bound (len s) hi in
  let stop := if stop <? start then start else stop in
  firstn (Z.to_nat start) s ++ v ++ skipn (Z.to_nat stop) s.

(** The list with its item at position i replaced. *)
Definition list_update {A : Type} (i : nat) (v : A) (l : list A) : list A :=
  firstn i l ++ [v] ++ skipn (S i) l.

Definition _init_buffer (self : Surface) : Surface :=
  mkSurface (core self)
    (repeat (repeat 0 (Z.to_nat line_length)) (Z.to_nat n_lines)).

(** [__init__] with its call of [_init_buffer]. *)
Definition init_surface (clk : nat -> float) : Surface :=
  _init_buffer (mkSurface (init clk) []).

Definition flush (self : Surface) : result Surface :=
  let text := concat (buffer self) in
  c <- cmd_display_text (core self) text ;;
  Ok (_init_buffer (mkSurface c (buffer self))).

Definition write_text (self : Surface) (x y : Z) (data : list Z) : result Surface :=
  let ln := Z.max 0 (Z.min (line_length - x) (len data)) in
  let chunk := py_prefix data ln in
  i <- py_index (len (buffer self)) y ;;
  let row := set_slice (nth i (buffer self) []) x (x + ln) chunk in
  Ok (mkSurface (core self) (list_update i row (buffer self))).

Definition get_dimensions (self : Surface) : Z * Z := (line_length, n_lines).

(** * Vocabulary of the properties *)

(** ** Integers that fit in n bits *)

Definition fits (n a : Z) : Prop := 0 <= a < 2 ^ n.

(** ** Outgoing commands *)

(** The outgoing commands, one constructor per builder with its arguments. *)
Inductive command : Type :=
| DisplayText (text : list Z)
| BuzzerPlay (cancel_pplay : bool)
| BuzzerToneQueue (freq duration : float).

(** The call of the builder of a command. *)
Definition invoke (self : VinDisplay) (c : command) : result VinDisplay :=
  match c with
  | DisplayText text => cmd_display_text self text
  | BuzzerPlay cancel_pplay => cmd_buzzer_play self cancel_pplay
  | BuzzerToneQueue freq duration => cmd_buzzer_queue self freq duration
  end.

(** The call of the undecorated body of the builder of a command. *)
Definition payload_of (self : VinDisplay) (c : command) : result (list Z) :=
  match c with
  | DisplayText text => display_text_msg self text
  | BuzzerPlay cancel_pplay => buzzer_play_msg self cancel_pplay
  | BuzzerToneQueue freq duration => buzzer_queue_msg self (freq, duration)
  end.

(** The frame layout in the words of the specification: the total-length
    byte, the payload, the CRC of length byte and payload with its most
    significant byte first, the sync terminator. *)
Definition spec_frame (payload : list Z) : list Z :=
  let total := len payload + MESSAGE_TRAILER_SIZE + 1 in
  let crc := crc_acc ([total] ++ payload) in
  [total] ++ payload ++ [Z.shiftr crc 8; Z.land crc 0xff] ++ [MESSAGE_SYNC].

(** The two integers [cmd_buzzer_queue] derives from its arguments: the
    number of cycles and the half-period in microseconds. *)
Definition tone_ncycles (freq duration : float) : result Z :=
  n <- py_int (PrimFloat.mul freq duration) ;; Ok (Z.max 1 n).

Definition tone_hperiod (freq : float) : result Z :=
  q <- py_truediv 1000000%float freq ;;
  h <- py_int q ;;
  Ok (h / 2).

(** The commands whose frame the decoder can take: the length byte of a
    display text of n bytes is n + 6, which must not exceed MESSAGE_MAX
    and must not be the sync byte. *)
Definition decodable (c : command) : Prop :=
  match c with
  | DisplayText text => len text <= 122 /\ len text <> 120
  | _ => True
  end.

(** What the payload of a command holds. *)
Definition carries (c : command) (payload : list Z) : Prop :=
  match c with
  | DisplayText text => payload = [CMD_DISPLAY_TEXT; len text] ++ text
  | BuzzerPlay cancel_pplay => payload = [CMD_BUZZER_PLAY; Z.b2z cancel_pplay]
  | BuzzerToneQueue freq duration =>
      exists ncycles hperiod b0 b1 b2 b3 lo hi,
        tone_ncycles freq duration = Ok ncycles /\
        tone_hperiod freq = Ok hperiod /\
        payload = [CMD_BUZZER_QUEUE; 8; b0; b1; b2; b3; lo; hi; lo; hi] /\
        uint32_le b0 b1 b2 b3 = ncycles /\ uint16_le lo hi = hperiod
  end.

(** A clock that always reads 0. *)
Definition zero_clock : nat -> float := fun _ => 0%float.

(** The frames a call [beep(freq, duration)] writes to a fresh device. *)
Definition tone_frames (freq duration : float) : list (list Z) :=
  match beep (init zero_clock) freq duration with
  | Ok s => dev_out s
  | _ => []
  end.

(** ** The decoder, pass by pass *)

(** What one pass of the loop does depends on the buffer alone. *)
Inductive verdict : Type :=
| LoopExit                     (* fewer than MESSAGE_MIN bytes *)
| Drop (wrong_crc : bool)      (* one byte removed; [true]: 'wrong CRC!' printed *)
| Wait                         (* [break]: the candidate is longer than the buffer *)
| Emit (block_len : Z).        (* a frame of block_len bytes queued and removed *)

(** The tests of lines 163-184 in their order, on the buffer. *)
Definition head_verdict (rd : list Z) : verdict :=
  if len rd <? MESSAGE_MIN then LoopExit
  else if item rd 0 =? MESSAGE_SYNC then Drop false
  else
    let block_len := item rd 0 in
    if negb ((MESSAGE_MIN <=? block_len) && (block_len <=? MESSAGE_MAX))
    then Drop false
    else if len rd <? block_len then Wait
    else if negb (item rd (block_len - 1) =? MESSAGE_SYNC) then Drop false
    else if negb (list_eqb (crc16_ccitt (slice rd 0 (block_len - 3)))
                           (slice rd (block_len - 3) (block_len - 1)))
    then Drop true
    else Emit block_len.

(** What the pass does to the object, given the verdict
    ([parse_iter_verdict] relates the two to [parse_iter]). *)
Definition after_verdict (self : VinDisplay) (v : verdict) : option VinDisplay :=
  match v with
  | LoopExit | Wait => None
  | Drop false => Some (set_rdata self (tl (rdata self)))
  | Drop true => Some (print (set_rdata self (tl (rdata self))) PrintWrongCrc)
  | Emit n =>
      Some (set_rdata
              (set_in_commands self
                 (in_commands self ++ [firstn (Z.to_nat n) (rdata self)]))
              (skipn (Z.to_nat n) (rdata self)))
  end.

(** The passes of the loop, on the buffer alone: the frames queued, the
    lines printed, and the bytes left. *)
Fixpoint scan (fuel : nat) (rd : list Z) : list (list Z) * list out_line * list Z :=
  match fuel with
  | O => ([], [], rd)
  | S fuel =>
      match head_verdict rd with
      | LoopExit | Wait => ([], [], rd)
      | Drop c =>
          let '(frames, out, rest) := scan fuel (tl rd) in
          (frames, (if c then [PrintWrongCrc] else []) ++ out, rest)
      | Emit n =>
          let '(frames, out, rest) := scan fuel (skipn (Z.to_nat n) rd) in
          (firstn (Z.to_nat n) rd :: frames, out, rest)
      end
  end.

Definition scan_all (rd : list Z) : list (list Z) * list out_line * list Z :=
  scan (length rd) rd.

(** The object after a parse that queued [frames], printed [out] and left
    [rest] in the buffer. *)
Definition decoded (self : VinDisplay) (r : list (list Z) * list out_line * list Z)
  : VinDisplay :=
  let '(frames, out, rest) := r in
  mkVinDisplay rest (in_commands self ++ frames) (last_knob_pos self)
    (last_knob_time self) (last_btn_state self) (last_btn_time self)
    (dev_out self) (key_log self) (stdout self ++ out) (clock self)
    (ticks self).

(** Bytes that cannot start a frame. *)
Definition garbage (b : Z) : Prop :=
  b = MESSAGE_SYNC \/ b < MESSAGE_MIN \/ MESSAGE_MAX < b.

(** A valid frame: a byte string that the tests of the decoder (lines
    163-184) accept, whole, as one frame. *)
Definition valid_frame (f : list Z) : Prop := head_verdict f = Emit (len f).

(** The candidate at the head of the buffer passes the length-range test
    and the terminator test, and its stored CRC is not the computed one. *)
Definition crc_mismatch (rd : list Z) : Prop :=
  MESSAGE_MIN <= len rd /\ item rd 0 <> MESSAGE_SYNC /\
  MESSAGE_MIN <= item rd 0 <= MESSAGE_MAX /\ item rd 0 <= len rd /\
  item rd (item rd 0 - 1) = MESSAGE_SYNC /\
  crc16_ccitt (slice rd 0 (item rd 0 - 3))
  <> slice rd (item rd 0 - 3) (item rd 0 - 1).

(** Every start position inside [bad] makes the loop drop one byte when
    [good] follows: none is taken for a frame, and none makes the loop wait. *)
Definition slides_through (bad good : list Z) : Prop :=
  forall i : nat, (i < length bad)%nat ->
                  exists c, head_verdict (skipn i bad ++ good) = Drop c.

(** The object once the frame, complete, has been queued. *)
Definition queued (self : VinDisplay) (frame : list Z) : VinDisplay :=
  set_in_commands (set_rdata self []) [frame].

(** ** The dispatcher, frame by frame *)

(** A function applied to the object a call returns. *)
Definition lift (f : VinDisplay -> VinDisplay) (r : result VinDisplay)
  : result VinDisplay :=
  s <- r ;; Ok (f s).

(** The command ids of [in_cmd_dict]. *)
Definition registered (cmd_id : Z) : Prop :=
  cmd_id = CMD_KNOB_EVENT \/ cmd_id = CMD_BUTTON_EVENT \/ cmd_id = CMD_BUZZER_EVENT.

(** The handling of the next frame of the queue, when no handler has
    raised so far. *)
Definition dispatch_next (r : result VinDisplay) (cmd : list Z) : result VinDisplay :=
  s <- r ;; dispatch_cmd s cmd.

(** A frame whose handler can unpack it: seven bytes for a knob event, six
    for a button or buzzer event; a frame of another command needs only to
    hold its command id. *)
Definition unpackable (cmd : list Z) : Prop :=
  exists cmd_id,
    nth_error cmd 1 = Some cmd_id /\
    (cmd_id = CMD_KNOB_EVENT -> length cmd = 7%nat) /\
    (cmd_id = CMD_BUTTON_EVENT \/ cmd_id = CMD_BUZZER_EVENT -> length cmd = 6%nat).

(** ** Concrete inputs *)

(** A new object whose buffer holds seven sync bytes. *)
Definition sync_only : VinDisplay :=
  rdata_extend (init zero_clock) (repeat MESSAGE_SYNC 7).

(** A new object whose buffer holds the knob frame of position 3 with its
    position byte turned into 2, followed by the knob frame of position 1. *)
Definition corrupted_then_valid : VinDisplay :=
  rdata_extend (init zero_clock)
    ([7; 12; 2; 0; 219; 203; 126] ++ [7; 12; 1; 0; 232; 123; 126]).

(** A new object whose queue holds a frame of the unregistered command 99
    and the knob frame of position 3. *)
Definition unknown_then_knob : VinDisplay :=
  set_in_commands (init zero_clock)
    [[5; 99; 223; 157; 126]; [7; 12; 3; 0; 219; 203; 126]].

(** The frames the peripheral sends for knob positions 0, 3, 3 and 1. *)
Definition knob_frames_0_3_3_1 : list Z :=
  spec_frame [CMD_KNOB_EVENT; 0; 0] ++ spec_frame [CMD_KNOB_EVENT; 3; 0] ++
  spec_frame [CMD_KNOB_EVENT; 3; 0] ++ spec_frame [CMD_KNOB_EVENT; 1; 0].

(** A clock for a new object whose first handler runs at [t_press] and whose
    second handler runs at [t_release] (the constructor reads the clock twice). *)
Definition press_release_clock (t_press t_release : float) (k : nat) : float :=
  match k with
  | 2%nat => t_press
  | 3%nat => t_release
  | _ => 0%float
  end.

(** The frames the peripheral sends for a press followed by a release. *)
Definition press_release_frames : list Z :=
  spec_frame [CMD_BUTTON_EVENT; 1] ++ spec_frame [CMD_BUTTON_EVENT; 0].

(** ** Streams of frames and sequences of calls *)

(** Frames on the wire, each preceded by some number of sync bytes. *)
Definition stream (items : list (nat * list Z)) : list Z :=
  concat (map (fun it => repeat MESSAGE_SYNC (fst it) ++ snd it) items).


(** ** The two halves of the CRC update *)

(** The loop variable after its two updates, from the byte read and the
    low byte of the accumulator. *)
Definition crc_data (lo data : Z) : Z :=
  let data := Z.lxor data lo in
  Z.lxor data (Z.shiftl (Z.land data 0x0f) 4).

(** The new accumulator, from that value and the high byte of the old one. *)
Definition crc_mix (d hi : Z) : Z :=
  Z.lxor (Z.lxor (Z.lor (Z.shiftl d 8) hi) (Z.shiftr d 4)) (Z.shiftl d 3).

(** The way back: the loop variable and the old high byte from the new
    accumulator, and the byte read from the loop variable and the old low
    byte. *)
Definition crc_unmix_d (c : Z) : Z :=
  let h := Z.shiftr c 8 in Z.lxor h (Z.shiftr h 5).

Definition crc_unmix_hi (c : Z) : Z :=
  let d := crc_unmix_d c in
  Z.lxor (Z.lxor (Z.land c 0xff) (Z.shiftr d 4)) (Z.land (Z.shiftl d 3) 0xff).

Definition crc_undata (lo d : Z) : Z :=
  Z.lxor (Z.lxor d (Z.shiftl (Z.land d 0x0f) 4)) lo.

(** The integers 0 to 255. *)
Definition all_bytes : list Z := map Z.of_nat (seq 0 256).

(** ** Shapes of the display buffer *)

(** The buffer as [_init_buffer] leaves it. *)
Definition blank : list (list Z) :=
  repeat (repeat 0 (Z.to_nat line_length)) (Z.to_nat n_lines).

(** The buffer has [n_lines] rows of [line_length] bytes. *)
Definition well_shaped (b : list (list Z)) : Prop :=
  len b = n_lines /\ Forall (fun row => len row = line_length) b /\
  Forall (Forall is_byte) b.

(** The row after [write_text] at a column that is not negative: the bytes
    of [data] that fit replace those from column x on. *)
Definition overwrite (row : list Z) (x : Z) (data : list Z) : list Z :=
  let ln := Z.max 0 (Z.min (line_length - x) (len data)) in
  firstn (Z.to_nat x) row ++ firstn (Z.to_nat ln) data
  ++ skipn (Z.to_nat (x + ln)) row.

(** Calls of [write_text] one after the other, each given as column, row
    and data, until one raises. *)
Definition write_all (self : Surface) (ws : list (Z * Z * list Z)) : result Surface :=
  fold_left
    (fun r w => s <- r ;; write_text s (fst (fst w)) (snd (fst w)) (snd w))
    ws (Ok self).

(** * Properties *)

(** ** Bounds of the bit operations *)

Lemma fits_land_ones (n a : Z) : 0 <= n -> fits n a <-> Z.land a (Z.ones n) = a.
Proof.
  intros Hn. unfold fits. rewrite Z.land_ones by assumption. split.
  - intros H. now apply Z.mod_small.
  - intros H. rewrite <- H. apply Z.mod_pos_bound. now apply Z.pow_pos_nonneg.
Qed.

Lemma land_lxor_l (a b m : Z) :
  Z.land (Z.lxor a b) m = Z.lxor (Z.land a m) (Z.land b m).
Proof.
  apply Z.bits_inj'. intros i Hi.
  rewrite Z.land_spec, !Z.lxor_spec, !Z.land_spec.
  now destruct (Z.testbit a i), (Z.testbit b i), (Z.testbit m i).
Qed.

Lemma land_lor_l (a b m : Z) :
  Z.land (Z.lor a b) m = Z.lor (Z.land a m) (Z.land b m).
Proof.
  apply Z.bits_inj'. intros i Hi.
  rewrite Z.land_spec, !Z.lor_spec, !Z.land_spec.
  now destruct (Z.testbit a i), (Z.testbit b i), (Z.testbit m i).
Qed.

Lemma fits_lxor (n a b : Z) : 0 <= n -> fits n a -> fits n b -> fits n (Z.lxor a b).
Proof.
  intros Hn Ha Hb. apply fits_land_ones in Ha, Hb; try assumption.
  apply fits_land_ones; [assumption|]. now rewrite land_lxor_l, Ha, Hb.
Qed.

Lemma fits_lor (n a b : Z) : 0 <= n -> fits n a -> fits n b -> fits n (Z.lor a b).
Proof.
  intros Hn Ha Hb. apply fits_land_ones in Ha, Hb; try assumption.
  apply fits_land_ones; [assumption|]. now rewrite land_lor_l, Ha, Hb.
Qed.

Lemma fits_mono (n m a : Z) : 0 <= n <= m -> fits n a -> fits m a.
Proof.
  intros Hnm [H0 H1]. split; [assumption|].
  eapply Z.lt_le_trans; [eassumption|]. apply Z.pow_le_mono_r; lia.
Qed.

Lemma fits_land_mask (n a : Z) : 0 <= n -> fits n (Z.land a (Z.ones n)).
Proof.
  intros Hn. unfold fits. rewrite Z.land_ones by assumption.
  apply Z.mod_pos_bound. now apply Z.pow_pos_nonneg.
Qed.

Lemma fits_shiftl (n k a : Z) :
  0 <= n -> 0 <= k -> fits n a -> fits (n + k) (Z.shiftl a k).
Proof.
  intros Hn Hk [H0 H1]. unfold fits. rewrite Z.shiftl_mul_pow2 by assumption.
  rewrite Z.pow_add_r by assumption.
  assert (0 < 2 ^ k) by now apply Z.pow_pos_nonneg.
  split; [apply Z.mul_nonneg_nonneg; lia|].
  apply Z.mul_lt_mono_pos_r; assumption.
Qed.

Lemma fits_shiftr (n k a : Z) : 0 <= k <= n -> fits n a -> fits (n - k) (Z.shiftr a k).
Proof.
  intros Hk [H0 H1]. unfold fits. rewrite Z.shiftr_div_pow2 by lia.
  assert (0 < 2 ^ k) by (apply Z.pow_pos_nonneg; lia).
  split; [apply Z.div_pos; lia|].
  apply Z.div_lt_upper_bound; [assumption|].
  rewrite <- Z.pow_add_r by lia. now replace (k + (n - k)) with n by lia.
Qed.

Lemma wrap16_fits (z : Z) : fits 16 z -> wrap16 z = z.
Proof. intros H. unfold wrap16. now apply Z.mod_small. Qed.

Lemma is_byte_fits (b : Z) : is_byte b <-> fits 8 b.
Proof. unfold is_byte, fits. change (2 ^ 8) with 256. tauto. Qed.

Lemma is_byteb_spec (b : Z) : is_byteb b = true <-> is_byte b.
Proof. unfold is_byteb, is_byte. lia. Qed.

(** ** The CRC routine *)

(** The values of the loop body, named as they arise. *)
Lemma crc_update_steps (crc data : Z) :
  fits 16 crc -> is_byte data ->
  let d1 := Z.lxor data (Z.land crc 255) in
  let d2 := Z.lxor d1 (Z.shiftl (Z.land d1 15) 4) in
  fits 8 (Z.land crc 255) /\ fits 8 d1 /\ fits 4 (Z.land d1 15) /\
  fits 8 (Z.shiftl (Z.land d1 15) 4) /\ fits 8 d2 /\
  fits 16 (Z.shiftl d2 8) /\ fits 8 (Z.shiftr crc 8) /\
  fits 4 (Z.shiftr d2 4) /\ fits 11 (Z.shiftl d2 3).
Proof.
  intros Hc Hd d1 d2. apply is_byte_fits in Hd.
  assert (H1 : fits 8 (Z.land crc 255))
    by (change 255 with (Z.ones 8); apply fits_land_mask; lia).
  assert (Hd1 : fits 8 d1) by (apply fits_lxor; [lia|assumption..]).
  assert (H2 : fits 4 (Z.land d1 15))
    by (change 15 with (Z.ones 4); apply fits_land_mask; lia).
  assert (H3 : fits 8 (Z.shiftl (Z.land d1 15) 4))
    by exact (fits_shiftl 4 4 _ ltac:(lia) ltac:(lia) H2).
  assert (Hd2 : fits 8 d2) by (apply fits_lxor; [lia|assumption..]).
  repeat split; try apply H1; try apply Hd1; try apply H2; try apply H3;
    try apply Hd2.
  - exact (proj1 (fits_shiftl 8 8 _ ltac:(lia) ltac:(lia) Hd2)).
  - exact (proj2 (fits_shiftl 8 8 _ ltac:(lia) ltac:(lia) Hd2)).
  - exact (proj1 (fits_shiftr 16 8 _ ltac:(lia) Hc)).
  - exact (proj2 (fits_shiftr 16 8 _ ltac:(lia) Hc)).
  - exact (proj1 (fits_shiftr 8 4 _ ltac:(lia) Hd2)).
  - exact (proj2 (fits_shiftr 8 4 _ ltac:(lia) Hd2)).
  - exact (proj1 (fits_shiftl 8 3 _ ltac:(lia) ltac:(lia) Hd2)).
  - exact (proj2 (fits_shiftl 8 3 _ ltac:(lia) ltac:(lia) Hd2)).
Qed.

Lemma crc_update_fits (crc data : Z) :
  fits 16 crc -> is_byte data -> fits 16 (crc_update crc data).
Proof.
  intros Hc Hd.
  destruct (crc_update_steps crc data Hc Hd)
    as (_ & _ & _ & _ & _ & Ha & Hb & Hc' & He).
  unfold crc_update. cbv zeta.
  apply fits_lxor; [lia| |apply (fits_mono 11); [lia|exact He]].
  apply fits_lxor; [lia| |apply (fits_mono 4); [lia|exact Hc']].
  apply fits_lor; [lia|exact Ha|apply (fits_mono 8); [lia|exact Hb]].
Qed.

Lemma spec_update_crc_update (crc data : Z) :
  fits 16 crc -> is_byte data -> spec_update crc data = crc_update crc data.
Proof.
  intros Hc Hd.
  pose proof (crc_update_fits crc data Hc Hd) as Hout.
  destruct (crc_update_steps crc data Hc Hd)
    as (H1 & Hd1 & H2 & H3 & Hd2 & Ha & Hb & Hc' & He).
  unfold crc_update in *. unfold spec_update. cbv zeta in *.
  rewrite (wrap16_fits (Z.land crc 255)) by (apply (fits_mono 8); [lia|exact H1]).
  rewrite (wrap16_fits (Z.lxor data (Z.land crc 255)))
    by (apply (fits_mono 8); [lia|exact Hd1]).
  rewrite (wrap16_fits (Z.land _ 15)) by (apply (fits_mono 4); [lia|exact H2]).
  rewrite (wrap16_fits (Z.shiftl (Z.land _ 15) 4))
    by (apply (fits_mono 8); [lia|exact H3]).
  rewrite (wrap16_fits (Z.lxor _ (Z.shiftl (Z.land _ 15) 4)))
    by (apply (fits_mono 8); [lia|exact Hd2]).
  rewrite (wrap16_fits (Z.shiftl _ 8)) by exact Ha.
  rewrite (wrap16_fits (Z.shiftr crc 8)) by (apply (fits_mono 8); [lia|exact Hb]).
  rewrite (wrap16_fits (Z.shiftr _ 4)) by (apply (fits_mono 4); [lia|exact Hc']).
  rewrite (wrap16_fits (Z.shiftl _ 3)) by (apply (fits_mono 11); [lia|exact He]).
  rewrite (wrap16_fits (Z.lor _ _))
    by (apply fits_lor; [lia|exact Ha|apply (fits_mono 8); [lia|exact Hb]]).
  rewrite (wrap16_fits (Z.lxor (Z.lor _ _) _)).
  - now apply wrap16_fits.
  - apply fits_lxor; [lia| |apply (fits_mono 4); [lia|exact Hc']].
    apply fits_lor; [lia|exact Ha|apply (fits_mono 8); [lia|exact Hb]].
Qed.

Lemma fold_crc_update_fits (buf : list Z) (crc : Z) :
  Forall is_byte buf -> fits 16 crc -> fits 16 (fold_left crc_update buf crc).
Proof.
  intros Hb. revert crc.
  induction Hb as [|b buf Hb _ IH]; intros crc Hc; simpl; [assumption|].
  apply IH. now apply crc_update_fits.
Qed.

Lemma fold_spec_update (buf : list Z) (crc : Z) :
  Forall is_byte buf -> fits 16 crc ->
  fold_left spec_update buf crc = fold_left crc_update buf crc.
Proof.
  intros Hb. revert crc.
  induction Hb as [|b buf Hb _ IH]; intros crc Hc; simpl; [reflexivity|].
  rewrite spec_update_crc_update by assumption.
  apply IH. now apply crc_update_fits.
Qed.

Lemma fits_16_init : fits 16 0xffff.
Proof. unfold fits. change (2 ^ 16) with 65536. lia. Qed.

Lemma crc_acc_fits (buf : list Z) : Forall is_byte buf -> fits 16 (crc_acc buf).
Proof. intros Hb. apply fold_crc_update_fits; [assumption|apply fits_16_init]. Qed.

Lemma spec_acc_crc_acc (buf : list Z) : Forall is_byte buf -> spec_acc buf = crc_acc buf.
Proof. intros Hb. apply fold_spec_update; [assumption|apply fits_16_init]. Qed.

Lemma Forall_firstn {A : Type} (P : A -> Prop) (k : nat) (l : list A) :
  Forall P l -> Forall P (firstn k l).
Proof.
  intros H. revert k. induction H as [|x l Hx _ IH]; intros [|k]; simpl;
    constructor; auto.
Qed.

Lemma Forall_skipn {A : Type} (P : A -> Prop) (k : nat) (l : list A) :
  Forall P l -> Forall P (skipn k l).
Proof.
  intros H. revert k. induction H as [|x l Hx Hl IH]; intros [|k]; simpl;
    auto.
Qed.

Lemma crc16_ccitt_bytes (buf : list Z) :
  Forall is_byte buf -> Forall is_byte (crc16_ccitt buf).
Proof.
  intros Hb. pose proof (crc_acc_fits buf Hb) as Hc. unfold crc16_ccitt.
  repeat constructor.
  - exact (proj1 (fits_shiftr 16 8 _ ltac:(lia) Hc)).
  - exact (proj2 (fits_shiftr 16 8 _ ltac:(lia) Hc)).
  - change 255 with (Z.ones 8). apply (fits_land_mask 8). lia.
  - change 255 with (Z.ones 8). apply (fits_land_mask 8). lia.
Qed.

Lemma crc16_ccitt_length (buf : list Z) : length (crc16_ccitt buf) = 2%nat.
Proof. reflexivity. Qed.

(** C3: on every byte sequence crc16_ccitt returns what the specified
    algorithm returns (accumulator started at 0xFFFF, the three update steps
    per byte in wrapping 16-bit arithmetic, result most significant byte
    first); the empty sequence gives the bytes 0xFF, 0xFF. *)
Theorem crc16_ccitt_computes_spec (buf : list Z) :
  Forall is_byte buf ->
  crc16_ccitt buf = spec_compute buf /\
  crc16_ccitt buf = [crc_acc buf / 256; crc_acc buf mod 256] /\
  crc16_ccitt [] = [0xFF; 0xFF].
Proof.
  intros Hb. pose proof (crc_acc_fits buf Hb) as Hc.
  assert (E : crc16_ccitt buf = [crc_acc buf / 256; crc_acc buf mod 256]).
  { unfold crc16_ccitt. cbv zeta.
    rewrite Z.shiftr_div_pow2 by lia. change (2 ^ 8) with 256.
    change 255 with (Z.ones 8). rewrite Z.land_ones by lia.
    reflexivity. }
  split; [|split; [exact E|reflexivity]].
  rewrite E. unfold spec_compute. cbv zeta.
  rewrite spec_acc_crc_acc by assumption.
  now rewrite wrap16_fits by assumption.
Qed.

Lemma crc16_ccitt_computes_spec_witness :
  crc16_ccitt [7; 12; 3; 0] = spec_compute [7; 12; 3; 0] /\
  crc16_ccitt [7; 12; 3; 0]
  = [crc_acc [7; 12; 3; 0] / 256; crc_acc [7; 12; 3; 0] mod 256] /\
  crc16_ccitt [] = [0xFF; 0xFF].
Proof.
  apply (crc16_ccitt_computes_spec [7; 12; 3; 0]).
  repeat constructor; unfold is_byte; lia.
Defined.

(** C10: on bytes the accumulator stays below 2^16 after every pass of the
    loop although the code never masks it, both returned values are bytes,
    and the accumulator is the one of the wrapping 16-bit computation. *)
Theorem crc_acc_stays_16_bit (buf : list Z) :
  Forall is_byte buf ->
  (forall k : nat, 0 <= crc_acc (firstn k buf) < 2 ^ 16) /\
  Forall is_byte (crc16_ccitt buf) /\
  crc_acc buf = spec_acc buf.
Proof.
  intros Hb. split; [|split].
  - intros k. apply crc_acc_fits. now apply Forall_firstn.
  - now apply crc16_ccitt_bytes.
  - symmetry. now apply spec_acc_crc_acc.
Qed.

Lemma crc_acc_stays_16_bit_witness :
  (forall k : nat, 0 <= crc_acc (firstn k [0x80; 0xff; 0; 0x7e]) < 2 ^ 16) /\
  Forall is_byte (crc16_ccitt [0x80; 0xff; 0; 0x7e]) /\
  crc_acc [0x80; 0xff; 0; 0x7e] = spec_acc [0x80; 0xff; 0; 0x7e].
Proof.
  apply (crc_acc_stays_16_bit [0x80; 0xff; 0; 0x7e]).
  repeat constructor; unfold is_byte; lia.
Defined.

(** ** The command encoder *)

Lemma bind_ok {A B : Type} (r : result A) (k : A -> result B) (b : B) :
  bind r k = Ok b -> exists a, r = Ok a /\ k a = Ok b.
Proof. destruct r; simpl; intros H; try discriminate. eauto. Qed.

Lemma py_bytes_ok (l l' : list Z) :
  py_bytes l = Ok l' -> l' = l /\ Forall is_byte l.
Proof.
  unfold py_bytes. destruct (forallb is_byteb l) eqn:E; intros H; inversion H.
  split; [reflexivity|]. subst. apply Forall_forall. intros x Hx.
  apply is_byteb_spec. rewrite forallb_forall in E. now apply E.
Qed.

Lemma py_bytes_bytes (l : list Z) : Forall is_byte l -> py_bytes l = Ok l.
Proof.
  intros H. unfold py_bytes.
  replace (forallb is_byteb l) with true; [reflexivity|].
  symmetry. apply forallb_forall. intros x Hx. apply is_byteb_spec.
  rewrite Forall_forall in H. now apply H.
Qed.

Lemma frame_of_ok (msg frame : list Z) :
  frame_of msg = Ok frame ->
  frame = spec_frame msg /\ is_byte (len msg + MESSAGE_TRAILER_SIZE + 1).
Proof.
  unfold frame_of. intros H.
  apply bind_ok in H. destruct H as (hd & Hhd & H).
  apply py_bytes_ok in Hhd. destruct Hhd as [-> Hb].
  apply bind_ok in H. destruct H as (crc & Hcrc & H).
  apply py_bytes_ok in Hcrc. destruct Hcrc as [-> _].
  apply bind_ok in H. destruct H as (sync & Hsync & H).
  apply py_bytes_ok in Hsync. destruct Hsync as [-> _].
  inversion H. split; [reflexivity|]. now inversion Hb.
Qed.

Lemma frame_of_bytes (msg : list Z) :
  Forall is_byte msg -> is_byte (len msg + MESSAGE_TRAILER_SIZE + 1) ->
  frame_of msg = Ok (spec_frame msg).
Proof.
  intros Hm Hl. unfold frame_of.
  rewrite py_bytes_bytes by (repeat constructor; apply Hl). simpl bind.
  rewrite py_bytes_bytes
    by (apply crc16_ccitt_bytes; constructor; [exact Hl|exact Hm]).
  simpl bind. reflexivity.
Qed.

Lemma send_cmd_ok {A : Type} (cmd_fun : VinDisplay -> A -> result (list Z))
  (self self' : VinDisplay) (cmd_args : A) :
  send_cmd cmd_fun self cmd_args = Ok self' ->
  exists payload, cmd_fun self cmd_args = Ok payload /\
                  frame_of payload = Ok (spec_frame payload) /\
                  self' = dev_write self (spec_frame payload).
Proof.
  unfold send_cmd. intros H.
  apply bind_ok in H. destruct H as (payload & Hp & H).
  apply bind_ok in H. destruct H as (frame & Hf & H).
  destruct (frame_of_ok _ _ Hf) as [-> _]. inversion H. eauto.
Qed.

(** C2: whenever one of the three builders writes to the device, what it
    writes is one frame made, in this order, of the total-length byte
    (payload length + trailer size + 1), the payload bytes, the two CRC
    bytes of length byte and payload (most significant first) and the sync
    byte 0x7E; nothing else of the object changes. *)
Theorem builder_writes_spec_frame (self self' : VinDisplay) (c : command) :
  invoke self c = Ok self' ->
  exists payload,
    payload_of self c = Ok payload /\
    self' = dev_write self (spec_frame payload) /\
    dev_out self' = dev_out self ++
      [[len payload + MESSAGE_TRAILER_SIZE + 1] ++ payload ++
       crc16_ccitt ([len payload + MESSAGE_TRAILER_SIZE + 1] ++ payload) ++
       [MESSAGE_SYNC]].
Proof.
  intros H.
  assert (G : exists payload, payload_of self c = Ok payload /\
                              self' = dev_write self (spec_frame payload)).
  { destruct c; simpl in H |- *; apply send_cmd_ok in H;
      destruct H as (p & Hp & _ & Hs); eauto. }
  destruct G as (p & Hp & ->). exists p. repeat split; assumption || reflexivity.
Qed.

Lemma builder_writes_spec_frame_witness :
  exists payload,
    payload_of (init zero_clock) (DisplayText [72; 105]) = Ok payload /\
    dev_write (init zero_clock) [8; 10; 2; 72; 105; 117; 223; 126]
    = dev_write (init zero_clock) (spec_frame payload) /\
    dev_out (dev_write (init zero_clock) [8; 10; 2; 72; 105; 117; 223; 126])
    = dev_out (init zero_clock) ++
      [[len payload + MESSAGE_TRAILER_SIZE + 1] ++ payload ++
       crc16_ccitt ([len payload + MESSAGE_TRAILER_SIZE + 1] ++ payload) ++
       [MESSAGE_SYNC]].
Proof.
  exact (builder_writes_spec_frame (init zero_clock)
           (dev_write (init zero_clock) [8; 10; 2; 72; 105; 117; 223; 126])
           (DisplayText [72; 105]) eq_refl).
Defined.

(** ** The frame decoder *)

Lemma slice_from_1 {A : Type} (l : list A) : slice l 1 (len l) = tl l.
Proof.
  unfold slice, len. rewrite Nat2Z.id, firstn_all. now destruct l.
Qed.

Lemma slice_from_0 {A : Type} (l : list A) (n : Z) :
  slice l 0 n = firstn (Z.to_nat n) l.
Proof. reflexivity. Qed.

Lemma slice_to_end {A : Type} (l : list A) (n : Z) :
  slice l n (len l) = skipn (Z.to_nat n) l.
Proof. unfold slice, len. now rewrite Nat2Z.id, firstn_all. Qed.

Lemma parse_iter_verdict (self : VinDisplay) :
  parse_iter self = after_verdict self (head_verdict (rdata self)).
Proof.
  unfold parse_iter, head_verdict. cbv zeta.
  rewrite slice_from_1, slice_to_end, !slice_from_0.
  repeat match goal with
         | |- context [if ?b then _ else _] => destruct b
         end; reflexivity.
Qed.

Lemma parse_loop_scan (fuel : nat) (self : VinDisplay) :
  parse_loop fuel self = decoded self (scan fuel (rdata self)).
Proof.
  revert self. induction fuel as [|fuel IH]; intros self.
  - destruct self. simpl. now rewrite !app_nil_r.
  - simpl. rewrite parse_iter_verdict.
    destruct (head_verdict (rdata self)) as [|[|]| |n]; simpl.
    + destruct self. simpl. now rewrite !app_nil_r.
    + rewrite IH. simpl.
      destruct (scan fuel (tl (rdata self))) as [[frames out] rest].
      simpl. now rewrite <- app_assoc.
    + rewrite IH. simpl.
      destruct (scan fuel (tl (rdata self))) as [[frames out] rest].
      reflexivity.
    + destruct self. simpl. now rewrite !app_nil_r.
    + rewrite IH. simpl.
      destruct (scan fuel (skipn (Z.to_nat n) (rdata self))) as [[frames out] rest].
      simpl. now rewrite <- app_assoc.
Qed.

Lemma parse_incoming_data_scan (self : VinDisplay) :
  parse_incoming_data self = decoded self (scan_all (rdata self)).
Proof. apply parse_loop_scan. Qed.

(** The tests behind each verdict. *)
Lemma head_verdict_exit (rd : list Z) :
  head_verdict rd = LoopExit <-> len rd < MESSAGE_MIN.
Proof.
  unfold head_verdict. cbv zeta.
  destruct (len rd <? MESSAGE_MIN) eqn:E.
  - apply Z.ltb_lt in E. tauto.
  - apply Z.ltb_ge in E.
    repeat match goal with
           | |- context [if ?b then _ else _] => destruct b
           end; split; intros H; try discriminate; lia.
Qed.

Lemma head_verdict_wait (rd : list Z) :
  head_verdict rd = Wait <->
  MESSAGE_MIN <= len rd /\ item rd 0 <> MESSAGE_SYNC /\
  MESSAGE_MIN <= item rd 0 <= MESSAGE_MAX /\ len rd < item rd 0.
Proof.
  unfold head_verdict. cbv zeta.
  destruct (len rd <? MESSAGE_MIN) eqn:E1;
    [apply Z.ltb_lt in E1; split; [discriminate|lia]|apply Z.ltb_ge in E1].
  destruct (item rd 0 =? MESSAGE_SYNC) eqn:E2;
    [apply Z.eqb_eq in E2; split; [discriminate|tauto]|apply Z.eqb_neq in E2].
  destruct ((MESSAGE_MIN <=? item rd 0) && (item rd 0 <=? MESSAGE_MAX)) eqn:E3;
    simpl.
  2:{ split; [discriminate|]. intros (_ & _ & H & _).
      apply andb_false_iff in E3. destruct E3 as [E3|E3];
        [apply Z.leb_gt in E3|apply Z.leb_gt in E3]; lia. }
  apply andb_true_iff in E3. destruct E3 as [E3 E4].
  apply Z.leb_le in E3, E4.
  destruct (len rd <? item rd 0) eqn:E5;
    [apply Z.ltb_lt in E5; tauto|apply Z.ltb_ge in E5].
  repeat match goal with
         | |- context [if ?b then _ else _] => destruct b
         end; split; intros H; try discriminate; lia.
Qed.

Lemma head_verdict_emit (rd : list Z) (n : Z) :
  head_verdict rd = Emit n <->
  MESSAGE_MIN <= len rd /\ n = item rd 0 /\ n <> MESSAGE_SYNC /\
  MESSAGE_MIN <= n <= MESSAGE_MAX /\ n <= len rd /\
  item rd (n - 1) = MESSAGE_SYNC /\
  crc16_ccitt (slice rd 0 (n - 3)) = slice rd (n - 3) (n - 1).
Proof.
  unfold head_verdict. cbv zeta.
  destruct (len rd <? MESSAGE_MIN) eqn:E1;
    [apply Z.ltb_lt in E1; split; [discriminate|lia]|apply Z.ltb_ge in E1].
  destruct (item rd 0 =? MESSAGE_SYNC) eqn:E2;
    [apply Z.eqb_eq in E2; split; [discriminate|intros (_ & -> & H & _); tauto]
    |apply Z.eqb_neq in E2].
  destruct ((MESSAGE_MIN <=? item rd 0) && (item rd 0 <=? MESSAGE_MAX)) eqn:E3;
    simpl.
  2:{ split; [discriminate|]. intros (_ & -> & _ & H & _).
      apply andb_false_iff in E3. destruct E3 as [E3|E3];
        [apply Z.leb_gt in E3|apply Z.leb_gt in E3]; lia. }
  apply andb_true_iff in E3. destruct E3 as [E3 E4].
  apply Z.leb_le in E3, E4.
  destruct (len rd <? item rd 0) eqn:E5;
    [apply Z.ltb_lt in E5; split;
     [discriminate|intros (_ & -> & _ & _ & H & _); lia]
    |apply Z.ltb_ge in E5].
  destruct (item rd (item rd 0 - 1) =? MESSAGE_SYNC) eqn:E6; simpl;
    [apply Z.eqb_eq in E6
    |apply Z.eqb_neq in E6; split;
     [discriminate|intros (_ & -> & _ & _ & _ & H & _); tauto]].
  unfold list_eqb.
  destruct (list_eq_dec Z.eq_dec _ _) as [E7|E7]; simpl.
  - split; [intros H; inversion H; subst n; tauto|].
    intros (_ & -> & _). reflexivity.
  - split; [discriminate|]. intros (_ & -> & _ & _ & _ & _ & H). tauto.
Qed.

Lemma head_verdict_drop_len (rd : list Z) (c : bool) :
  head_verdict rd = Drop c -> MESSAGE_MIN <= len rd.
Proof.
  intros H. destruct (Z.lt_ge_cases (len rd) MESSAGE_MIN) as [L|L]; [|exact L].
  apply head_verdict_exit in L. congruence.
Qed.

Lemma len_nonneg {A : Type} (l : list A) : 0 <= len l.
Proof. unfold len. lia. Qed.

Lemma drop_length (rd : list Z) (c : bool) :
  head_verdict rd = Drop c ->
  (5 <= length rd)%nat /\ length (tl rd) = pred (length rd).
Proof.
  intros H. apply head_verdict_drop_len in H. unfold len, MESSAGE_MIN in H.
  split; [lia|]. now destruct rd.
Qed.

Lemma emit_length (rd : list Z) (n : Z) :
  head_verdict rd = Emit n ->
  (5 <= Z.to_nat n <= length rd)%nat /\
  length (skipn (Z.to_nat n) rd) = (length rd - Z.to_nat n)%nat.
Proof.
  intros H. apply head_verdict_emit in H.
  destruct H as (_ & _ & _ & Hn & Hl & _).
  unfold len, MESSAGE_MIN, MESSAGE_MAX in *. rewrite length_skipn. lia.
Qed.

(** More fuel than the length of the buffer changes nothing. *)
Lemma scan_fuel (n m : nat) (rd : list Z) :
  (length rd <= n)%nat -> (length rd <= m)%nat -> scan n rd = scan m rd.
Proof.
  revert m rd. induction n as [|n IH]; intros m rd Hn Hm.
  - destruct rd; [|simpl in Hn; lia]. now destruct m.
  - destruct m as [|m].
    + destruct rd; [|simpl in Hm; lia]. reflexivity.
    + simpl. destruct (head_verdict rd) as [|c| |k] eqn:V; try reflexivity.
      * destruct (drop_length _ _ V) as [L1 L2].
        now rewrite (IH m (tl rd)) by lia.
      * destruct (emit_length _ _ V) as [L1 L2].
        now rewrite (IH m (skipn (Z.to_nat k) rd)) by lia.
Qed.

(** With that fuel the loop has really been left: the bytes that remain
    make the loop condition false or reach [break]. *)
Lemma scan_exits (n : nat) (rd : list Z) :
  (length rd <= n)%nat ->
  head_verdict (snd (scan n rd)) = LoopExit \/
  head_verdict (snd (scan n rd)) = Wait.
Proof.
  revert rd. induction n as [|n IH]; intros rd Hn.
  - destruct rd; [|simpl in Hn; lia]. now left.
  - simpl. destruct (head_verdict rd) as [|c| |k] eqn:V; simpl; auto.
    + destruct (drop_length _ _ V) as [L1 L2].
      specialize (IH (tl rd) ltac:(lia)).
      destruct (scan n (tl rd)) as [[frames out] rest]. exact IH.
    + destruct (emit_length _ _ V) as [L1 L2].
      specialize (IH (skipn (Z.to_nat k) rd) ltac:(lia)).
      destruct (scan n (skipn (Z.to_nat k) rd)) as [[frames out] rest]. exact IH.
Qed.

Lemma rdata_decoded (self : VinDisplay) (r : list (list Z) * list out_line * list Z) :
  rdata (decoded self r) = snd r.
Proof. now destruct r as [[frames out] rest]. Qed.

Lemma in_commands_decoded (self : VinDisplay)
  (r : list (list Z) * list out_line * list Z) :
  in_commands (decoded self r) = in_commands self ++ fst (fst r).
Proof. now destruct r as [[frames out] rest]. Qed.

Lemma parse_incoming_data_exits (self : VinDisplay) :
  parse_iter (parse_incoming_data self) = None.
Proof.
  rewrite parse_iter_verdict, parse_incoming_data_scan, rdata_decoded.
  destruct (scan_exits (length (rdata self)) (rdata self) (le_n _)) as [E|E];
    unfold scan_all; now rewrite E.
Qed.

Lemma parse_loop_fuel (n : nat) (self : VinDisplay) :
  (length (rdata self) <= n)%nat -> parse_loop n self = parse_incoming_data self.
Proof.
  intros H. unfold parse_incoming_data. rewrite !parse_loop_scan.
  now rewrite (scan_fuel n (length (rdata self))) by lia.
Qed.

Lemma head_verdict_garbage (rd : list Z) :
  MESSAGE_MIN <= len rd -> garbage (item rd 0) -> head_verdict rd = Drop false.
Proof.
  intros Hl Hg. unfold head_verdict. cbv zeta.
  destruct (len rd <? MESSAGE_MIN) eqn:E1; [apply Z.ltb_lt in E1; lia|].
  destruct (item rd 0 =? MESSAGE_SYNC) eqn:E2; [reflexivity|].
  apply Z.eqb_neq in E2.
  destruct ((MESSAGE_MIN <=? item rd 0) && (item rd 0 <=? MESSAGE_MAX)) eqn:E3;
    [|reflexivity].
  apply andb_true_iff in E3. destruct E3 as [E3 E4].
  apply Z.leb_le in E3, E4. unfold garbage in Hg. lia.
Qed.

Lemma scan_garbage (n : nat) (rd : list Z) :
  Forall garbage rd -> (length rd <= n)%nat ->
  fst (scan n rd) = ([], []) /\ len (snd (scan n rd)) < MESSAGE_MIN.
Proof.
  revert rd. induction n as [|n IH]; intros rd Hg Hn.
  - destruct rd; [|simpl in Hn; lia]. split; [reflexivity|].
    unfold len, MESSAGE_MIN. simpl. lia.
  - simpl. destruct (Z.lt_ge_cases (len rd) MESSAGE_MIN) as [L|L].
    + pose proof L as L'. apply head_verdict_exit in L'. rewrite L'.
      split; [reflexivity|exact L].
    + assert (V : head_verdict rd = Drop false).
      { apply head_verdict_garbage; [exact L|].
        destruct rd as [|b rd]; [unfold len, MESSAGE_MIN in L; simpl in L; lia|].
        now inversion Hg. }
      rewrite V. destruct (drop_length _ _ V) as [L1 L2].
      assert (Hg' : Forall garbage (tl rd)) by (destruct rd; [assumption|now inversion Hg]).
      destruct (IH (tl rd) Hg' ltac:(lia)) as [F R].
      destruct (scan n (tl rd)) as [[frames out] rest]. simpl in *.
      inversion F. subst. split; [reflexivity|exact R].
Qed.

(** C4: with at least MESSAGE_MIN bytes buffered, a pass of the loop either
    removes at least one byte from the head of the buffer (the k removed
    bytes are queued as a frame, or one byte is dropped) or leaves the loop
    only because the candidate length at the head exceeds the number of
    buffered bytes; and a buffer of sync bytes only, or of bytes outside
    [5, 128] only, is parsed without queueing any frame, down to fewer than
    MESSAGE_MIN bytes, where the loop is left. *)
Theorem parse_progress_and_garbage (self : VinDisplay) :
  (MESSAGE_MIN <= len (rdata self) ->
   (exists self' k,
       parse_iter self = Some self' /\ 1 <= k <= len (rdata self) /\
       rdata self' = skipn (Z.to_nat k) (rdata self) /\
       (in_commands self' = in_commands self ++ [firstn (Z.to_nat k) (rdata self)]
        \/ (k = 1 /\ in_commands self' = in_commands self)))
   \/ (parse_iter self = None /\ len (rdata self) < item (rdata self) 0)) /\
  (Forall (fun b => b = MESSAGE_SYNC) (rdata self) \/
   Forall (fun b => b < MESSAGE_MIN \/ MESSAGE_MAX < b) (rdata self) ->
   in_commands (parse_incoming_data self) = in_commands self /\
   len (rdata (parse_incoming_data self)) < MESSAGE_MIN /\
   parse_iter (parse_incoming_data self) = None).
Proof.
  split.
  - intros Hl. rewrite parse_iter_verdict.
    destruct (head_verdict (rdata self)) as [|c| |k] eqn:V.
    + apply head_verdict_exit in V. lia.
    + left. destruct (drop_length _ _ V) as [L1 L2].
      exists (if c then print (set_rdata self (tl (rdata self))) PrintWrongCrc
              else set_rdata self (tl (rdata self))), 1.
      destruct c; simpl; (split; [reflexivity|]);
        (split; [unfold MESSAGE_MIN in Hl; lia|]);
        (split; [now destruct (rdata self)|right; now split]).
    + right. apply head_verdict_wait in V. simpl. split; [reflexivity|tauto].
    + left. pose proof V as V'. apply head_verdict_emit in V'.
      destruct V' as (_ & _ & _ & Hn & Hk & _).
      eexists _, k. simpl. split; [reflexivity|].
      split; [unfold MESSAGE_MIN in Hn; lia|]. split; [reflexivity|now left].
  - intros Hg.
    assert (G : Forall garbage (rdata self)).
    { destruct Hg as [Hg|Hg]; eapply Forall_impl; try exact Hg;
        unfold garbage; intros b Hb; tauto. }
    destruct (scan_garbage _ _ G (le_n (length (rdata self)))) as [F R].
    split; [|split; [|apply parse_incoming_data_exits]];
      rewrite parse_incoming_data_scan.
    + rewrite in_commands_decoded. unfold scan_all. rewrite F.
      apply app_nil_r.
    + rewrite rdata_decoded. exact R.
Qed.

Lemma parse_progress_and_garbage_witness :
  ((exists self' k,
       parse_iter sync_only = Some self' /\ 1 <= k <= len (rdata sync_only) /\
       rdata self' = skipn (Z.to_nat k) (rdata sync_only) /\
       (in_commands self'
        = in_commands sync_only ++ [firstn (Z.to_nat k) (rdata sync_only)]
        \/ (k = 1 /\ in_commands self' = in_commands sync_only)))
   \/ (parse_iter sync_only = None /\
       len (rdata sync_only) < item (rdata sync_only) 0)) /\
  (in_commands (parse_incoming_data sync_only) = in_commands sync_only /\
   len (rdata (parse_incoming_data sync_only)) < MESSAGE_MIN /\
   parse_iter (parse_incoming_data sync_only) = None).
Proof.
  destruct (parse_progress_and_garbage sync_only) as [P G]. split.
  - apply P. vm_compute. discriminate.
  - apply G. left. repeat constructor.
Defined.

(** *** Bytes appended behind the buffer do not change a pass that acted *)

Lemma firstn_app_le {A : Type} (n : nat) (l x : list A) :
  (n <= length l)%nat -> firstn n (l ++ x) = firstn n l.
Proof.
  intros H. rewrite firstn_app. replace (n - length l)%nat with 0%nat by lia.
  simpl. apply app_nil_r.
Qed.

Lemma skipn_app_le {A : Type} (n : nat) (l x : list A) :
  (n <= length l)%nat -> skipn n (l ++ x) = skipn n l ++ x.
Proof.
  intros H. rewrite skipn_app. now replace (n - length l)%nat with 0%nat by lia.
Qed.

Lemma item_app (l x : list Z) (i : Z) :
  0 <= i < len l -> item (l ++ x) i = item l i.
Proof. intros H. unfold item, len in *. apply app_nth1. lia. Qed.

Lemma slice_app (l x : list Z) (lo hi : Z) :
  hi <= len l -> slice (l ++ x) lo hi = slice l lo hi.
Proof.
  intros H. unfold slice, len in *. now rewrite firstn_app_le by lia.
Qed.

Lemma len_app {A : Type} (l x : list A) : len (l ++ x) = len l + len x.
Proof. unfold len. rewrite length_app. lia. Qed.

Lemma head_verdict_app (rd x : list Z) :
  head_verdict rd <> LoopExit -> head_verdict rd <> Wait ->
  head_verdict (rd ++ x) = head_verdict rd.
Proof.
  intros HE HW.
  assert (L : MESSAGE_MIN <= len rd).
  { destruct (Z.lt_ge_cases (len rd) MESSAGE_MIN) as [L|L]; [|exact L].
    apply head_verdict_exit in L. contradiction. }
  assert (W : item rd 0 <> MESSAGE_SYNC ->
              MESSAGE_MIN <= item rd 0 <= MESSAGE_MAX -> item rd 0 <= len rd).
  { intros H1 H2. destruct (Z.lt_ge_cases (len rd) (item rd 0)) as [C|C]; [|lia].
    exfalso. apply HW. apply head_verdict_wait. tauto. }
  pose proof (len_nonneg x) as Lx.
  unfold head_verdict. cbv zeta. rewrite len_app.
  rewrite (item_app rd x 0) by (unfold MESSAGE_MIN in L; lia).
  replace (len rd + len x <? MESSAGE_MIN) with false by (symmetry; apply Z.ltb_ge; lia).
  replace (len rd <? MESSAGE_MIN) with false by (symmetry; apply Z.ltb_ge; lia).
  destruct (item rd 0 =? MESSAGE_SYNC) eqn:E2; [reflexivity|].
  apply Z.eqb_neq in E2.
  destruct ((MESSAGE_MIN <=? item rd 0) && (item rd 0 <=? MESSAGE_MAX)) eqn:E3;
    simpl; [|reflexivity].
  apply andb_true_iff in E3. destruct E3 as [E3 E4]. apply Z.leb_le in E3, E4.
  specialize (W E2 (conj E3 E4)).
  replace (len rd + len x <? item rd 0) with false by (symmetry; apply Z.ltb_ge; lia).
  replace (len rd <? item rd 0) with false by (symmetry; apply Z.ltb_ge; lia).
  rewrite (item_app rd x (item rd 0 - 1)) by (unfold MESSAGE_MIN in E3; lia).
  rewrite !(slice_app rd x) by lia.
  reflexivity.
Qed.

Lemma scan_all_step (rd : list Z) :
  scan_all rd =
  match head_verdict rd with
  | LoopExit | Wait => ([], [], rd)
  | Drop c =>
      let '(frames, out, rest) := scan_all (tl rd) in
      (frames, (if c then [PrintWrongCrc] else []) ++ out, rest)
  | Emit n =>
      let '(frames, out, rest) := scan_all (skipn (Z.to_nat n) rd) in
      (firstn (Z.to_nat n) rd :: frames, out, rest)
  end.
Proof.
  unfold scan_all. destruct rd as [|b rd]; [reflexivity|].
  cbn [length scan]. destruct (head_verdict (b :: rd)) as [|c| |n] eqn:V;
    try reflexivity.
  destruct (emit_length _ _ V) as [L1 L2]. simpl length in L1, L2.
  now rewrite (scan_fuel (length rd) (length (skipn (Z.to_nat n) (b :: rd)))
                   (skipn (Z.to_nat n) (b :: rd))) by lia.
Qed.

(** Parsing a buffer, then parsing what is left with more bytes behind it,
    queues the same frames, prints the same lines and leaves the same bytes
    as parsing the whole at once. *)
Lemma scan_all_app (rd x : list Z) :
  scan_all (rd ++ x) =
  let '(f1, o1, r1) := scan_all rd in
  let '(f2, o2, r2) := scan_all (r1 ++ x) in
  (f1 ++ f2, o1 ++ o2, r2).
Proof.
  remember (length rd) as n eqn:Hn.
  assert (Hle : (length rd <= n)%nat) by lia. clear Hn.
  revert rd Hle. induction n as [|n IH]; intros rd Hle.
  - destruct rd; [|simpl in Hle; lia]. simpl.
    change (scan_all []) with (@nil (list Z), @nil out_line, @nil Z).
    now destruct (scan_all x) as [[f2 o2] r2].
  - rewrite (scan_all_step rd).
    destruct (head_verdict rd) as [|c| |k] eqn:V.
    + now destruct (scan_all (rd ++ x)) as [[f2 o2] r2].
    + destruct (drop_length _ _ V) as [L1 L2].
      rewrite (scan_all_step (rd ++ x)).
      rewrite head_verdict_app, V by (rewrite V; discriminate).
      replace (tl (rd ++ x)) with (tl rd ++ x)
        by (destruct rd; [simpl in L1; lia|reflexivity]).
      rewrite (IH (tl rd)) by lia.
      destruct (scan_all (tl rd)) as [[f1 o1] r1].
      destruct (scan_all (r1 ++ x)) as [[f2 o2] r2].
      now rewrite app_assoc.
    + now destruct (scan_all (rd ++ x)) as [[f2 o2] r2].
    + destruct (emit_length _ _ V) as [L1 L2].
      rewrite (scan_all_step (rd ++ x)).
      rewrite head_verdict_app, V by (rewrite V; discriminate).
      rewrite skipn_app_le, firstn_app_le by lia.
      rewrite (IH (skipn (Z.to_nat k) rd)) by lia.
      destruct (scan_all (skipn (Z.to_nat k) rd)) as [[f1 o1] r1].
      destruct (scan_all (r1 ++ x)) as [[f2 o2] r2].
      reflexivity.
Qed.

Lemma parse_after_parse (self : VinDisplay) (x : list Z) :
  parse_incoming_data (rdata_extend (parse_incoming_data self) x)
  = parse_incoming_data (rdata_extend self x).
Proof.
  rewrite !parse_incoming_data_scan. unfold rdata_extend.
  cbn [rdata set_rdata]. rewrite rdata_decoded.
  rewrite (scan_all_app (rdata self) x).
  destruct (scan_all (rdata self)) as [[f1 o1] r1]. cbn [snd].
  destruct (scan_all (r1 ++ x)) as [[f2 o2] r2].
  unfold decoded, set_rdata. cbn. now rewrite !app_assoc.
Qed.

Lemma rdata_extend_twice (self : VinDisplay) (a b : list Z) :
  rdata_extend (rdata_extend self a) b = rdata_extend self (a ++ b).
Proof. unfold rdata_extend, set_rdata. cbn. now rewrite app_assoc. Qed.

(** Any split of the incoming bytes over append-then-parse cycles leaves
    the decoder where one append and one parse leave it. *)
Lemma feed_concat (self : VinDisplay) (chunk : list Z) (chunks : list (list Z)) :
  feed self (chunk :: chunks)
  = parse_incoming_data (rdata_extend self (concat (chunk :: chunks))).
Proof.
  revert self chunk. induction chunks as [|d chunks IH]; intros self chunk.
  - simpl. now rewrite app_nil_r.
  - change (feed self (chunk :: d :: chunks))
      with (feed (parse_incoming_data (rdata_extend self chunk)) (d :: chunks)).
    rewrite IH, parse_after_parse, rdata_extend_twice. reflexivity.
Qed.

(** *** Valid frames *)

Lemma valid_frame_checks (f : list Z) :
  valid_frame f <->
  item f 0 = len f /\ MESSAGE_MIN <= len f <= MESSAGE_MAX /\
  len f <> MESSAGE_SYNC /\ item f (len f - 1) = MESSAGE_SYNC /\
  crc16_ccitt (slice f 0 (len f - 3)) = slice f (len f - 3) (len f - 1).
Proof.
  unfold valid_frame. rewrite head_verdict_emit. split.
  - intros (H1 & H2 & H3 & H4 & H5 & H6 & H7). repeat split; auto; lia.
  - intros (H1 & H2 & H3 & H4 & H5). repeat split; auto; lia.
Qed.

Lemma firstn_len (f x : list Z) : firstn (Z.to_nat (len f)) (f ++ x) = f.
Proof.
  unfold len. rewrite Nat2Z.id, firstn_app_le by lia. apply firstn_all.
Qed.

Lemma skipn_len (f x : list Z) : skipn (Z.to_nat (len f)) (f ++ x) = x.
Proof.
  unfold len. rewrite Nat2Z.id, skipn_app_le by lia.
  now rewrite skipn_all.
Qed.

Lemma valid_frame_verdict (f x : list Z) :
  valid_frame f -> head_verdict (f ++ x) = Emit (len f).
Proof.
  intros V. unfold valid_frame in V.
  rewrite head_verdict_app; rewrite V; [reflexivity|discriminate..].
Qed.

(** A valid frame at the head of the buffer is queued and removed. *)
Lemma scan_all_valid (f x : list Z) :
  valid_frame f ->
  scan_all (f ++ x) = let '(frames, out, rest) := scan_all x in (f :: frames, out, rest).
Proof.
  intros V. rewrite scan_all_step, (valid_frame_verdict f x V).
  now rewrite firstn_len, skipn_len.
Qed.

Lemma scan_all_nil : scan_all [] = ([], [], []).
Proof. reflexivity. Qed.

(** Before its last byte has arrived a valid frame makes the loop wait. *)
Lemma scan_all_prefix (p q : list Z) :
  valid_frame (p ++ q) -> q <> [] -> scan_all p = ([], [], p).
Proof.
  intros V Hq. apply valid_frame_checks in V.
  destruct V as (H1 & H2 & H3 & _).
  assert (Lq : 0 < len q) by (destruct q; [contradiction|unfold len; simpl; lia]).
  rewrite len_app in *.
  rewrite scan_all_step.
  destruct (Z.lt_ge_cases (len p) MESSAGE_MIN) as [L|L].
  - apply head_verdict_exit in L. now rewrite L.
  - rewrite item_app in H1 by (unfold MESSAGE_MIN in L; lia).
    assert (W : head_verdict p = Wait) by (apply head_verdict_wait; lia).
    now rewrite W.
Qed.

(** Frames as [send_cmd] lays them out are valid when their length byte is
    in the range of the decoder and is not the sync byte. *)
Lemma len_spec_frame (payload : list Z) :
  len (spec_frame payload) = len payload + 4.
Proof.
  unfold spec_frame, len. cbv zeta.
  rewrite !length_app. simpl length. lia.
Qed.

Lemma spec_frame_split (payload : list Z) :
  let total := len payload + MESSAGE_TRAILER_SIZE + 1 in
  spec_frame payload
  = (total :: payload) ++ crc16_ccitt (total :: payload) ++ [MESSAGE_SYNC].
Proof. reflexivity. Qed.

Lemma spec_frame_valid (payload : list Z) :
  MESSAGE_MIN <= len payload + 4 <= MESSAGE_MAX ->
  len payload + 4 <> MESSAGE_SYNC ->
  valid_frame (spec_frame payload).
Proof.
  intros Hr Hs. apply valid_frame_checks. rewrite len_spec_frame.
  split; [unfold spec_frame, item, MESSAGE_TRAILER_SIZE; simpl; lia|].
  split; [exact Hr|]. split; [exact Hs|].
  rewrite spec_frame_split. cbv zeta.
  set (body := (len payload + MESSAGE_TRAILER_SIZE + 1) :: payload).
  assert (Lb : length body = S (length payload)) by reflexivity.
  assert (Lp : len payload = Z.of_nat (length payload)) by reflexivity.
  split.
  - unfold item.
    replace (Z.to_nat (len payload + 4 - 1)) with (length body + 2)%nat by lia.
    now rewrite app_nth2_plus.
  - unfold slice.
    replace (Z.to_nat (len payload + 4 - 3)) with (length body) by lia.
    replace (Z.to_nat (len payload + 4 - 1)) with (length body + 2)%nat by lia.
    replace (Z.to_nat 0) with 0%nat by reflexivity.
    rewrite firstn_app_le by lia. rewrite firstn_all. cbn [skipn].
    rewrite firstn_app. rewrite firstn_all2 by lia.
    replace (length body + 2 - length body)%nat with 2%nat by lia.
    rewrite skipn_app, skipn_all.
    replace (length body - length body)%nat with 0%nat by lia.
    reflexivity.
Qed.

(** *** What the builders pack *)

Lemma pack_B_ok (v : Z) (l : list Z) : pack_B v = Ok l -> l = [v] /\ 0 <= v <= 255.
Proof.
  unfold pack_B. destruct ((0 <=? v) && (v <=? 255)) eqn:E; intros H; inversion H.
  split; [reflexivity|lia].
Qed.

Lemma pack_H_ok (v : Z) (l : list Z) :
  pack_H v = Ok l ->
  exists lo hi, l = [lo; hi] /\ uint16_le lo hi = v /\ 0 <= v <= 65535.
Proof.
  unfold pack_H. destruct ((0 <=? v) && (v <=? 65535)) eqn:E; intros H; inversion H.
  exists (v mod 256), (v / 256). split; [reflexivity|].
  split; [|lia]. unfold uint16_le. pose proof (Z.div_mod v 256). lia.
Qed.

Lemma pack_L_ok (v : Z) (l : list Z) :
  pack_L v = Ok l ->
  exists b0 b1 b2 b3,
    l = [b0; b1; b2; b3] /\ uint32_le b0 b1 b2 b3 = v /\ 0 <= v <= 4294967295.
Proof.
  unfold pack_L. destruct ((0 <=? v) && (v <=? 4294967295)) eqn:E;
    intros H; inversion H.
  do 4 eexists. split; [reflexivity|]. split; [|lia]. unfold uint32_le.
  change 65536 with (256 * 256). change 16777216 with (256 * 256 * 256).
  rewrite <- !Z.div_div by lia.
  pose proof (Z.div_mod v 256 ltac:(lia)).
  pose proof (Z.div_mod (v / 256) 256 ltac:(lia)).
  pose proof (Z.div_mod (v / 256 / 256) 256 ltac:(lia)).
  lia.
Qed.

Lemma pack_s_exact (text : list Z) : pack_s (len text) text = text.
Proof.
  unfold pack_s, len. rewrite Nat2Z.id, firstn_all, Nat.sub_diag.
  apply app_nil_r.
Qed.

Lemma display_text_msg_ok (self : VinDisplay) (text payload : list Z) :
  display_text_msg self text = Ok payload ->
  payload = [CMD_DISPLAY_TEXT; len text] ++ text /\ len text <= 255.
Proof.
  unfold display_text_msg. cbv zeta. intros H.
  apply bind_ok in H. destruct H as (c & Hc & H).
  apply pack_B_ok in Hc. destruct Hc as [-> _].
  apply bind_ok in H. destruct H as (s & Hs & H).
  apply pack_B_ok in Hs. destruct Hs as [-> Hs].
  rewrite pack_s_exact in H. inversion H. split; [reflexivity|lia].
Qed.

Lemma buzzer_play_msg_ok (self : VinDisplay) (cancel_pplay : bool) :
  buzzer_play_msg self cancel_pplay = Ok [CMD_BUZZER_PLAY; Z.b2z cancel_pplay].
Proof. reflexivity. Qed.

Lemma buzzer_queue_msg_ok (self : VinDisplay) (freq duration : float)
  (payload : list Z) :
  buzzer_queue_msg self (freq, duration) = Ok payload ->
  exists ncycles hperiod b0 b1 b2 b3 lo hi,
    tone_ncycles freq duration = Ok ncycles /\
    tone_hperiod freq = Ok hperiod /\
    payload = [CMD_BUZZER_QUEUE; 8; b0; b1; b2; b3; lo; hi; lo; hi] /\
    uint32_le b0 b1 b2 b3 = ncycles /\ uint16_le lo hi = hperiod.
Proof.
  unfold buzzer_queue_msg, tone_ncycles, tone_hperiod. cbv zeta. intros H.
  apply bind_ok in H. destruct H as (n & Hn & H). rewrite Hn.
  apply bind_ok in H. destruct H as (q & Hq & H). rewrite Hq.
  apply bind_ok in H. destruct H as (h & Hh & H). cbn [bind]. rewrite Hh.
  apply bind_ok in H. destruct H as (c & Hc & H).
  apply pack_B_ok in Hc. destruct Hc as [-> _].
  apply bind_ok in H. destruct H as (e & He & H).
  apply pack_B_ok in He. destruct He as [-> _].
  apply bind_ok in H. destruct H as (l & Hl & H).
  apply pack_L_ok in Hl. destruct Hl as (b0 & b1 & b2 & b3 & -> & Hl & _).
  apply bind_ok in H. destruct H as (h1 & Hh1 & H).
  pose proof Hh1 as Hh1'.
  apply pack_H_ok in Hh1. destruct Hh1 as (lo & hi & -> & Hh1 & _).
  apply bind_ok in H. destruct H as (h2 & Hh2 & H).
  rewrite Hh1' in Hh2. inversion Hh2. subst h2. inversion H.
  exists (Z.max 1 n), (h / 2), b0, b1, b2, b3, lo, hi.
  cbn [bind]. repeat split; assumption || reflexivity.
Qed.

Lemma invoke_ok (self self' : VinDisplay) (c : command) :
  invoke self c = Ok self' ->
  exists payload,
    payload_of self c = Ok payload /\
    frame_of payload = Ok (spec_frame payload) /\
    self' = dev_write self (spec_frame payload).
Proof.
  intros H. destruct c; simpl in H |- *; apply send_cmd_ok in H;
    destruct H as (p & Hp & Hf & Hs); eauto.
Qed.

Lemma slice_payload (payload : list Z) :
  slice (spec_frame payload) 1 (len (spec_frame payload) - 3) = payload.
Proof.
  rewrite len_spec_frame. unfold slice, spec_frame. cbv zeta.
  replace (Z.to_nat (len payload + 4 - 3)) with (S (length payload))
    by (unfold len; lia).
  change (Z.to_nat 1) with 1%nat. cbn [app firstn skipn].
  rewrite firstn_app_le by lia. apply firstn_all.
Qed.

Lemma payload_carries (self : VinDisplay) (c : command) (payload : list Z) :
  payload_of self c = Ok payload -> carries c payload.
Proof.
  destruct c; simpl; intros H.
  - now apply display_text_msg_ok in H.
  - rewrite buzzer_play_msg_ok in H. now inversion H.
  - now apply buzzer_queue_msg_ok in H.
Qed.

Lemma carries_decodable_len (c : command) (payload : list Z) :
  carries c payload -> decodable c ->
  MESSAGE_MIN <= len payload + 4 <= MESSAGE_MAX /\ len payload + 4 <> MESSAGE_SYNC.
Proof.
  unfold MESSAGE_MIN, MESSAGE_MAX, MESSAGE_SYNC.
  destruct c; simpl.
  - intros -> [H1 H2]. unfold len in *. simpl length. lia.
  - intros -> _. unfold len. simpl length. lia.
  - intros (n & h & b0 & b1 & b2 & b3 & lo & hi & _ & _ & -> & _) _.
    unfold len. simpl length. lia.
Qed.

Lemma parse_one_valid (dec : VinDisplay) (frame : list Z) :
  rdata dec = [] -> valid_frame frame ->
  parse_incoming_data (rdata_extend dec frame)
  = set_in_commands dec (in_commands dec ++ [frame]).
Proof.
  intros Hr V. rewrite parse_incoming_data_scan. unfold rdata_extend.
  cbn [rdata set_rdata]. rewrite Hr. cbn [app].
  replace (scan_all frame) with (scan_all (frame ++ []))
    by now rewrite app_nil_r.
  rewrite scan_all_valid, scan_all_nil by exact V.
  destruct dec. simpl in *. subst. unfold set_in_commands. simpl.
  now rewrite app_nil_r.
Qed.

(** C1, as amended: when a builder writes a frame and the command is one the
    decoder can take (any buzzer command; a display text of at most 122
    bytes and not of 120 bytes), parsing that frame from an empty buffer
    queues exactly that one frame and leaves the buffer empty, and the bytes
    between the length byte and the CRC are the builder's payload: the
    command id followed by the arguments as packed. *)
Theorem encode_then_decode (self self' dec : VinDisplay) (c : command) :
  invoke self c = Ok self' ->
  decodable c ->
  rdata dec = [] ->
  exists payload frame,
    payload_of self c = Ok payload /\
    dev_out self' = dev_out self ++ [frame] /\
    parse_incoming_data (rdata_extend dec frame)
    = set_in_commands dec (in_commands dec ++ [frame]) /\
    slice frame 1 (len frame - 3) = payload /\
    carries c payload.
Proof.
  intros Hi Hd Hr.
  destruct (invoke_ok _ _ _ Hi) as (payload & Hp & _ & ->).
  pose proof (payload_carries _ _ _ Hp) as Hc.
  destruct (carries_decodable_len _ _ Hc Hd) as [Hl Hs].
  exists payload, (spec_frame payload).
  split; [exact Hp|]. split; [reflexivity|].
  split; [apply parse_one_valid; [exact Hr|now apply spec_frame_valid]|].
  split; [apply slice_payload|exact Hc].
Qed.

Lemma encode_then_decode_witness :
  exists payload frame,
    payload_of (init zero_clock) (DisplayText [72; 105]) = Ok payload /\
    dev_out (dev_write (init zero_clock) [8; 10; 2; 72; 105; 117; 223; 126])
    = dev_out (init zero_clock) ++ [frame] /\
    parse_incoming_data (rdata_extend (init zero_clock) frame)
    = set_in_commands (init zero_clock) (in_commands (init zero_clock) ++ [frame]) /\
    slice frame 1 (len frame - 3) = payload /\
    carries (DisplayText [72; 105]) payload.
Proof.
  apply (encode_then_decode (init zero_clock)
           (dev_write (init zero_clock) [8; 10; 2; 72; 105; 117; 223; 126])
           (init zero_clock) (DisplayText [72; 105])).
  - reflexivity.
  - simpl. unfold len. simpl. lia.
  - reflexivity.
Defined.

(** C1 as stated fails for display texts: the frame of a text of 120 bytes
    starts with the length byte 126, which is the sync byte, and the frame of
    a text of 123 bytes has the length byte 129, above MESSAGE_MAX; the
    builder writes either frame, and the decoder queues no frame from it. *)
Lemma encode_then_decode_counterexample :
  (invoke (init zero_clock) (DisplayText (repeat 0 120))
   = Ok (dev_write (init zero_clock)
           (spec_frame ([CMD_DISPLAY_TEXT; 120] ++ repeat 0 120))) /\
   item (spec_frame ([CMD_DISPLAY_TEXT; 120] ++ repeat 0 120)) 0 = MESSAGE_SYNC /\
   in_commands
     (parse_incoming_data
        (rdata_extend (init zero_clock)
           (spec_frame ([CMD_DISPLAY_TEXT; 120] ++ repeat 0 120)))) = [] /\
   rdata
     (parse_incoming_data
        (rdata_extend (init zero_clock)
           (spec_frame ([CMD_DISPLAY_TEXT; 120] ++ repeat 0 120))))
   = [0; 224; 107; 126]) /\
  (invoke (init zero_clock) (DisplayText (repeat 0 123))
   = Ok (dev_write (init zero_clock)
           (spec_frame ([CMD_DISPLAY_TEXT; 123] ++ repeat 0 123))) /\
   item (spec_frame ([CMD_DISPLAY_TEXT; 123] ++ repeat 0 123)) 0 = 129 /\
   in_commands
     (parse_incoming_data
        (rdata_extend (init zero_clock)
           (spec_frame ([CMD_DISPLAY_TEXT; 123] ++ repeat 0 123)))) = [] /\
   rdata
     (parse_incoming_data
        (rdata_extend (init zero_clock)
           (spec_frame ([CMD_DISPLAY_TEXT; 123] ++ repeat 0 123))))
   = [0; 209; 10; 126]).
Proof. vm_compute. repeat split; reflexivity. Qed.

(** *** CRC failures and resynchronisation *)

Lemma crc_mismatch_verdict (rd : list Z) :
  crc_mismatch rd -> head_verdict rd = Drop true.
Proof.
  intros (H1 & H2 & H3 & H4 & H5 & H6). unfold head_verdict. cbv zeta.
  replace (len rd <? MESSAGE_MIN) with false by (symmetry; apply Z.ltb_ge; lia).
  replace (item rd 0 =? MESSAGE_SYNC) with false
    by (symmetry; now apply Z.eqb_neq).
  replace ((MESSAGE_MIN <=? item rd 0) && (item rd 0 <=? MESSAGE_MAX)) with true
    by (symmetry; apply andb_true_iff; split; apply Z.leb_le; lia).
  replace (len rd <? item rd 0) with false by (symmetry; apply Z.ltb_ge; lia).
  replace (item rd (item rd 0 - 1) =? MESSAGE_SYNC) with true
    by (symmetry; now apply Z.eqb_eq).
  simpl. unfold list_eqb.
  destruct (list_eq_dec Z.eq_dec _ _) as [E|E]; [contradiction|reflexivity].
Qed.

Lemma scan_all_slides (bad good : list Z) :
  slides_through bad good -> valid_frame good ->
  fst (fst (scan_all (bad ++ good))) = [good] /\ snd (scan_all (bad ++ good)) = [].
Proof.
  intros Hs V. induction bad as [|b bad IH].
  - simpl. replace (scan_all good) with (scan_all (good ++ []))
      by now rewrite app_nil_r.
    rewrite scan_all_valid, scan_all_nil by exact V. now split.
  - destruct (Hs 0%nat ltac:(simpl; lia)) as [c Hc]. cbn [skipn] in Hc.
    rewrite scan_all_step, Hc. cbn [tl app].
    assert (Hs' : slides_through bad good).
    { intros i Hi. apply (Hs (S i)). simpl. lia. }
    destruct (IH Hs') as [F R].
    destruct (scan_all (bad ++ good)) as [[frames out] rest]. simpl in *.
    now split.
Qed.

(** C5, as amended: a candidate that passes the length-range and terminator
    tests but whose CRC differs costs exactly one byte of the buffer, queues
    nothing and keeps the loop going; and when a corrupted frame is followed
    by a valid frame, and every start position inside the corrupted frame
    makes the loop drop a byte (none there is a candidate longer than the
    buffered bytes, at which the loop would stop and wait), then no frame is
    queued for the corrupted frame and the valid frame is queued. *)
Theorem crc_failure_slides_one_byte (self : VinDisplay) :
  (crc_mismatch (rdata self) ->
   parse_iter self
   = Some (print (set_rdata self (tl (rdata self))) PrintWrongCrc)) /\
  (forall bad good : list Z,
      rdata self = bad ++ good ->
      crc_mismatch bad -> item bad 0 = len bad -> valid_frame good ->
      slides_through (tl bad) good ->
      in_commands (parse_incoming_data self) = in_commands self ++ [good] /\
      rdata (parse_incoming_data self) = []).
Proof.
  split.
  - intros H. rewrite parse_iter_verdict.
    now rewrite (crc_mismatch_verdict _ H).
  - intros bad good Hr Hm Hl V Hs.
    assert (S' : slides_through bad good).
    { intros [|i] Hi.
      - exists true. cbn [skipn]. rewrite head_verdict_app;
          rewrite (crc_mismatch_verdict _ Hm); [reflexivity|discriminate..].
      - destruct bad as [|b bad]; [simpl in Hi; lia|].
        apply (Hs i). simpl in Hi |- *. lia. }
    destruct (scan_all_slides _ _ S' V) as [F R].
    rewrite parse_incoming_data_scan, in_commands_decoded, rdata_decoded, Hr.
    now rewrite F, R.
Qed.

Lemma crc_failure_slides_one_byte_witness :
  parse_iter corrupted_then_valid
  = Some (print (set_rdata corrupted_then_valid (tl (rdata corrupted_then_valid)))
            PrintWrongCrc) /\
  in_commands (parse_incoming_data corrupted_then_valid)
  = in_commands corrupted_then_valid ++ [[7; 12; 1; 0; 232; 123; 126]] /\
  rdata (parse_incoming_data corrupted_then_valid) = [].
Proof.
  destruct (crc_failure_slides_one_byte corrupted_then_valid) as [A B].
  split.
  - apply A. unfold crc_mismatch. vm_compute.
    repeat split; discriminate.
  - apply (B [7; 12; 2; 0; 219; 203; 126] [7; 12; 1; 0; 232; 123; 126]).
    + reflexivity.
    + unfold crc_mismatch. vm_compute. repeat split; discriminate.
    + reflexivity.
    + reflexivity.
    + intros i Hi. simpl in Hi.
      destruct i as [|[|[|[|[|[|i]]]]]]; try (simpl in Hi; lia);
        eexists; vm_compute; reflexivity.
Defined.

(** C5 as stated fails: the valid frame [7, 12, 36, 0, 181, 240, 126] with
    its byte 36 turned into 100 is rejected for its CRC, but two bytes later
    the byte 100 stands at the head of the buffer as a candidate length, it
    exceeds the 12 bytes buffered, and the loop stops there to wait: the
    valid frame that follows is not queued. *)
Lemma crc_failure_slides_one_byte_counterexample :
  head_verdict [7; 12; 36; 0; 181; 240; 126] = Emit 7 /\
  head_verdict [7; 12; 100; 0; 181; 240; 126] = Drop true /\
  head_verdict [7; 12; 1; 0; 232; 123; 126] = Emit 7 /\
  in_commands
    (parse_incoming_data
       (rdata_extend (init zero_clock)
          ([7; 12; 100; 0; 181; 240; 126] ++ [7; 12; 1; 0; 232; 123; 126])))
  = [] /\
  rdata
    (parse_incoming_data
       (rdata_extend (init zero_clock)
          ([7; 12; 100; 0; 181; 240; 126] ++ [7; 12; 1; 0; 232; 123; 126])))
  = [100; 0; 181; 240; 126; 7; 12; 1; 0; 232; 123; 126] /\
  head_verdict [100; 0; 181; 240; 126; 7; 12; 1; 0; 232; 123; 126] = Wait.
Proof. vm_compute. repeat split; reflexivity. Qed.

(** ** The handlers *)

Lemma beep_knob (self : VinDisplay) :
  beep self 1000%float 0.05%float
  = Ok (fold_left dev_write (tone_frames 1000%float 0.05%float) self).
Proof. vm_compute. reflexivity. Qed.

Lemma beep_click (self : VinDisplay) :
  beep self 400%float 0.05%float
  = Ok (fold_left dev_write (tone_frames 400%float 0.05%float) self).
Proof. vm_compute. reflexivity. Qed.

Lemma dev_out_writes (frames : list (list Z)) (self : VinDisplay) :
  dev_out (fold_left dev_write frames self) = dev_out self ++ frames.
Proof.
  revert self. induction frames as [|f frames IH]; intros self; simpl.
  - now rewrite app_nil_r.
  - rewrite IH. simpl. now rewrite <- app_assoc.
Qed.

(** The knob handler on a frame of seven bytes, as one equation. *)
Lemma knob_event_run (self : VinDisplay) (size cmd_id p0 p1 c0 c1 sync : Z) :
  cmd_in_knob_event self [size; cmd_id; p0; p1; c0; c1; sync]
  = let pos := int16_le p0 p1 in
    let now := clock self (ticks self) in
    let self1 := snd (time self) in
    let self2 :=
      if 0 <? pos - last_knob_pos self then
        fold_left dev_write (tone_frames 1000%float 0.05%float)
          (menu_key_callback self1 "down" now)
      else if pos - last_knob_pos self <? 0 then
        fold_left dev_write (tone_frames 1000%float 0.05%float)
          (menu_key_callback self1 "up" now)
      else self1 in
    Ok (print (set_last_knob_pos self2 pos) (PrintKnob pos)).
Proof.
  unfold cmd_in_knob_event. cbn [unpack_BBhhB bind]. cbv zeta.
  unfold time. cbn [fst snd last_knob_pos].
  destruct (0 <? int16_le p0 p1 - last_knob_pos self);
    [rewrite beep_knob; reflexivity|].
  destruct (int16_le p0 p1 - last_knob_pos self <? 0);
    [rewrite beep_knob; reflexivity|reflexivity].
Qed.

Lemma knob_event_size (self : VinDisplay) (data : list Z) :
  length data <> 7%nat -> cmd_in_knob_event self data = Raise StructError.
Proof.
  intros H. unfold cmd_in_knob_event.
  do 8 (destruct data as [|? data]; try reflexivity). simpl in H. lia.
Qed.

(** C7: the knob handler, on every knob event frame (seven bytes, the
    position in bytes 2 and 3 as a signed 16-bit integer): a position above
    the last one gives the key callback 'down' and the tone beep(1000.0,
    0.05), a position below it gives 'up' and the same tone, an equal
    position gives neither; last_knob_pos becomes the position received in
    every case.  The tone is 50 cycles of half-period 500 microseconds,
    queued and then played.  From a new object the positions 0, 3, 3, 1
    give exactly the events 'down', 'up'. *)
Theorem knob_event_direction (self : VinDisplay) (size cmd_id p0 p1 c0 c1 sync : Z) :
  let pos := int16_le p0 p1 in
  let diff := pos - last_knob_pos self in
  let now := clock self (ticks self) in
  (exists self',
      cmd_in_knob_event self [size; cmd_id; p0; p1; c0; c1; sync] = Ok self' /\
      last_knob_pos self' = pos /\
      (0 < diff ->
       key_log self' = key_log self ++ [("down"%string, now)] /\
       dev_out self' = dev_out self ++ tone_frames 1000%float 0.05%float) /\
      (diff < 0 ->
       key_log self' = key_log self ++ [("up"%string, now)] /\
       dev_out self' = dev_out self ++ tone_frames 1000%float 0.05%float) /\
      (diff = 0 ->
       key_log self' = key_log self /\ dev_out self' = dev_out self)) /\
  (tone_frames 1000%float 0.05%float
   = [spec_frame [CMD_BUZZER_QUEUE; 8; 50; 0; 0; 0; 244; 1; 244; 1];
      spec_frame [CMD_BUZZER_PLAY; 1]] /\
   tone_ncycles 1000%float 0.05%float = Ok 50 /\
   tone_hperiod 1000%float = Ok 500 /\
   uint32_le 50 0 0 0 = 50 /\ uint16_le 244 1 = 500) /\
  (forall clk : nat -> float,
      exists self',
        read_process (init clk) [knob_frames_0_3_3_1] = Ok self' /\
        key_log self' = [("down"%string, clk 3%nat); ("up"%string, clk 5%nat)] /\
        last_knob_pos self' = 1).
Proof.
  cbv zeta. split; [|split].
  - eexists. split; [apply knob_event_run|]. cbv zeta.
    split; [reflexivity|].
    split; [|split].
    + intros H. apply Z.ltb_lt in H. rewrite H.
      cbn [key_log dev_out print set_last_knob_pos].
      rewrite dev_out_writes. split; [|reflexivity].
      now vm_compute tone_frames.
    + intros H.
      replace (0 <? int16_le p0 p1 - last_knob_pos self) with false
        by (symmetry; apply Z.ltb_ge; lia).
      apply Z.ltb_lt in H. rewrite H.
      cbn [key_log dev_out print set_last_knob_pos].
      rewrite dev_out_writes. split; [|reflexivity].
      now vm_compute tone_frames.
    + intros H. rewrite H. now split.
  - vm_compute. repeat split; reflexivity.
  - intros clk. eexists. split; [vm_compute; reflexivity|]. now split.
Qed.

Lemma knob_event_direction_witness :
  exists self',
    cmd_in_knob_event (init zero_clock) [7; 12; 3; 0; 219; 203; 126] = Ok self' /\
    last_knob_pos self' = 3 /\
    key_log self' = [("down"%string, 0%float)] /\
    dev_out self' = tone_frames 1000%float 0.05%float.
Proof.
  destruct (knob_event_direction (init zero_clock) 7 12 3 0 219 203 126)
    as [(s & H1 & H2 & H3 & _) _].
  exists s. split; [exact H1|]. split; [exact H2|].
  apply H3. reflexivity.
Defined.

(** The button handler on a frame of six bytes, as one equation. *)
Lemma button_event_run (self : VinDisplay) (size cmd_id state c0 c1 sync : Z) :
  cmd_in_button_event self [size; cmd_id; state; c0; c1; sync]
  = let now := clock self (ticks self) in
    let self1 := snd (time self) in
    let self2 :=
      if (state =? 1) && (last_btn_state self =? 0) then
        set_last_btn_time self1 now
      else if (state =? 0) && (last_btn_state self =? 1) then
        if PrimFloat.leb 1%float (PrimFloat.sub now (last_btn_time self)) then
          menu_key_callback self1 "long_click" now
        else
          fold_left dev_write (tone_frames 400%float 0.05%float)
            (menu_key_callback self1 "click" now)
      else self1 in
    Ok (print (set_last_btn_state self2 state) (PrintButton state)).
Proof.
  unfold cmd_in_button_event. cbn [unpack_BBBhB bind]. cbv zeta.
  unfold time. cbn [fst snd last_btn_state last_btn_time].
  destruct ((state =? 1) && (last_btn_state self =? 0)); [reflexivity|].
  destruct ((state =? 0) && (last_btn_state self =? 1)); [|reflexivity].
  destruct (PrimFloat.leb 1 (PrimFloat.sub (clock self (ticks self)) (last_btn_time self)));
    [reflexivity|].
  rewrite beep_click. reflexivity.
Qed.

Lemma button_event_size (self : VinDisplay) (data : list Z) :
  length data <> 6%nat -> cmd_in_button_event self data = Raise StructError.
Proof.
  intros H. unfold cmd_in_button_event.
  do 7 (destruct data as [|? data]; try reflexivity). simpl in H. lia.
Qed.

(** C8: the button handler, on every button event frame (six bytes, the
    state in byte 2): a report 1 after state 0 records the current time and
    gives no key event; a report 0 after state 1 gives 'long_click' when
    the time elapsed since the recorded press is at least 1.0 (a difference
    of exactly 1.0 included) and otherwise 'click' with the tone
    beep(400.0, 0.05); a report of the state already held gives no event;
    last_btn_state becomes the state received. *)
Theorem button_event_click (self : VinDisplay) (size cmd_id state c0 c1 sync : Z) :
  let now := clock self (ticks self) in
  let dt := PrimFloat.sub now (last_btn_time self) in
  (exists self',
      cmd_in_button_event self [size; cmd_id; state; c0; c1; sync] = Ok self' /\
      last_btn_state self' = state /\
      (state = 1 -> last_btn_state self = 0 ->
       last_btn_time self' = now /\
       key_log self' = key_log self /\ dev_out self' = dev_out self) /\
      (state = 0 -> last_btn_state self = 1 -> PrimFloat.leb 1%float dt = true ->
       key_log self' = key_log self ++ [("long_click"%string, now)] /\
       dev_out self' = dev_out self) /\
      (state = 0 -> last_btn_state self = 1 -> dt = 1%float ->
       key_log self' = key_log self ++ [("long_click"%string, now)] /\
       dev_out self' = dev_out self) /\
      (state = 0 -> last_btn_state self = 1 -> PrimFloat.leb 1%float dt = false ->
       key_log self' = key_log self ++ [("click"%string, now)] /\
       dev_out self' = dev_out self ++ tone_frames 400%float 0.05%float) /\
      (state = last_btn_state self ->
       key_log self' = key_log self /\ dev_out self' = dev_out self /\
       last_btn_time self' = last_btn_time self)) /\
  (tone_frames 400%float 0.05%float
   = [spec_frame [CMD_BUZZER_QUEUE; 8; 20; 0; 0; 0; 226; 4; 226; 4];
      spec_frame [CMD_BUZZER_PLAY; 1]] /\
   tone_ncycles 400%float 0.05%float = Ok 20 /\
   tone_hperiod 400%float = Ok 1250 /\
   uint32_le 20 0 0 0 = 20 /\ uint16_le 226 4 = 1250) /\
  (exists s1 s2 s3,
      read_process (init (press_release_clock 0 0.5)) [press_release_frames] = Ok s1 /\
      key_log s1 = [("click"%string, 0.5%float)] /\
      read_process (init (press_release_clock 0 1.2)) [press_release_frames] = Ok s2 /\
      key_log s2 = [("long_click"%string, 1.2%float)] /\
      read_process (init (press_release_clock 0 1)) [press_release_frames] = Ok s3 /\
      key_log s3 = [("long_click"%string, 1%float)]).
Proof.
  cbv zeta. split; [|split].
  - eexists. split; [apply button_event_run|]. cbv zeta.
    split; [reflexivity|].
    split; [|split; [|split; [|split]]].
    + intros -> ->. cbn. now repeat split.
    + intros -> -> H. cbn [Z.eqb Pos.eqb andb]. rewrite H. now split.
    + intros -> -> H. cbn [Z.eqb Pos.eqb andb]. rewrite H. now split.
    + intros -> -> H. cbn [Z.eqb Pos.eqb andb]. rewrite H.
      cbn [key_log dev_out print set_last_btn_state].
      rewrite dev_out_writes. split; [|reflexivity].
      now vm_compute tone_frames.
    + intros ->.
      replace ((last_btn_state self =? 1) && (last_btn_state self =? 0)) with false
        by (destruct (Z.eqb_spec (last_btn_state self) 1) as [E|E];
            [rewrite E; reflexivity|reflexivity]).
      replace ((last_btn_state self =? 0) && (last_btn_state self =? 1)) with false
        by (destruct (Z.eqb_spec (last_btn_state self) 0) as [E|E];
            [rewrite E; reflexivity|reflexivity]).
      now repeat split.
  - vm_compute. repeat split; reflexivity.
  - do 3 eexists.
    split; [vm_compute; reflexivity|]. split; [reflexivity|].
    split; [vm_compute; reflexivity|]. split; [reflexivity|].
    split; [vm_compute; reflexivity|]. reflexivity.
Qed.

Lemma button_event_click_witness :
  exists self',
    cmd_in_button_event (set_last_btn_state (init (press_release_clock 1 0)) 1)
      [6; 13; 0; 95; 146; 126] = Ok self' /\
    last_btn_state self' = 0 /\
    key_log self' = [("long_click"%string, 1%float)] /\
    dev_out self' = [].
Proof.
  destruct (button_event_click (set_last_btn_state (init (press_release_clock 1 0)) 1)
              6 13 0 95 146 126)
    as [(s & H1 & H2 & _ & H3 & _) _].
  exists s. split; [exact H1|]. split; [exact H2|].
  apply H3; reflexivity.
Defined.

(** ** The dispatcher *)

(** No handler reads or writes the queue: run on an object with another
    queue, it returns the same object with that queue. *)
Lemma knob_event_queue (self : VinDisplay) (q : list (list Z)) (data : list Z) :
  cmd_in_knob_event (set_in_commands self q) data
  = lift (fun s => set_in_commands s q) (cmd_in_knob_event self data).
Proof.
  unfold cmd_in_knob_event, lift.
  destruct (unpack_BBhhB data) as [[[[[size cmd_id] pos] crc] sync]|e|];
    cbn [bind]; try reflexivity.
  unfold time. cbn [last_knob_pos set_in_commands].
  destruct (0 <? pos - last_knob_pos self);
    [rewrite !beep_knob; reflexivity|].
  destruct (pos - last_knob_pos self <? 0);
    [rewrite !beep_knob; reflexivity|reflexivity].
Qed.

Lemma button_event_queue (self : VinDisplay) (q : list (list Z)) (data : list Z) :
  cmd_in_button_event (set_in_commands self q) data
  = lift (fun s => set_in_commands s q) (cmd_in_button_event self data).
Proof.
  unfold cmd_in_button_event, lift.
  destruct (unpack_BBBhB data) as [[[[[size cmd_id] state] crc] sync]|e|];
    cbn [bind]; try reflexivity.
  unfold time. cbn [last_btn_state last_btn_time set_in_commands clock ticks].
  destruct ((state =? 1) && (last_btn_state self =? 0)); [reflexivity|].
  destruct ((state =? 0) && (last_btn_state self =? 1)); [|reflexivity].
  destruct (PrimFloat.leb 1 (PrimFloat.sub (clock self (ticks self)) (last_btn_time self)));
    [reflexivity|].
  rewrite !beep_click. reflexivity.
Qed.

Lemma buzzer_event_queue (self : VinDisplay) (q : list (list Z)) (data : list Z) :
  cmd_in_buzzer_event (set_in_commands self q) data
  = lift (fun s => set_in_commands s q) (cmd_in_buzzer_event self data).
Proof.
  unfold cmd_in_buzzer_event, lift.
  destruct (unpack_BBBhB data) as [[[[[size cmd_id] state] crc] sync]|e|];
    reflexivity.
Qed.

Lemma dict_get_in_cmd_dict (cmd_id : Z) :
  dict_get in_cmd_dict cmd_id
  = if cmd_id =? CMD_KNOB_EVENT then Some cmd_in_knob_event
    else if cmd_id =? CMD_BUTTON_EVENT then Some cmd_in_button_event
    else if cmd_id =? CMD_BUZZER_EVENT then Some cmd_in_buzzer_event
    else None.
Proof. reflexivity. Qed.

Lemma dict_get_unregistered (cmd_id : Z) :
  cmd_id <> CMD_KNOB_EVENT -> cmd_id <> CMD_BUTTON_EVENT ->
  cmd_id <> CMD_BUZZER_EVENT -> dict_get in_cmd_dict cmd_id = None.
Proof.
  intros H1 H2 H3. rewrite dict_get_in_cmd_dict.
  apply Z.eqb_neq in H1, H2, H3. now rewrite H1, H2, H3.
Qed.

Lemma dispatch_cmd_queue (self : VinDisplay) (q : list (list Z)) (cmd : list Z) :
  dispatch_cmd (set_in_commands self q) cmd
  = lift (fun s => set_in_commands s q) (dispatch_cmd self cmd).
Proof.
  unfold dispatch_cmd. destruct (nth_error cmd 1) as [cmd_id|]; [|reflexivity].
  rewrite dict_get_in_cmd_dict.
  destruct (cmd_id =? CMD_KNOB_EVENT); [apply knob_event_queue|].
  destruct (cmd_id =? CMD_BUTTON_EVENT); [apply button_event_queue|].
  destruct (cmd_id =? CMD_BUZZER_EVENT); [apply buzzer_event_queue|].
  reflexivity.
Qed.

Lemma set_in_commands_same (self : VinDisplay) :
  set_in_commands self (in_commands self) = self.
Proof. now destruct self. Qed.

Lemma dispatch_cmd_frame (self self' : VinDisplay) (cmd : list Z) :
  dispatch_cmd self cmd = Ok self' -> in_commands self' = in_commands self.
Proof.
  intros H. pose proof (dispatch_cmd_queue self (in_commands self) cmd) as Q.
  rewrite set_in_commands_same, H in Q. simpl in Q. now inversion Q.
Qed.

Lemma dispatch_next_raise (e : exn) (q : list (list Z)) :
  fold_left dispatch_next q (Raise e) = Raise e.
Proof. induction q; simpl; auto. Qed.

Lemma dispatch_next_fuel (q : list (list Z)) :
  fold_left dispatch_next q OutOfFuel = OutOfFuel.
Proof. induction q; simpl; auto. Qed.

Lemma dispatch_loop_fold (n : nat) (self : VinDisplay) :
  (length (in_commands self) <= n)%nat ->
  dispatch_loop n self
  = fold_left dispatch_next (in_commands self) (Ok (set_in_commands self [])).
Proof.
  revert self. induction n as [|n IH]; intros self Hn.
  - destruct self as [rd q]. simpl in *. destruct q; [reflexivity|simpl in Hn; lia].
  - destruct (in_commands self) as [|cmd rest] eqn:Q.
    + destruct self as [rd q]. simpl in *. now subst.
    + simpl. rewrite Q, !dispatch_cmd_queue.
      destruct (dispatch_cmd self cmd) as [s1|e|]; cbn [lift bind].
      * rewrite IH by (simpl in *; lia). reflexivity.
      * now rewrite dispatch_next_raise.
      * now rewrite dispatch_next_fuel.
Qed.

Lemma dispatch_in_commands_fold (self : VinDisplay) :
  dispatch_in_commands self
  = fold_left dispatch_next (in_commands self) (Ok (set_in_commands self [])).
Proof. now apply dispatch_loop_fold. Qed.

Lemma dispatch_in_commands_idle (self : VinDisplay) :
  in_commands self = [] -> dispatch_in_commands self = Ok self.
Proof.
  intros H. rewrite dispatch_in_commands_fold, H. simpl.
  now rewrite <- H, set_in_commands_same.
Qed.

Lemma dispatch_cmd_unpackable (self : VinDisplay) (cmd : list Z) :
  unpackable cmd -> exists self', dispatch_cmd self cmd = Ok self'.
Proof.
  intros (cmd_id & Hid & Hk & Hb). unfold dispatch_cmd. rewrite Hid.
  rewrite dict_get_in_cmd_dict.
  destruct (Z.eqb_spec cmd_id CMD_KNOB_EVENT) as [E|E].
  { specialize (Hk E).
    do 8 (destruct cmd as [|? cmd]; try (simpl in Hk; lia)).
    rewrite knob_event_run. eexists. reflexivity. }
  destruct (Z.eqb_spec cmd_id CMD_BUTTON_EVENT) as [E1|E1].
  { specialize (Hb (or_introl E1)).
    do 7 (destruct cmd as [|? cmd]; try (simpl in Hb; lia)).
    rewrite button_event_run. eexists. reflexivity. }
  destruct (Z.eqb_spec cmd_id CMD_BUZZER_EVENT) as [E2|E2].
  { specialize (Hb (or_intror E2)).
    do 7 (destruct cmd as [|? cmd]; try (simpl in Hb; lia)).
    eexists. reflexivity. }
  eexists. reflexivity.
Qed.

Lemma dispatch_all_unpackable (q : list (list Z)) (self : VinDisplay) :
  Forall unpackable q -> in_commands self = [] ->
  exists self', fold_left dispatch_next q (Ok self) = Ok self' /\
                in_commands self' = [].
Proof.
  intros H. revert self. induction H as [|cmd q Hc _ IH]; intros self Hq.
  - exists self. now split.
  - simpl. destruct (dispatch_cmd_unpackable self cmd Hc) as [s1 H1].
    rewrite H1. apply IH.
    now rewrite (dispatch_cmd_frame _ _ _ H1).
Qed.

(** No handler reads or writes the receive buffer either. *)
Lemma knob_event_rdata (self : VinDisplay) (r : list Z) (data : list Z) :
  cmd_in_knob_event (set_rdata self r) data
  = lift (fun s => set_rdata s r) (cmd_in_knob_event self data).
Proof.
  unfold cmd_in_knob_event, lift.
  destruct (unpack_BBhhB data) as [[[[[size cmd_id] pos] crc] sync]|e|];
    cbn [bind]; try reflexivity.
  unfold time. cbn [last_knob_pos set_rdata].
  destruct (0 <? pos - last_knob_pos self);
    [rewrite !beep_knob; reflexivity|].
  destruct (pos - last_knob_pos self <? 0);
    [rewrite !beep_knob; reflexivity|reflexivity].
Qed.

Lemma button_event_rdata (self : VinDisplay) (r : list Z) (data : list Z) :
  cmd_in_button_event (set_rdata self r) data
  = lift (fun s => set_rdata s r) (cmd_in_button_event self data).
Proof.
  unfold cmd_in_button_event, lift.
  destruct (unpack_BBBhB data) as [[[[[size cmd_id] state] crc] sync]|e|];
    cbn [bind]; try reflexivity.
  unfold time. cbn [last_btn_state last_btn_time set_rdata clock ticks].
  destruct ((state =? 1) && (last_btn_state self =? 0)); [reflexivity|].
  destruct ((state =? 0) && (last_btn_state self =? 1)); [|reflexivity].
  destruct (PrimFloat.leb 1 (PrimFloat.sub (clock self (ticks self)) (last_btn_time self)));
    [reflexivity|].
  rewrite !beep_click. reflexivity.
Qed.

Lemma buzzer_event_rdata (self : VinDisplay) (r : list Z) (data : list Z) :
  cmd_in_buzzer_event (set_rdata self r) data
  = lift (fun s => set_rdata s r) (cmd_in_buzzer_event self data).
Proof.
  unfold cmd_in_buzzer_event, lift.
  destruct (unpack_BBBhB data) as [[[[[size cmd_id] state] crc] sync]|e|];
    reflexivity.
Qed.

Lemma dispatch_cmd_rdata (self : VinDisplay) (r : list Z) (cmd : list Z) :
  dispatch_cmd (set_rdata self r) cmd
  = lift (fun s => set_rdata s r) (dispatch_cmd self cmd).
Proof.
  unfold dispatch_cmd. destruct (nth_error cmd 1) as [cmd_id|]; [|reflexivity].
  rewrite dict_get_in_cmd_dict.
  destruct (cmd_id =? CMD_KNOB_EVENT); [apply knob_event_rdata|].
  destruct (cmd_id =? CMD_BUTTON_EVENT); [apply button_event_rdata|].
  destruct (cmd_id =? CMD_BUZZER_EVENT); [apply buzzer_event_rdata|].
  reflexivity.
Qed.

Lemma set_rdata_same (self : VinDisplay) : set_rdata self (rdata self) = self.
Proof. now destruct self. Qed.

Lemma dispatch_cmd_keeps_rdata (self self' : VinDisplay) (cmd : list Z) :
  dispatch_cmd self cmd = Ok self' -> rdata self' = rdata self.
Proof.
  intros H. pose proof (dispatch_cmd_rdata self (rdata self) cmd) as Q.
  rewrite set_rdata_same, H in Q. simpl in Q. now inversion Q.
Qed.

Lemma dispatch_fold_ok (q : list (list Z)) (self self' : VinDisplay) :
  fold_left dispatch_next q (Ok self) = Ok self' ->
  in_commands self' = in_commands self /\ rdata self' = rdata self.
Proof.
  revert self. induction q as [|cmd q IH]; intros self H; simpl in H.
  - inversion H. now split.
  - destruct (dispatch_cmd self cmd) as [s1|e|] eqn:E.
    + destruct (IH _ H) as [A B].
      rewrite A, B, (dispatch_cmd_frame _ _ _ E), (dispatch_cmd_keeps_rdata _ _ _ E).
      now split.
    + rewrite dispatch_next_raise in H. discriminate.
    + rewrite dispatch_next_fuel in H. discriminate.
Qed.

Lemma dispatch_in_commands_ok (self self' : VinDisplay) :
  dispatch_in_commands self = Ok self' ->
  in_commands self' = [] /\ rdata self' = rdata self.
Proof.
  rewrite dispatch_in_commands_fold. intros H.
  apply dispatch_fold_ok in H. exact H.
Qed.

(** The loop of the dispatcher never reaches the bound of its model. *)
Lemma dispatch_cmd_no_fuel (self : VinDisplay) (cmd : list Z) :
  dispatch_cmd self cmd <> OutOfFuel.
Proof.
  unfold dispatch_cmd. destruct (nth_error cmd 1) as [cmd_id|]; [|discriminate].
  rewrite dict_get_in_cmd_dict.
  destruct (cmd_id =? CMD_KNOB_EVENT).
  { destruct (Nat.eq_dec (length cmd) 7) as [E|E].
    - do 8 (destruct cmd as [|? cmd]; try (simpl in E; lia)).
      rewrite knob_event_run. discriminate.
    - rewrite knob_event_size by exact E. discriminate. }
  destruct (cmd_id =? CMD_BUTTON_EVENT).
  { destruct (Nat.eq_dec (length cmd) 6) as [E|E].
    - do 7 (destruct cmd as [|? cmd]; try (simpl in E; lia)).
      rewrite button_event_run. discriminate.
    - rewrite button_event_size by exact E. discriminate. }
  destruct (cmd_id =? CMD_BUZZER_EVENT).
  { unfold cmd_in_buzzer_event. destruct (unpack_BBBhB cmd) eqn:U; try discriminate.
    unfold unpack_BBBhB in U.
    do 7 (destruct cmd as [|? cmd]; try discriminate). }
  discriminate.
Qed.

Lemma dispatch_in_commands_returns (self : VinDisplay) :
  dispatch_in_commands self <> OutOfFuel.
Proof.
  rewrite dispatch_in_commands_fold.
  generalize (set_in_commands self []). generalize (in_commands self).
  intros q. induction q as [|cmd q IH]; intros s; simpl; [discriminate|].
  destruct (dispatch_cmd s cmd) as [s1|e|] eqn:E.
  - apply IH.
  - rewrite dispatch_next_raise. discriminate.
  - now apply dispatch_cmd_no_fuel in E.
Qed.

(** C9, as amended: the queue is handled front to back, one call of the
    handler selected by byte 1 of the frame (or one diagnostic) per frame,
    each on the object the previous one returned, until a handler raises;
    a frame whose command id is not registered only prints the diagnostic
    (knob and button state untouched) and the loop goes on with the rest of
    the queue; and when every queued frame has the size its handler
    unpacks, all of them are handled and the queue ends empty. *)
Theorem dispatch_fifo (self : VinDisplay) :
  dispatch_in_commands self
  = fold_left dispatch_next (in_commands self) (Ok (set_in_commands self [])) /\
  (forall (cmd : list Z) (cmd_id : Z) (rest : list (list Z)),
      nth_error cmd 1 = Some cmd_id -> ~ registered cmd_id ->
      dispatch_cmd self cmd = Ok (print self PrintCommandError) /\
      last_knob_pos (print self PrintCommandError) = last_knob_pos self /\
      last_btn_state (print self PrintCommandError) = last_btn_state self /\
      last_btn_time (print self PrintCommandError) = last_btn_time self /\
      dispatch_in_commands (set_in_commands self (cmd :: rest))
      = dispatch_in_commands (print (set_in_commands self rest) PrintCommandError)) /\
  (Forall unpackable (in_commands self) ->
   exists self',
     dispatch_in_commands self = Ok self' /\
     in_commands self' = [] /\ rdata self' = rdata self).
Proof.
  split; [apply dispatch_in_commands_fold|]. split.
  - intros cmd cmd_id rest Hid Hr.
    assert (U : forall s, dispatch_cmd s cmd = Ok (print s PrintCommandError)).
    { intros s. unfold dispatch_cmd. rewrite Hid.
      rewrite dict_get_unregistered; [reflexivity|..];
        intros E; apply Hr; unfold registered; tauto. }
    split; [apply U|]. repeat (split; [reflexivity|]).
    unfold dispatch_in_commands. cbn [in_commands set_in_commands length dispatch_loop].
    change (set_in_commands (set_in_commands self (cmd :: rest)) rest)
      with (set_in_commands self rest).
    rewrite U. reflexivity.
  - intros H. rewrite dispatch_in_commands_fold.
    destruct (dispatch_all_unpackable _ (set_in_commands self []) H eq_refl)
      as (s' & Hs & Hq).
    exists s'. split; [exact Hs|]. split; [exact Hq|].
    now destruct (dispatch_fold_ok _ _ _ Hs) as [_ B].
Qed.

Lemma dispatch_fifo_witness :
  (dispatch_cmd unknown_then_knob [5; 99; 223; 157; 126]
   = Ok (print unknown_then_knob PrintCommandError) /\
   last_knob_pos (print unknown_then_knob PrintCommandError)
   = last_knob_pos unknown_then_knob /\
   last_btn_state (print unknown_then_knob PrintCommandError)
   = last_btn_state unknown_then_knob /\
   last_btn_time (print unknown_then_knob PrintCommandError)
   = last_btn_time unknown_then_knob /\
   dispatch_in_commands
     (set_in_commands unknown_then_knob
        ([5; 99; 223; 157; 126] :: [[7; 12; 3; 0; 219; 203; 126]]))
   = dispatch_in_commands
       (print (set_in_commands unknown_then_knob [[7; 12; 3; 0; 219; 203; 126]])
          PrintCommandError)) /\
  (exists self',
      dispatch_in_commands unknown_then_knob = Ok self' /\
      in_commands self' = [] /\ rdata self' = rdata unknown_then_knob).
Proof.
  destruct (dispatch_fifo unknown_then_knob) as (_ & U & A). split.
  - apply (U [5; 99; 223; 157; 126] 99 [[7; 12; 3; 0; 219; 203; 126]]).
    + reflexivity.
    + unfold registered, CMD_KNOB_EVENT, CMD_BUTTON_EVENT, CMD_BUZZER_EVENT. lia.
  - apply A. repeat constructor.
    + exists 99. split; [reflexivity|].
      unfold CMD_KNOB_EVENT, CMD_BUTTON_EVENT, CMD_BUZZER_EVENT. split; lia.
    + exists 12. split; [reflexivity|].
      unfold CMD_KNOB_EVENT, CMD_BUTTON_EVENT, CMD_BUZZER_EVENT. split; [reflexivity|lia].
Defined.

(** C9 as stated fails: the five bytes [5, 12, 68, 108, 126] pass every
    test of the decoder and carry the registered command id 12, but the knob
    handler unpacks seven bytes and raises struct.error on them; the
    exception leaves [dispatch_in_commands], and the knob frame queued behind
    is never handled. *)
Lemma dispatch_fifo_counterexample :
  in_commands
    (parse_incoming_data
       (rdata_extend (init zero_clock)
          ([5; 12; 68; 108; 126] ++ [7; 12; 3; 0; 219; 203; 126])))
  = [[5; 12; 68; 108; 126]; [7; 12; 3; 0; 219; 203; 126]] /\
  dispatch_in_commands
    (set_in_commands (init zero_clock)
       [[5; 12; 68; 108; 126]; [7; 12; 3; 0; 219; 203; 126]])
  = Raise StructError /\
  read_process (init zero_clock)
    [[5; 12; 68; 108; 126] ++ [7; 12; 3; 0; 219; 203; 126]]
  = Raise StructError.
Proof. vm_compute. repeat split; reflexivity. Qed.

(** ** Partial delivery *)

Lemma decoded_nothing (self : VinDisplay) : decoded self ([], [], rdata self) = self.
Proof. destruct self. simpl. now rewrite !app_nil_r. Qed.

Lemma rdata_extend_nil (self : VinDisplay) : rdata_extend self [] = self.
Proof. unfold rdata_extend. rewrite app_nil_r. apply set_rdata_same. Qed.

Lemma parse_nothing (self : VinDisplay) :
  scan_all (rdata self) = ([], [], rdata self) -> parse_incoming_data self = self.
Proof.
  intros H. rewrite parse_incoming_data_scan, H. apply decoded_nothing.
Qed.

(** With nothing buffered and nothing queued, empty reads change nothing. *)
Lemma read_process_idle (chunks : list (list Z)) (self : VinDisplay) :
  rdata self = [] -> in_commands self = [] -> concat chunks = [] ->
  read_process self chunks = Ok self.
Proof.
  induction chunks as [|c chunks IH]; intros Hr Hq Hc; [reflexivity|].
  simpl in Hc. apply app_eq_nil in Hc. destruct Hc as [-> Hc].
  simpl. unfold read_process_iter. rewrite rdata_extend_nil.
  rewrite parse_nothing by (rewrite Hr; reflexivity).
  rewrite dispatch_in_commands_idle by exact Hq. simpl. now apply IH.
Qed.

Lemma bind_ok_idle (r : result VinDisplay) (k : VinDisplay -> result VinDisplay) :
  (forall s, r = Ok s -> k s = Ok s) -> bind r k = r.
Proof. destruct r; simpl; auto. Qed.

Lemma read_process_partial (chunks : list (list Z)) (self : VinDisplay) :
  in_commands self = [] ->
  valid_frame (rdata self ++ concat chunks) -> concat chunks <> [] ->
  read_process self chunks
  = dispatch_in_commands (queued self (rdata self ++ concat chunks)).
Proof.
  revert self. induction chunks as [|c chunks IH]; intros self Hq V Hc;
    [contradiction|].
  cbn [read_process concat] in *. unfold read_process_iter.
  destruct (list_eq_dec Z.eq_dec (concat chunks) []) as [E|E].
  - rewrite E, app_nil_r in *.
    assert (P : parse_incoming_data (rdata_extend self c)
                = queued self (rdata self ++ c)).
    { rewrite parse_incoming_data_scan. unfold rdata_extend. cbn [rdata set_rdata].
      replace (scan_all (rdata self ++ c)) with (scan_all ((rdata self ++ c) ++ []))
        by now rewrite app_nil_r.
      rewrite scan_all_valid, scan_all_nil by exact V.
      destruct self. simpl in *. subst. unfold queued, set_in_commands, set_rdata.
      simpl. now rewrite app_nil_r. }
    rewrite P. apply bind_ok_idle. intros s Hs.
    apply dispatch_in_commands_ok in Hs. destruct Hs as [A B].
    now apply read_process_idle.
  - rewrite app_assoc in V.
    assert (P : parse_incoming_data (rdata_extend self c) = rdata_extend self c).
    { apply parse_nothing. unfold rdata_extend. cbn [rdata set_rdata].
      now apply (scan_all_prefix _ (concat chunks)). }
    rewrite P, dispatch_in_commands_idle by exact Hq. cbn [bind].
    rewrite IH; [|exact Hq|exact V|exact E].
    unfold rdata_extend. cbn [rdata set_rdata]. now rewrite app_assoc.
Qed.

Lemma concat_singletons (l : list Z) : concat (map (fun b => [b]) l) = l.
Proof. induction l as [|b l IH]; simpl; [reflexivity|now rewrite IH]. Qed.

(** C6: from an empty buffer, the bytes of a valid frame split in any way
    over append-then-parse cycles (one byte per cycle included) leave the
    decoder exactly where one append of the whole frame and one parse leave
    it: that one frame queued and the buffer empty; and the reader loop,
    which dispatches after each parse, ends with the same outcome either way. *)
Theorem partial_delivery (self : VinDisplay) (frame chunk : list Z)
  (chunks : list (list Z)) :
  rdata self = [] -> valid_frame frame -> concat (chunk :: chunks) = frame ->
  feed self (chunk :: chunks) = feed self [frame] /\
  feed self (map (fun b => [b]) frame) = feed self [frame] /\
  feed self [frame] = set_in_commands self (in_commands self ++ [frame]) /\
  (in_commands self = [] ->
   read_process self (chunk :: chunks) = read_process self [frame] /\
   read_process self (map (fun b => [b]) frame) = read_process self [frame]).
Proof.
  intros Hr V Hc.
  assert (Hf : frame <> []).
  { intros ->. apply valid_frame_checks in V. unfold len, MESSAGE_MIN in V.
    simpl in V. lia. }
  assert (W : feed self [frame] = parse_incoming_data (rdata_extend self frame)).
  { rewrite feed_concat. simpl. now rewrite app_nil_r. }
  assert (B : exists b bs, map (fun b => [b]) frame = [b] :: bs).
  { destruct frame as [|b frame]; [contradiction|]. simpl. eauto. }
  destruct B as (b & bs & B).
  split; [|split; [|split]].
  - now rewrite W, feed_concat, Hc.
  - rewrite W, B, feed_concat, <- B. now rewrite concat_singletons.
  - rewrite W. now apply parse_one_valid.
  - intros Hq.
    assert (T : forall cs, concat cs = frame ->
                           read_process self cs
                           = dispatch_in_commands (queued self frame)).
    { intros cs E. rewrite read_process_partial; rewrite ?Hr; simpl;
        rewrite ?E; auto. }
    rewrite (T (chunk :: chunks) Hc).
    rewrite (T [frame]) by (simpl; apply app_nil_r).
    rewrite (T (map (fun b => [b]) frame)) by apply concat_singletons.
    now split.
Qed.

Lemma partial_delivery_witness :
  feed (init zero_clock) ([7; 12; 3] :: [[]; [0; 219]; [203; 126]])
  = feed (init zero_clock) [[7; 12; 3; 0; 219; 203; 126]] /\
  feed (init zero_clock) (map (fun b => [b]) [7; 12; 3; 0; 219; 203; 126])
  = feed (init zero_clock) [[7; 12; 3; 0; 219; 203; 126]] /\
  feed (init zero_clock) [[7; 12; 3; 0; 219; 203; 126]]
  = set_in_commands (init zero_clock)
      (in_commands (init zero_clock) ++ [[7; 12; 3; 0; 219; 203; 126]]) /\
  (in_commands (init zero_clock) = [] ->
   read_process (init zero_clock) ([7; 12; 3] :: [[]; [0; 219]; [203; 126]])
   = read_process (init zero_clock) [[7; 12; 3; 0; 219; 203; 126]] /\
   read_process (init zero_clock) (map (fun b => [b]) [7; 12; 3; 0; 219; 203; 126])
   = read_process (init zero_clock) [[7; 12; 3; 0; 219; 203; 126]]).
Proof.
  apply (partial_delivery (init zero_clock) [7; 12; 3; 0; 219; 203; 126]
           [7; 12; 3] [[]; [0; 219]; [203; 126]]); reflexivity.
Defined.

(** ** Further properties of the loops and of the display-text builder *)

(** X1: the parse loop ends: fuel beyond the length of the buffer changes
    nothing, and after [parse_incoming_data] the loop condition is false or
    the [break] is reached. *)
Theorem parse_incoming_data_terminates (self : VinDisplay) (n : nat) :
  parse_loop (length (rdata self) + n) self = parse_incoming_data self /\
  parse_iter (parse_incoming_data self) = None.
Proof.
  split; [apply parse_loop_fuel; lia|apply parse_incoming_data_exits].
Qed.

(** X2: the dispatch loop ends: [dispatch_in_commands] returns with the queue
    empty, or a handler has raised. *)
Theorem dispatch_in_commands_terminates (self : VinDisplay) :
  (exists self', dispatch_in_commands self = Ok self' /\ in_commands self' = []) \/
  (exists e, dispatch_in_commands self = Raise e).
Proof.
  destruct (dispatch_in_commands self) as [s|e|] eqn:E.
  - left. exists s. split; [reflexivity|].
    now destruct (dispatch_in_commands_ok _ _ E).
  - right. now exists e.
  - now apply dispatch_in_commands_returns in E.
Qed.

(** X3: whatever the incoming bytes are, splitting them over several
    append-then-parse cycles queues the same frames, prints the same lines
    and leaves the same bytes buffered as one append and one parse. *)
Theorem feed_any_split (self : VinDisplay) (chunk : list Z) (chunks : list (list Z)) :
  feed self (chunk :: chunks) = feed self [concat (chunk :: chunks)].
Proof.
  rewrite !feed_concat. cbn [concat]. now rewrite !app_nil_r.
Qed.

(** X4: [cmd_display_text] writes its frame exactly for texts of at most 249
    bytes: a longer text makes the length byte, or the size byte of the
    payload, exceed 255, and the call raises. *)
Theorem display_text_written (self : VinDisplay) (text : list Z) :
  Forall is_byte text ->
  (len text <= 249 ->
   cmd_display_text self text
   = Ok (dev_write self (spec_frame ([CMD_DISPLAY_TEXT; len text] ++ text)))) /\
  (249 < len text -> exists e, cmd_display_text self text = Raise e).
Proof.
  intros Hb. pose proof (len_nonneg text) as L0.
  assert (M : len text <= 255 ->
              display_text_msg self text
              = Ok ([CMD_DISPLAY_TEXT; len text] ++ text)).
  { intros H. unfold display_text_msg. cbv zeta.
    change (pack_B CMD_DISPLAY_TEXT) with (Ok (A := list Z) [CMD_DISPLAY_TEXT]).
    cbn [bind]. unfold pack_B.
    replace ((0 <=? len text) && (len text <=? 255)) with true by lia.
    cbn [bind]. now rewrite pack_s_exact. }
  assert (M' : 255 < len text -> display_text_msg self text = Raise StructError).
  { intros H. unfold display_text_msg. cbv zeta.
    change (pack_B CMD_DISPLAY_TEXT) with (Ok (A := list Z) [CMD_DISPLAY_TEXT]).
    cbn [bind]. unfold pack_B.
    replace ((0 <=? len text) && (len text <=? 255)) with false by lia.
    reflexivity. }
  assert (Hl : len ([CMD_DISPLAY_TEXT; len text] ++ text) = len text + 2).
  { unfold len. simpl length. lia. }
  unfold cmd_display_text, send_cmd. split; intros H.
  - rewrite M by lia. cbn [bind]. rewrite frame_of_bytes; [reflexivity| |].
    + repeat constructor; try (unfold CMD_DISPLAY_TEXT; lia); try lia.
      exact Hb.
    + rewrite Hl. unfold is_byte, MESSAGE_TRAILER_SIZE. lia.
  - destruct (Z.le_gt_cases (len text) 255) as [C|C].
    + rewrite M by exact C. cbn [bind]. unfold frame_of.
      rewrite Hl. unfold py_bytes at 1.
      replace (forallb is_byteb [len text + 2 + MESSAGE_TRAILER_SIZE + 1])
        with false; [cbn [bind]; eauto|].
      unfold MESSAGE_TRAILER_SIZE, is_byteb. cbn [forallb]. lia.
    + rewrite M' by exact C. cbn [bind]. eauto.
Qed.

Lemma display_text_written_witness :
  (len [72; 105] <= 249 ->
   cmd_display_text (init zero_clock) [72; 105]
   = Ok (dev_write (init zero_clock)
           (spec_frame ([CMD_DISPLAY_TEXT; len [72; 105]] ++ [72; 105])))) /\
  (249 < len [72; 105] ->
   exists e, cmd_display_text (init zero_clock) [72; 105] = Raise e).
Proof.
  apply (display_text_written (init zero_clock) [72; 105]).
  repeat constructor; unfold is_byte; lia.
Defined.

(** ** What the decoder queues and what it leaves *)

Lemma emit_valid (rd : list Z) (k : Z) :
  head_verdict rd = Emit k -> valid_frame (firstn (Z.to_nat k) rd).
Proof.
  intros V. destruct (emit_length _ _ V) as [L1 L2].
  apply head_verdict_emit in V.
  destruct V as (H1 & H2 & H3 & H4 & H5 & H6 & H7).
  rewrite <- (firstn_skipn (Z.to_nat k) rd) in H2, H6, H7.
  set (f := firstn (Z.to_nat k) rd) in *.
  assert (Lf : len f = k).
  { unfold len, f. rewrite length_firstn. unfold MESSAGE_MIN in H4. lia. }
  unfold MESSAGE_MIN in H4.
  rewrite item_app in H2 by lia. rewrite item_app in H6 by lia.
  rewrite !slice_app in H7 by lia.
  apply valid_frame_checks. rewrite Lf. unfold MESSAGE_MIN.
  repeat split; auto; lia.
Qed.

Lemma scan_valid (n : nat) (rd : list Z) :
  Forall valid_frame (fst (fst (scan n rd))) /\
  Forall (eq PrintWrongCrc) (snd (fst (scan n rd))).
Proof.
  revert rd. induction n as [|n IH]; intros rd; simpl; [now split|].
  destruct (head_verdict rd) as [|c| |k] eqn:V; simpl; try now split.
  - destruct (IH (tl rd)) as [A B].
    destruct (scan n (tl rd)) as [[frames out] rest]. simpl in *.
    split; [exact A|]. destruct c; [constructor; auto|exact B].
  - destruct (IH (skipn (Z.to_nat k) rd)) as [A B].
    destruct (scan n (skipn (Z.to_nat k) rd)) as [[frames out] rest]. simpl in *.
    split; [|exact B]. constructor; [now apply emit_valid|exact A].
Qed.

Lemma scan_rest (n : nat) (rd : list Z) :
  (exists k : nat, snd (scan n rd) = skipn k rd) /\
  (length (snd (scan n rd)) + length (concat (fst (fst (scan n rd))))
   <= length rd)%nat.
Proof.
  revert rd. induction n as [|n IH]; intros rd; simpl.
  - split; [now exists 0%nat|simpl; lia].
  - destruct (head_verdict rd) as [|c| |k] eqn:V; simpl;
      try (split; [now exists 0%nat|simpl; lia]).
    + destruct (drop_length _ _ V) as [L1 L2].
      destruct (IH (tl rd)) as [[j A] B].
      destruct (scan n (tl rd)) as [[frames out] rest]. simpl in *.
      split; [|lia]. exists (S j). destruct rd; [simpl in L1; lia|exact A].
    + destruct (emit_length _ _ V) as [L1 L2].
      destruct (IH (skipn (Z.to_nat k) rd)) as [[j A] B].
      destruct (scan n (skipn (Z.to_nat k) rd)) as [[frames out] rest].
      simpl in *. split.
      * exists (j + Z.to_nat k)%nat. now rewrite <- skipn_skipn.
      * rewrite length_app, length_firstn. lia.
Qed.

Lemma exit_verdict_short (rd : list Z) :
  head_verdict rd = LoopExit \/ head_verdict rd = Wait -> len rd < MESSAGE_MAX.
Proof.
  intros [H|H].
  - apply head_verdict_exit in H. unfold MESSAGE_MIN, MESSAGE_MAX in *. lia.
  - apply head_verdict_wait in H. lia.
Qed.

(** X5: [parse_incoming_data] only appends to the queue, and only frames
    that pass every test of the decoder; it prints nothing but 'wrong CRC!'
    lines, and it leaves the knob and button state, the device, the key
    callback and the clock alone. *)
Theorem parse_queues_valid_frames (self : VinDisplay) :
  exists (frames : list (list Z)) (out : list out_line),
    in_commands (parse_incoming_data self) = in_commands self ++ frames /\
    Forall valid_frame frames /\
    stdout (parse_incoming_data self) = stdout self ++ out /\
    Forall (eq PrintWrongCrc) out /\
    last_knob_pos (parse_incoming_data self) = last_knob_pos self /\
    last_btn_state (parse_incoming_data self) = last_btn_state self /\
    last_btn_time (parse_incoming_data self) = last_btn_time self /\
    dev_out (parse_incoming_data self) = dev_out self /\
    key_log (parse_incoming_data self) = key_log self /\
    ticks (parse_incoming_data self) = ticks self.
Proof.
  rewrite parse_incoming_data_scan. unfold scan_all.
  destruct (scan_valid (length (rdata self)) (rdata self)) as [A B].
  destruct (scan (length (rdata self)) (rdata self)) as [[frames out] rest].
  exists frames, out. simpl in *. repeat split; auto.
Qed.

(** X6: after [parse_incoming_data] the buffer holds fewer than MESSAGE_MAX
    bytes, whatever it held before; what it holds is the tail of what it
    held, and no byte is both queued in a frame and left in the buffer. *)
Theorem parse_leaves_short_tail (self : VinDisplay) :
  len (rdata (parse_incoming_data self)) < MESSAGE_MAX /\
  (exists k : nat, rdata (parse_incoming_data self) = skipn k (rdata self)) /\
  (exists frames : list (list Z),
      in_commands (parse_incoming_data self) = in_commands self ++ frames /\
      len (rdata (parse_incoming_data self)) + len (concat frames)
      <= len (rdata self)).
Proof.
  rewrite parse_incoming_data_scan, rdata_decoded, in_commands_decoded.
  unfold scan_all.
  pose proof (scan_exits _ _ (le_n (length (rdata self)))) as E.
  destruct (scan_rest (length (rdata self)) (rdata self)) as [S1 S2].
  split; [now apply exit_verdict_short|]. split; [exact S1|].
  eexists. split; [reflexivity|]. unfold len. lia.
Qed.

(** ** Streams of frames *)

Lemma valid_frame_len (f : list Z) : valid_frame f -> MESSAGE_MIN <= len f.
Proof. intros V. apply valid_frame_checks in V. tauto. Qed.

Lemma scan_all_sync_run (k : nat) (f x : list Z) :
  valid_frame f ->
  scan_all (repeat MESSAGE_SYNC k ++ f ++ x) = scan_all (f ++ x).
Proof.
  intros V. pose proof (valid_frame_len _ V) as L.
  induction k as [|k IH]; [reflexivity|].
  cbn [repeat app]. rewrite scan_all_step.
  rewrite head_verdict_garbage.
  - cbn [tl]. rewrite IH. now destruct (scan_all (f ++ x)) as [[frames out] rest].
  - pose proof (len_nonneg (repeat MESSAGE_SYNC k)).
    pose proof (len_nonneg x).
    change (MESSAGE_SYNC :: repeat MESSAGE_SYNC k ++ f ++ x)
      with ([MESSAGE_SYNC] ++ repeat MESSAGE_SYNC k ++ f ++ x).
    rewrite !len_app. change (len [MESSAGE_SYNC]) with 1. lia.
  - now left.
Qed.

Lemma scan_all_stream (items : list (nat * list Z)) (x : list Z) :
  Forall (fun it => valid_frame (snd it)) items ->
  scan_all (stream items ++ x)
  = let '(frames, out, rest) := scan_all x in (map snd items ++ frames, out, rest).
Proof.
  intros H. induction H as [|[k f] items Hf _ IH].
  - simpl. now destruct (scan_all x) as [[frames out] rest].
  - unfold stream in *. cbn [map concat fst snd] in *.
    rewrite <- !app_assoc. rewrite scan_all_sync_run by exact Hf.
    rewrite scan_all_valid by exact Hf. rewrite IH.
    now destruct (scan_all x) as [[frames out] rest].
Qed.

Lemma parse_stream (self : VinDisplay) (items : list (nat * list Z)) :
  rdata self = [] -> Forall (fun it => valid_frame (snd it)) items ->
  parse_incoming_data (rdata_extend self (stream items))
  = set_in_commands self (in_commands self ++ map snd items).
Proof.
  intros Hr V. rewrite parse_incoming_data_scan. unfold rdata_extend.
  cbn [rdata set_rdata]. rewrite Hr. cbn [app].
  replace (scan_all (stream items)) with (scan_all (stream items ++ []))
    by now rewrite app_nil_r.
  rewrite scan_all_stream, scan_all_nil by exact V.
  destruct self. simpl in *. subst. unfold set_in_commands. simpl.
  now rewrite !app_nil_r.
Qed.

(** X7: valid frames sent back to back, each after any number of sync
    bytes, are queued in the order sent, each exactly once; the buffer ends
    empty and nothing is printed. *)
Theorem stream_of_frames_decodes (self : VinDisplay) (items : list (nat * list Z)) :
  rdata self = [] -> Forall (fun it => valid_frame (snd it)) items ->
  parse_incoming_data (rdata_extend self (stream items))
  = set_in_commands self (in_commands self ++ map snd items) /\
  rdata (parse_incoming_data (rdata_extend self (stream items))) = [] /\
  stdout (parse_incoming_data (rdata_extend self (stream items))) = stdout self.
Proof.
  intros Hr V. rewrite parse_stream by assumption.
  split; [reflexivity|]. split; [exact Hr|reflexivity].
Qed.

Lemma stream_of_frames_decodes_witness :
  parse_incoming_data
    (rdata_extend (init zero_clock)
       (stream [(2%nat, [7; 12; 3; 0; 219; 203; 126]);
                (0%nat, [6; 13; 1; 78; 27; 126])]))
  = set_in_commands (init zero_clock)
      (in_commands (init zero_clock)
       ++ map snd [(2%nat, [7; 12; 3; 0; 219; 203; 126]);
                   (0%nat, [6; 13; 1; 78; 27; 126])]) /\
  rdata
    (parse_incoming_data
       (rdata_extend (init zero_clock)
          (stream [(2%nat, [7; 12; 3; 0; 219; 203; 126]);
                   (0%nat, [6; 13; 1; 78; 27; 126])]))) = [] /\
  stdout
    (parse_incoming_data
       (rdata_extend (init zero_clock)
          (stream [(2%nat, [7; 12; 3; 0; 219; 203; 126]);
                   (0%nat, [6; 13; 1; 78; 27; 126])])))
  = stdout (init zero_clock).
Proof.
  apply (stream_of_frames_decodes (init zero_clock)
           [(2%nat, [7; 12; 3; 0; 219; 203; 126]);
            (0%nat, [6; 13; 1; 78; 27; 126])]).
  - reflexivity.
  - repeat constructor.
Defined.







(** ** The CRC tells single bytes apart *)

Lemma all_bytes_forall (p : Z -> bool) (d : Z) :
  forallb p all_bytes = true -> is_byte d -> p d = true.
Proof.
  intros H Hd. rewrite forallb_forall in H. apply H. unfold all_bytes.
  apply in_map_iff. exists (Z.to_nat d). unfold is_byte in Hd.
  split; [lia|]. apply in_seq. lia.
Qed.

Lemma crc_update_split (crc data : Z) :
  crc_update crc data = crc_mix (crc_data (crc mod 256) data) (crc / 256).
Proof.
  unfold crc_update, crc_mix, crc_data. cbv zeta.
  change 255 with (Z.ones 8). rewrite Z.land_ones by lia.
  rewrite Z.shiftr_div_pow2 by lia. reflexivity.
Qed.

Lemma crc_mix_back :
  forallb (fun d =>
             forallb (fun hi =>
                        (crc_unmix_d (crc_mix d hi) =? d)
                        && (crc_unmix_hi (crc_mix d hi) =? hi))
                     all_bytes)
          all_bytes = true.
Proof. vm_compute. reflexivity. Qed.

Lemma crc_data_back :
  forallb (fun lo =>
             forallb (fun data =>
                        (crc_undata lo (crc_data lo data) =? data)
                        && (crc_undata data (crc_data lo data) =? lo)
                        && is_byteb (crc_data lo data))
                     all_bytes)
          all_bytes = true.
Proof. vm_compute. reflexivity. Qed.

Lemma crc_mix_inv (d hi : Z) :
  is_byte d -> is_byte hi ->
  crc_unmix_d (crc_mix d hi) = d /\ crc_unmix_hi (crc_mix d hi) = hi.
Proof.
  intros Hd Hh.
  pose proof (all_bytes_forall _ d crc_mix_back Hd) as H. cbv beta in H.
  pose proof (all_bytes_forall _ hi H Hh) as H'. cbv beta in H'.
  apply andb_true_iff in H'. destruct H' as [A B].
  apply Z.eqb_eq in A, B. now split.
Qed.

Lemma crc_data_inv (lo data : Z) :
  is_byte lo -> is_byte data ->
  crc_undata lo (crc_data lo data) = data /\
  crc_undata data (crc_data lo data) = lo /\
  is_byte (crc_data lo data).
Proof.
  intros Hl Hd.
  pose proof (all_bytes_forall _ lo crc_data_back Hl) as H. cbv beta in H.
  pose proof (all_bytes_forall _ data H Hd) as H'. cbv beta in H'.
  apply andb_true_iff in H'. destruct H' as [H' C].
  apply andb_true_iff in H'. destruct H' as [A B].
  apply Z.eqb_eq in A, B. apply is_byteb_spec in C.
  split; [exact A|split; [exact B|exact C]].
Qed.

Lemma fits_16_bytes (crc : Z) :
  fits 16 crc -> is_byte (crc mod 256) /\ is_byte (crc / 256).
Proof.
  unfold fits, is_byte. change (2 ^ 16) with 65536. intros H.
  pose proof (Z.mod_pos_bound crc 256 ltac:(lia)).
  pose proof (Z.div_mod crc 256 ltac:(lia)). split; [lia|].
  split; [apply Z.div_pos; lia|apply Z.div_lt_upper_bound; lia].
Qed.

(** For a given accumulator, different bytes give different accumulators. *)
Lemma crc_update_inj_data (crc a b : Z) :
  fits 16 crc -> is_byte a -> is_byte b ->
  crc_update crc a = crc_update crc b -> a = b.
Proof.
  intros Hc Ha Hb E. rewrite !crc_update_split in E.
  destruct (fits_16_bytes _ Hc) as [Hl Hh].
  destruct (crc_data_inv _ _ Hl Ha) as (A1 & _ & A3).
  destruct (crc_data_inv _ _ Hl Hb) as (B1 & _ & B3).
  destruct (crc_mix_inv _ _ A3 Hh) as [A4 _].
  destruct (crc_mix_inv _ _ B3 Hh) as [B4 _].
  rewrite E in A4. rewrite A4 in B4. rewrite <- A1, <- B1. now rewrite B4.
Qed.

(** For a given byte, different accumulators give different accumulators. *)
Lemma crc_update_inj_crc (c1 c2 d : Z) :
  fits 16 c1 -> fits 16 c2 -> is_byte d ->
  crc_update c1 d = crc_update c2 d -> c1 = c2.
Proof.
  intros H1 H2 Hd E. rewrite !crc_update_split in E.
  destruct (fits_16_bytes _ H1) as [L1 U1].
  destruct (fits_16_bytes _ H2) as [L2 U2].
  destruct (crc_data_inv _ _ L1 Hd) as (_ & A2 & A3).
  destruct (crc_data_inv _ _ L2 Hd) as (_ & B2 & B3).
  destruct (crc_mix_inv _ _ A3 U1) as [A4 A5].
  destruct (crc_mix_inv _ _ B3 U2) as [B4 B5].
  rewrite E in A4, A5.
  assert (D : crc_data (c1 mod 256) d = crc_data (c2 mod 256) d) by congruence.
  assert (U : c1 / 256 = c2 / 256) by congruence.
  assert (L : c1 mod 256 = c2 mod 256) by (rewrite <- A2, <- B2; now rewrite D).
  rewrite (Z.div_mod c1 256), (Z.div_mod c2 256) by lia. now rewrite U, L.
Qed.

Lemma fold_crc_update_inj (post : list Z) (c1 c2 : Z) :
  Forall is_byte post -> fits 16 c1 -> fits 16 c2 ->
  fold_left crc_update post c1 = fold_left crc_update post c2 -> c1 = c2.
Proof.
  intros Hp. revert c1 c2.
  induction Hp as [|d post Hd _ IH]; intros c1 c2 H1 H2 E; [exact E|].
  simpl in E. apply IH in E; try now apply crc_update_fits.
  now apply (crc_update_inj_crc c1 c2 d).
Qed.

Lemma crc_acc_single_byte (pre post : list Z) (a b : Z) :
  Forall is_byte pre -> Forall is_byte post -> is_byte a -> is_byte b ->
  crc_acc (pre ++ a :: post) = crc_acc (pre ++ b :: post) -> a = b.
Proof.
  intros Hpre Hpost Ha Hb E. unfold crc_acc in E.
  rewrite !fold_left_app in E. cbn [fold_left] in E.
  pose proof (fold_crc_update_fits pre _ Hpre fits_16_init) as Hc.
  apply fold_crc_update_inj in E; try assumption;
    try (now apply crc_update_fits).
  now apply (crc_update_inj_data _ a b Hc).
Qed.

Lemma crc16_ccitt_acc (x y : list Z) :
  Forall is_byte x -> Forall is_byte y ->
  crc16_ccitt x = crc16_ccitt y -> crc_acc x = crc_acc y.
Proof.
  intros Hx Hy E. unfold crc16_ccitt in E. cbv zeta in E.
  inversion E as [[E1 E2]].
  rewrite !Z.shiftr_div_pow2 in E1 by lia. change (2 ^ 8) with 256 in E1.
  change 255 with (Z.ones 8) in E2. rewrite !Z.land_ones in E2 by lia.
  change (2 ^ 8) with 256 in E2.
  rewrite (Z.div_mod (crc_acc x) 256), (Z.div_mod (crc_acc y) 256) by lia.
  now rewrite E1, E2.
Qed.

Lemma crc16_ccitt_single_byte (pre post : list Z) (a b : Z) :
  Forall is_byte pre -> Forall is_byte post -> is_byte a -> is_byte b ->
  crc16_ccitt (pre ++ a :: post) = crc16_ccitt (pre ++ b :: post) -> a = b.
Proof.
  intros Hpre Hpost Ha Hb E.
  apply (crc_acc_single_byte pre post a b); try assumption.
  apply crc16_ccitt_acc; try assumption;
    apply Forall_app; split; try assumption; now constructor.
Qed.

(** X9: two byte strings that differ in exactly one byte never have the
    same CRC: the comparison the decoder makes between their two
    [crc16_ccitt] results is false. *)
Theorem crc_detects_single_byte (pre post : list Z) (a b : Z) :
  Forall is_byte pre -> Forall is_byte post -> is_byte a -> is_byte b ->
  a <> b ->
  list_eqb (crc16_ccitt (pre ++ a :: post)) (crc16_ccitt (pre ++ b :: post))
  = false.
Proof.
  intros Hpre Hpost Ha Hb Hab. unfold list_eqb.
  destruct (list_eq_dec Z.eq_dec _ _) as [E|E]; [|reflexivity].
  exfalso. apply Hab. now apply (crc16_ccitt_single_byte pre post a b).
Qed.

Lemma crc_detects_single_byte_witness :
  list_eqb (crc16_ccitt ([7; 12] ++ 36 :: [0])) (crc16_ccitt ([7; 12] ++ 100 :: [0]))
  = false.
Proof.
  apply (crc_detects_single_byte [7; 12] [0] 36 100);
    repeat constructor; unfold is_byte; lia.
Defined.

(** Slices of a byte string around one of its bytes. *)
Lemma firstn_past {A : Type} (pre post : list A) (x : A) (n : nat) :
  (length pre < n)%nat ->
  firstn n (pre ++ x :: post) = pre ++ x :: firstn (n - length pre - 1) post.
Proof.
  intros H. rewrite firstn_app, firstn_all2 by lia.
  destruct (n - length pre)%nat as [|k] eqn:E; [lia|].
  simpl. now rewrite Nat.sub_0_r.
Qed.

Lemma skipn_past {A : Type} (pre post : list A) (x : A) (n : nat) :
  (length pre < n)%nat ->
  skipn n (pre ++ x :: post) = skipn (n - length pre - 1) post.
Proof.
  intros H. rewrite skipn_app, skipn_all2 by lia.
  destruct (n - length pre)%nat as [|k] eqn:E; [lia|].
  simpl. now rewrite Nat.sub_0_r.
Qed.

Lemma slice_past (pre post : list Z) (x : Z) (lo hi : Z) :
  len pre < lo -> lo <= hi ->
  slice (pre ++ x :: post) lo hi
  = skipn (Z.to_nat lo - length pre - 1) (firstn (Z.to_nat hi - length pre - 1) post).
Proof.
  intros H1 H2. unfold slice, len in *.
  rewrite firstn_past by lia.
  now rewrite skipn_past by lia.
Qed.

Lemma slice_holds (pre post : list Z) (x : Z) (lo hi : Z) :
  0 <= lo -> lo <= len pre -> len pre < hi ->
  nth (length pre - Z.to_nat lo) (slice (pre ++ x :: post) lo hi) 0 = x.
Proof.
  intros H0 H1 H2. unfold slice, len in *.
  rewrite nth_skipn, nth_firstn.
  replace (Z.to_nat lo + (length pre - Z.to_nat lo))%nat with (length pre) by lia.
  replace (length pre <? Z.to_nat hi)%nat with true
    by (symmetry; apply Nat.ltb_lt; lia).
  apply nth_middle.
Qed.

Lemma item_past (pre post : list Z) (x : Z) (i : Z) :
  len pre < i -> item (pre ++ x :: post) i = item post (i - len pre - 1).
Proof.
  intros H. unfold item, len in *.
  replace (Z.to_nat i) with (length pre + S (Z.to_nat (i - Z.of_nat (length pre) - 1)))%nat
    by lia.
  now rewrite app_nth2_plus.
Qed.

Lemma corrupted_verdict (pre post : list Z) (a b : Z) :
  valid_frame (pre ++ a :: post) -> Forall is_byte (pre ++ a :: post) ->
  is_byte b -> pre <> [] -> post <> [] -> a <> b ->
  head_verdict (pre ++ b :: post) = Drop true.
Proof.
  intros V Hf Hb Hpre Hpost Hab.
  apply Forall_app in Hf. destruct Hf as [Bpre Bf].
  inversion Bf as [|? ? Ha Bpost]; subst.
  apply valid_frame_checks in V.
  destruct V as (V1 & V2 & V3 & V4 & V5).
  assert (Lp : 0 < len pre) by (destruct pre; [contradiction|unfold len; simpl; lia]).
  assert (Lq : 0 < len post) by (destruct post; [contradiction|unfold len; simpl; lia]).
  assert (L : forall x, len (pre ++ x :: post) = len pre + 1 + len post).
  { intros x. unfold len. rewrite length_app. simpl. lia. }
  rewrite L in *. set (n := len pre + 1 + len post) in *.
  assert (I0 : forall x, item (pre ++ x :: post) 0 = item pre 0)
    by (intros x; apply item_app; lia).
  rewrite I0 in V1.
  apply crc_mismatch_verdict. unfold crc_mismatch.
  rewrite L, I0, V1. fold n.
  split; [lia|]. split; [exact V3|]. split; [exact V2|]. split; [lia|].
  split.
  - rewrite item_past in V4 |- * by lia. exact V4.
  - intros E. apply Hab.
    destruct (Z.lt_ge_cases (len pre) (n - 3)) as [C|C].
    + (* the changed byte is covered by the CRC *)
      rewrite !slice_from_0 in *.
      rewrite firstn_past in V5, E by (unfold len in *; lia).
      rewrite (slice_past pre post a) in V5 by lia.
      rewrite (slice_past pre post b) in E by lia.
      rewrite <- V5 in E. symmetry.
      apply (crc16_ccitt_single_byte pre _ b a) in E; auto.
      now apply Forall_firstn.
    + (* the changed byte is one of the two stored CRC bytes *)
      rewrite !(slice_app pre) in * by lia.
      rewrite V5 in E.
      pose proof (slice_holds pre post a (n - 3) (n - 1)
                    ltac:(unfold MESSAGE_MIN in V2; lia) C ltac:(lia)) as Na.
      pose proof (slice_holds pre post b (n - 3) (n - 1)
                    ltac:(unfold MESSAGE_MIN in V2; lia) C ltac:(lia)) as Nb.
      rewrite E in Na. congruence.
Qed.

(** X10: a valid frame in which one byte other than the first and the last
    has been replaced by another byte is not queued: the decoder finds the
    length byte and the terminator in place and the CRC wrong, prints
    'wrong CRC!' and drops one byte. *)
Theorem corrupted_frame_rejected (self : VinDisplay) (pre post : list Z) (a b : Z) :
  rdata self = pre ++ b :: post ->
  valid_frame (pre ++ a :: post) -> Forall is_byte (pre ++ a :: post) ->
  is_byte b -> pre <> [] -> post <> [] -> a <> b ->
  head_verdict (pre ++ b :: post) = Drop true /\
  parse_iter self
  = Some (print (set_rdata self (tl (rdata self))) PrintWrongCrc).
Proof.
  intros Hr V Hf Hb Hpre Hpost Hab.
  pose proof (corrupted_verdict _ _ _ _ V Hf Hb Hpre Hpost Hab) as D.
  split; [exact D|]. rewrite <- Hr in D.
  rewrite parse_iter_verdict, D. reflexivity.
Qed.

Lemma corrupted_frame_rejected_witness :
  head_verdict ([7; 12] ++ 100 :: [0; 181; 240; 126]) = Drop true /\
  parse_iter (rdata_extend (init zero_clock) [7; 12; 100; 0; 181; 240; 126])
  = Some (print
            (set_rdata (rdata_extend (init zero_clock) [7; 12; 100; 0; 181; 240; 126])
               (tl (rdata (rdata_extend (init zero_clock)
                             [7; 12; 100; 0; 181; 240; 126]))))
            PrintWrongCrc).
Proof.
  apply (corrupted_frame_rejected
           (rdata_extend (init zero_clock) [7; 12; 100; 0; 181; 240; 126])
           [7; 12] [0; 181; 240; 126] 36 100).
  - reflexivity.
  - reflexivity.
  - repeat constructor; unfold is_byte; lia.
  - unfold is_byte; lia.
  - discriminate.
  - discriminate.
  - lia.
Defined.

(** ** What the reader loop can raise, and what it keeps *)









(** X12: a buzzer event frame of six bytes changes nothing: the outcome of
    [dispatch_in_commands] is the same with the frame in the queue and with
    the frame taken out of it. *)
Theorem buzzer_event_has_no_effect (self : VinDisplay) (q1 q2 : list (list Z))
  (b0 b2 b3 b4 b5 : Z) :
  dispatch_in_commands
    (set_in_commands self (q1 ++ [b0; CMD_BUZZER_EVENT; b2; b3; b4; b5] :: q2))
  = dispatch_in_commands (set_in_commands self (q1 ++ q2)).
Proof.
  rewrite !dispatch_in_commands_fold. cbn [in_commands set_in_commands].
  change (set_in_commands (set_in_commands self _) [])
    with (set_in_commands self []).
  rewrite !fold_left_app. cbn [fold_left].
  destruct (fold_left dispatch_next q1 (Ok (set_in_commands self [])))
    as [s|e|]; reflexivity.
Qed.

(** ** The buzzer commands *)

Lemma buzzer_queue_msg_fields (self : VinDisplay) (freq duration : float)
  (payload : list Z) :
  buzzer_queue_msg self (freq, duration) = Ok payload ->
  exists n h,
    tone_ncycles freq duration = Ok n /\ tone_hperiod freq = Ok h /\
    1 <= n <= 4294967295 /\ 0 <= h <= 65535 /\
    payload = [CMD_BUZZER_QUEUE; 8;
               n mod 256; (n / 256) mod 256; (n / 65536) mod 256; n / 16777216;
               h mod 256; h / 256; h mod 256; h / 256].
Proof.
  unfold buzzer_queue_msg, tone_ncycles, tone_hperiod. cbv zeta. intros H.
  apply bind_ok in H. destruct H as (n & Hn & H). rewrite Hn.
  apply bind_ok in H. destruct H as (q & Hq & H). rewrite Hq.
  apply bind_ok in H. destruct H as (h & Hh & H). cbn [bind]. rewrite Hh.
  change (pack_B CMD_BUZZER_QUEUE) with (Ok (A := list Z) [CMD_BUZZER_QUEUE]) in H.
  change (pack_B 8) with (Ok (A := list Z) [8]) in H. cbn [bind] in H.
  unfold pack_L, pack_H in H.
  destruct ((0 <=? Z.max 1 n) && (Z.max 1 n <=? 4294967295)) eqn:E1;
    [|discriminate].
  cbn [bind] in H.
  destruct ((0 <=? h / 2) && (h / 2 <=? 65535)) eqn:E2; [|discriminate].
  cbn [bind] in H. inversion H.
  exists (Z.max 1 n), (h / 2). cbn [bind].
  repeat split; try reflexivity; lia.
Qed.

(** X13: when [cmd_buzzer_queue] returns, it has written one frame of 14
    bytes whose payload is the command id 15, the marker 8, a cycle count
    between 1 and 2^32 - 1 in four bytes and a half-period between 0 and
    65535 in two bytes, twice the same, least significant byte first; the
    two numbers decode back from those bytes. *)
Theorem buzzer_queue_fields (self self' : VinDisplay) (freq duration : float) :
  cmd_buzzer_queue self freq duration = Ok self' ->
  exists n h b0 b1 b2 b3 lo hi,
    tone_ncycles freq duration = Ok n /\ tone_hperiod freq = Ok h /\
    1 <= n <= 4294967295 /\ 0 <= h <= 65535 /\
    self' = dev_write self
              (spec_frame [CMD_BUZZER_QUEUE; 8; b0; b1; b2; b3; lo; hi; lo; hi]) /\
    len (spec_frame [CMD_BUZZER_QUEUE; 8; b0; b1; b2; b3; lo; hi; lo; hi]) = 14 /\
    Forall is_byte [b0; b1; b2; b3; lo; hi] /\
    uint32_le b0 b1 b2 b3 = n /\ uint16_le lo hi = h.
Proof.
  intros H. unfold cmd_buzzer_queue in H. apply send_cmd_ok in H.
  destruct H as (payload & Hp & _ & ->).
  destruct (buzzer_queue_msg_fields _ _ _ _ Hp) as (n & h & Hn & Hh & Rn & Rh & ->).
  exists n, h. do 6 eexists.
  split; [exact Hn|]. split; [exact Hh|]. split; [exact Rn|]. split; [exact Rh|].
  split; [reflexivity|]. split; [reflexivity|].
  pose proof (Z.div_mod n 256 ltac:(lia)).
  pose proof (Z.div_mod (n / 256) 256 ltac:(lia)).
  pose proof (Z.div_mod (n / 256 / 256) 256 ltac:(lia)).
  pose proof (Z.div_mod h 256 ltac:(lia)).
  pose proof (Z.mod_pos_bound n 256 ltac:(lia)).
  pose proof (Z.mod_pos_bound (n / 256) 256 ltac:(lia)).
  pose proof (Z.mod_pos_bound (n / 256 / 256) 256 ltac:(lia)).
  pose proof (Z.mod_pos_bound h 256 ltac:(lia)).
  unfold uint32_le, uint16_le, is_byte.
  change 65536 with (256 * 256). change 16777216 with (256 * 256 * 256).
  rewrite <- !Z.div_div by lia.
  split; [|lia]. repeat constructor; lia.
Qed.

Lemma buzzer_queue_fields_witness :
  exists n h b0 b1 b2 b3 lo hi,
    tone_ncycles 1000 0.05 = Ok n /\ tone_hperiod 1000 = Ok h /\
    1 <= n <= 4294967295 /\ 0 <= h <= 65535 /\
    dev_write (init zero_clock)
      [14; 15; 8; 50; 0; 0; 0; 244; 1; 244; 1; 216; 253; 126]
    = dev_write (init zero_clock)
        (spec_frame [CMD_BUZZER_QUEUE; 8; b0; b1; b2; b3; lo; hi; lo; hi]) /\
    len (spec_frame [CMD_BUZZER_QUEUE; 8; b0; b1; b2; b3; lo; hi; lo; hi]) = 14 /\
    Forall is_byte [b0; b1; b2; b3; lo; hi] /\
    uint32_le b0 b1 b2 b3 = n /\ uint16_le lo hi = h.
Proof.
  apply (buzzer_queue_fields (init zero_clock)
           (dev_write (init zero_clock)
              [14; 15; 8; 50; 0; 0; 0; 244; 1; 244; 1; 216; 253; 126])
           1000 0.05).
  vm_compute. reflexivity.
Defined.

(** X14: [cmd_buzzer_queue] with a frequency equal to zero (0.0 or -0.0)
    raises, whatever the duration: the division by the frequency, or before
    it the conversion of a product that is not finite, fails, and the frame
    is never built. *)
Theorem buzzer_queue_zero_frequency (self : VinDisplay) (freq duration : float) :
  PrimFloat.eqb freq 0 = true ->
  exists e, cmd_buzzer_queue self freq duration = Raise e.
Proof.
  intros H. unfold cmd_buzzer_queue, send_cmd, buzzer_queue_msg. cbv zeta.
  destruct (py_int (PrimFloat.mul freq duration)) as [n|e|] eqn:E; cbn [bind].
  - unfold py_truediv. rewrite H. cbn [bind]. eauto.
  - eauto.
  - unfold py_int in E. destruct (Prim2SF _) as [| | |? ? ?]; discriminate.
Qed.

Lemma buzzer_queue_zero_frequency_witness :
  exists e, cmd_buzzer_queue (init zero_clock) (-0)%float 0.05 = Raise e.
Proof.
  apply (buzzer_queue_zero_frequency (init zero_clock) (-0)%float 0.05).
  reflexivity.
Defined.

(** X15: when [beep] returns, it has written exactly two frames, the tone
    queue frame and then the play frame with the cancel flag set, and has
    changed nothing else; a decoder fed the two frames queues both, in that
    order. *)
Theorem beep_writes_queue_then_play (self self' dec : VinDisplay)
  (freq duration : float) :
  beep self freq duration = Ok self' -> rdata dec = [] ->
  exists payload,
    buzzer_queue_msg self (freq, duration) = Ok payload /\
    self' = dev_write (dev_write self (spec_frame payload))
              (spec_frame [CMD_BUZZER_PLAY; 1]) /\
    dev_out self'
    = dev_out self ++ [spec_frame payload; spec_frame [CMD_BUZZER_PLAY; 1]] /\
    parse_incoming_data
      (rdata_extend dec (spec_frame payload ++ spec_frame [CMD_BUZZER_PLAY; 1]))
    = set_in_commands dec
        (in_commands dec ++ [spec_frame payload; spec_frame [CMD_BUZZER_PLAY; 1]]).
Proof.
  intros H Hr. unfold beep in H. apply bind_ok in H.
  destruct H as (s1 & H1 & H2).
  unfold cmd_buzzer_queue in H1. apply send_cmd_ok in H1.
  destruct H1 as (payload & Hp & _ & ->).
  unfold cmd_buzzer_play in H2. apply send_cmd_ok in H2.
  destruct H2 as (p2 & Hp2 & _ & ->).
  rewrite buzzer_play_msg_ok in Hp2. inversion Hp2. subst p2.
  exists payload. split; [exact Hp|]. split; [reflexivity|].
  split; [simpl; now rewrite <- app_assoc|].
  destruct (buzzer_queue_msg_fields _ _ _ _ Hp) as (n & h & _ & _ & _ & _ & ->).
  change (spec_frame _ ++ spec_frame [CMD_BUZZER_PLAY; 1])
    with (stream [(0%nat, spec_frame [CMD_BUZZER_QUEUE; 8;
                     n mod 256; (n / 256) mod 256; (n / 65536) mod 256;
                     n / 16777216; h mod 256; h / 256; h mod 256; h / 256]);
                  (0%nat, spec_frame [CMD_BUZZER_PLAY; 1])]) at 1.
  rewrite parse_stream; [reflexivity|exact Hr|].
  repeat constructor; cbn [snd]; apply spec_frame_valid;
    unfold len, MESSAGE_MIN, MESSAGE_MAX, MESSAGE_SYNC; simpl; lia.
Qed.

Lemma beep_writes_queue_then_play_witness :
  exists payload,
    buzzer_queue_msg (init zero_clock) (400%float, 0.05%float) = Ok payload /\
    fold_left dev_write (tone_frames 400 0.05) (init zero_clock)
    = dev_write (dev_write (init zero_clock) (spec_frame payload))
        (spec_frame [CMD_BUZZER_PLAY; 1]) /\
    dev_out (fold_left dev_write (tone_frames 400 0.05) (init zero_clock))
    = dev_out (init zero_clock)
      ++ [spec_frame payload; spec_frame [CMD_BUZZER_PLAY; 1]] /\
    parse_incoming_data
      (rdata_extend (init zero_clock)
         (spec_frame payload ++ spec_frame [CMD_BUZZER_PLAY; 1]))
    = set_in_commands (init zero_clock)
        (in_commands (init zero_clock)
         ++ [spec_frame payload; spec_frame [CMD_BUZZER_PLAY; 1]]).
Proof.
  apply (beep_writes_queue_then_play (init zero_clock)
           (fold_left dev_write (tone_frames 400 0.05) (init zero_clock))
           (init zero_clock) 400 0.05).
  - vm_compute. reflexivity.
  - reflexivity.
Defined.

(** ** The display surface: writing, flushing *)

Lemma slice_bound_in (n i : Z) : 0 <= i <= n -> slice_bound n i = i.
Proof. unfold slice_bound. intros H. cbv zeta.
  destruct (i <? 0) eqn:A; [lia|]. rewrite A.
  destruct (n <? i) eqn:B; [lia|reflexivity].
Qed.

Lemma slice_bound_past (n i : Z) : 0 <= n <= i -> slice_bound n i = n.
Proof. unfold slice_bound. intros H. cbv zeta.
  destruct (i <? 0) eqn:A; [lia|]. rewrite A.
  destruct (n <? i) eqn:B; [reflexivity|lia].
Qed.

Lemma slice_bound_back (n i : Z) : - n <= i < 0 -> slice_bound n i = i + n.
Proof. unfold slice_bound. intros H. cbv zeta.
  destruct (i <? 0) eqn:A; [|lia].
  destruct (i + n <? 0) eqn:B; [lia|].
  destruct (n <? i + n) eqn:C; [lia|reflexivity].
Qed.

Lemma py_prefix_firstn (s : list Z) (n : Z) :
  0 <= n <= len s -> py_prefix s n = firstn (Z.to_nat n) s.
Proof. intros H. unfold py_prefix. now rewrite slice_bound_in. Qed.

Lemma write_row (row data : list Z) (x : Z) :
  len row = line_length -> 0 <= x ->
  let ln := Z.max 0 (Z.min (line_length - x) (len data)) in
  set_slice row x (x + ln) (py_prefix data ln) = overwrite row x data.
Proof.
  intros Hr Hx. pose proof (len_nonneg data) as Ld.
  unfold overwrite. cbv zeta.
  set (ln := Z.max 0 (Z.min (line_length - x) (len data))).
  assert (B : 0 <= ln <= len data /\ (x <= line_length -> x + ln <= line_length)
              /\ (line_length < x -> ln = 0))
    by (unfold ln, line_length; lia).
  clearbody ln. destruct B as (B1 & B2 & B3).
  rewrite py_prefix_firstn by lia.
  unfold set_slice. cbv zeta. rewrite Hr.
  destruct (Z.le_gt_cases x line_length) as [C|C].
  - rewrite (slice_bound_in _ x), (slice_bound_in _ (x + ln)) by lia.
    destruct (x + ln <? x) eqn:E; [lia|reflexivity].
  - rewrite (slice_bound_past _ x), (slice_bound_past _ (x + ln))
      by (unfold line_length in *; lia).
    rewrite Z.ltb_irrefl.
    assert (L : (length row <= Z.to_nat x)%nat) by (unfold len in Hr; lia).
    assert (L' : (length row <= Z.to_nat (x + ln))%nat) by (unfold len in Hr; lia).
    assert (L'' : (length row <= Z.to_nat line_length)%nat) by (unfold len in Hr; lia).
    rewrite (firstn_all2 row L), (firstn_all2 row L'').
    now rewrite (skipn_all2 row L'), (skipn_all2 row L'').
Qed.

Lemma len_overwrite (row data : list Z) (x : Z) :
  len row = line_length -> 0 <= x -> len (overwrite row x data) = line_length.
Proof.
  intros Hr Hx. pose proof (len_nonneg data) as Ld. unfold overwrite. cbv zeta.
  unfold len in *. rewrite !length_app, !length_firstn, length_skipn.
  unfold line_length in *. lia.
Qed.

Lemma overwrite_bytes (row data : list Z) (x : Z) :
  Forall is_byte row -> Forall is_byte data -> Forall is_byte (overwrite row x data).
Proof.
  intros Hr Hd. unfold overwrite. cbv zeta. rewrite !Forall_app.
  split; [now apply Forall_firstn|]. split; [now apply Forall_firstn|].
  rewrite <- (firstn_skipn (Z.to_nat (x + Z.max 0 (Z.min (line_length - x) (len data)))) row) in Hr.
  now apply Forall_app in Hr.
Qed.

Lemma item_overwrite (row data : list Z) (x j : Z) :
  len row = line_length -> 0 <= x -> 0 <= j < line_length ->
  item (overwrite row x data) j
  = if (x <=? j) && (j <? x + len data) then item data (j - x) else item row j.
Proof.
  intros Hr Hx Hj. pose proof (len_nonneg data) as Ld.
  unfold overwrite, item. cbv zeta.
  set (ln := Z.max 0 (Z.min (line_length - x) (len data))).
  unfold len in *.
  destruct (Z.lt_ge_cases j x) as [A|A].
  - replace ((x <=? j) && _) with false by lia.
    rewrite app_nth1 by (rewrite length_firstn; lia).
    rewrite nth_firstn.
    destruct (Nat.ltb_spec (Z.to_nat j) (Z.to_nat x)); [reflexivity|lia].
  - rewrite app_nth2 by (rewrite length_firstn; lia).
    rewrite length_firstn.
    replace (Z.to_nat j - Nat.min (Z.to_nat x) (length row))%nat
      with (Z.to_nat (j - x)) by lia.
    destruct (Z.lt_ge_cases j (x + Z.of_nat (length data))) as [B|B].
    + replace ((x <=? j) && _) with true by lia.
      rewrite app_nth1 by (rewrite length_firstn; unfold ln, len; lia).
      rewrite nth_firstn.
      destruct (Nat.ltb_spec (Z.to_nat (j - x)) (Z.to_nat ln));
        [reflexivity|unfold ln, len, line_length in *; lia].
    + replace ((x <=? j) && _) with false by lia.
      rewrite app_nth2 by (rewrite length_firstn; unfold ln, len; lia).
      rewrite length_firstn, nth_skipn. f_equal. unfold ln, len. lia.
Qed.

Lemma py_index_in (n y : Z) : 0 <= y < n -> py_index n y = Ok (Z.to_nat y).
Proof.
  intros H. unfold py_index. cbv zeta.
  destruct (y <? 0) eqn:A; [lia|].
  now replace ((0 <=? y) && (y <? n)) with true by lia.
Qed.

Lemma py_index_back (n y : Z) : - n <= y < 0 -> py_index n y = py_index n (y + n).
Proof.
  intros H. unfold py_index. cbv zeta.
  destruct (y <? 0) eqn:A; [|lia].
  destruct (y + n <? 0) eqn:B; [lia|reflexivity].
Qed.

Lemma py_index_out (n y : Z) :
  0 <= n -> y < - n \/ n <= y -> py_index n y = Raise IndexError.
Proof.
  intros Hn H. unfold py_index. cbv zeta.
  destruct (y <? 0) eqn:A.
  - now replace ((0 <=? y + n) && (y + n <? n)) with false by lia.
  - now replace ((0 <=? y) && (y <? n)) with false by lia.
Qed.

Lemma well_shaped_rows (b : list (list Z)) :
  well_shaped b ->
  exists r0 r1, b = [r0; r1] /\ len r0 = line_length /\ len r1 = line_length /\
                Forall is_byte r0 /\ Forall is_byte r1.
Proof.
  intros (L & S & B).
  destruct b as [|r0 [|r1 [|r2 b]]]; try (unfold len, n_lines in L; simpl in L; lia).
  exists r0, r1. inversion S as [|? ? S0 S']. inversion S' as [|? ? S1 _].
  inversion B as [|? ? B0 B']. inversion B' as [|? ? B1 _]. now repeat split.
Qed.

Lemma rows_well_shaped (r0 r1 : list Z) :
  len r0 = line_length -> len r1 = line_length ->
  Forall is_byte r0 -> Forall is_byte r1 -> well_shaped [r0; r1].
Proof.
  intros. split; [reflexivity|]. split; repeat constructor; assumption.
Qed.

Lemma blank_well_shaped : well_shaped blank.
Proof.
  apply rows_well_shaped; try reflexivity;
    apply Forall_forall; intros b Hb; apply repeat_spec in Hb; subst b;
    unfold is_byte; lia.
Qed.

(** [write_text] at a column that is not negative. *)
Lemma write_text_ok (self : Surface) (x y : Z) (data : list Z) :
  well_shaped (buffer self) -> 0 <= x -> 0 <= y < n_lines ->
  write_text self x y data
  = Ok (mkSurface (core self)
          (list_update (Z.to_nat y)
             (overwrite (nth (Z.to_nat y) (buffer self) []) x data) (buffer self))).
Proof.
  intros W Hx Hy. destruct (well_shaped_rows _ W) as (r0 & r1 & E & L0 & L1 & _).
  unfold write_text. cbv zeta. rewrite E.
  change (len [r0; r1]) with n_lines. rewrite py_index_in by exact Hy.
  cbn [bind]. do 2 f_equal.
  f_equal.
  assert (Hr : len (nth (Z.to_nat y) [r0; r1] []) = line_length).
  { unfold n_lines in Hy.
    assert (C : y = 0 \/ y = 1) by lia. destruct C as [-> | ->]; assumption. }
  exact (write_row _ data x Hr Hx).
Qed.

Lemma write_text_shape (self : Surface) (x y : Z) (data : list Z) :
  well_shaped (buffer self) -> 0 <= x -> 0 <= y < n_lines -> Forall is_byte data ->
  exists rows, write_text self x y data = Ok (mkSurface (core self) rows) /\
               well_shaped rows.
Proof.
  intros W Hx Hy Hd. rewrite write_text_ok by assumption.
  eexists. split; [reflexivity|].
  destruct (well_shaped_rows _ W) as (r0 & r1 & E & L0 & L1 & B0 & B1).
  rewrite E. unfold n_lines in Hy.
  assert (C : y = 0 \/ y = 1) by lia.
  destruct C as [-> | ->]; cbn; apply rows_well_shaped;
    auto using len_overwrite, overwrite_bytes.
Qed.

(** X16: on a buffer of [n_lines] rows of [line_length] bytes, [write_text]
    at a column that is not negative and a row from 0 to [n_lines - 1]
    returns, keeps that shape whatever the column and the length of the
    data, and changes only the columns from x on of row y: column j of that
    row holds byte j - x of the data when there is one, and every other
    byte of the buffer is as before; data beyond the last column is
    dropped. *)
Theorem write_text_clips (self : Surface) (x y : Z) (data : list Z) :
  well_shaped (buffer self) -> 0 <= x -> 0 <= y < n_lines -> Forall is_byte data ->
  exists rows,
    write_text self x y data = Ok (mkSurface (core self) rows) /\
    well_shaped rows /\
    forall i j, 0 <= i < n_lines -> 0 <= j < line_length ->
      item (nth (Z.to_nat i) rows []) j
      = if (i =? y) && (x <=? j) && (j <? x + len data)
        then item data (j - x)
        else item (nth (Z.to_nat i) (buffer self) []) j.
Proof.
  intros W Hx Hy Hd.
  destruct (write_text_shape self x y data W Hx Hy Hd) as (rows & E & W').
  exists rows. split; [exact E|]. split; [exact W'|].
  rewrite write_text_ok in E by assumption. inversion E as [R]. clear E R.
  destruct (well_shaped_rows _ W) as (r0 & r1 & Eb & L0 & L1 & _).
  rewrite Eb. intros i j Hi Hj. unfold n_lines in Hi, Hy.
  assert (Ci : i = 0 \/ i = 1) by lia. assert (Cy : y = 0 \/ y = 1) by lia.
  destruct Ci as [-> | ->], Cy as [-> | ->];
    change (Z.to_nat 0) with 0%nat; change (Z.to_nat 1) with 1%nat;
    unfold list_update; cbn [nth firstn skipn app Z.eqb Pos.eqb andb];
    try reflexivity; apply item_overwrite; assumption.
Qed.

Lemma write_text_clips_witness :
  exists rows,
    write_text (init_surface zero_clock) 18 1 [72; 105; 33]
    = Ok (mkSurface (core (init_surface zero_clock)) rows) /\
    well_shaped rows /\
    forall i j, 0 <= i < n_lines -> 0 <= j < line_length ->
      item (nth (Z.to_nat i) rows []) j
      = if (i =? 1) && (18 <=? j) && (j <? 18 + len [72; 105; 33])
        then item [72; 105; 33] (j - 18)
        else item (nth (Z.to_nat i) (buffer (init_surface zero_clock)) []) j.
Proof.
  apply (write_text_clips (init_surface zero_clock) 18 1 [72; 105; 33]).
  - exact blank_well_shaped.
  - lia.
  - unfold n_lines. lia.
  - repeat constructor; unfold is_byte; lia.
Defined.

(** X17: [write_text] raises IndexError exactly for a row index outside
    [-n_lines, n_lines), and a negative row index in that range addresses
    the row counted from the last one. *)
Theorem write_text_row_index (self : Surface) (x y : Z) (data : list Z) :
  len (buffer self) = n_lines ->
  (y < - n_lines \/ n_lines <= y -> write_text self x y data = Raise IndexError) /\
  (- n_lines <= y < n_lines -> exists self', write_text self x y data = Ok self') /\
  (- n_lines <= y < 0 ->
   write_text self x y data = write_text self x (y + n_lines) data).
Proof.
  intros L. unfold write_text. cbv zeta. rewrite L.
  split; [|split]; intros H.
  - rewrite py_index_out; [reflexivity|unfold n_lines; lia|exact H].
  - destruct (Z.lt_ge_cases y 0) as [C|C].
    + rewrite py_index_back, py_index_in by lia. cbn [bind]. eauto.
    + rewrite py_index_in by lia. cbn [bind]. eauto.
  - now rewrite py_index_back by exact H.
Qed.

Lemma write_text_row_index_witness :
  (2 < - n_lines \/ n_lines <= 2 ->
   write_text (init_surface zero_clock) 0 2 [72; 105] = Raise IndexError) /\
  (- n_lines <= 2 < n_lines ->
   exists self', write_text (init_surface zero_clock) 0 2 [72; 105] = Ok self') /\
  (- n_lines <= 2 < 0 ->
   write_text (init_surface zero_clock) 0 2 [72; 105]
   = write_text (init_surface zero_clock) 0 (2 + n_lines) [72; 105]).
Proof.
  apply (write_text_row_index (init_surface zero_clock) 0 2 [72; 105]).
  reflexivity.
Defined.

(** X18: a negative column is not clipped.  On a row of [line_length] bytes
    and for a column x from [-line_length] to -1: data shorter than -x is
    written as at column [x + line_length]; data of at least -x bytes and
    fewer than [line_length] is inserted before column [x + line_length]
    and nothing is overwritten, so that the row grows by the length of the
    data; with longer data the row ends with [2 * line_length] bytes. *)
Theorem write_text_negative_column (self : Surface) (x y : Z) (data : list Z) :
  well_shaped (buffer self) -> 0 <= y < n_lines -> - line_length <= x < 0 ->
  let row := nth (Z.to_nat y) (buffer self) [] in
  let at_col := Z.to_nat (x + line_length) in
  exists row',
    write_text self x y data
    = Ok (mkSurface (core self) (list_update (Z.to_nat y) row' (buffer self))) /\
    (len data < - x ->
     row' = overwrite row (x + line_length) data /\ len row' = line_length) /\
    (- x <= len data < line_length ->
     row' = firstn at_col row ++ data ++ skipn at_col row /\
     len row' = line_length + len data) /\
    (line_length <= len data ->
     len row' = 2 * line_length).
Proof.
  intros W Hy Hx row at_col. pose proof (len_nonneg data) as Ld.
  destruct (well_shaped_rows _ W) as (r0 & r1 & E & L0 & L1 & _).
  assert (Hr : len row = line_length).
  { unfold row. rewrite E. unfold n_lines in Hy.
    assert (C : y = 0 \/ y = 1) by lia. destruct C as [-> | ->]; assumption. }
  unfold write_text. cbv zeta.
  replace (len (buffer self)) with n_lines by (now destruct W).
  rewrite py_index_in by exact Hy.
  cbn [bind]. fold row. eexists. split; [reflexivity|].
  unfold set_slice. cbv zeta. rewrite Hr.
  rewrite (slice_bound_back _ x) by lia. fold at_col.
  set (ln := Z.max 0 (Z.min (line_length - x) (len data))).
  unfold line_length in *.
  split; [|split]; intros H.
  - assert (B : ln = len data) by (unfold ln; lia). rewrite B.
    rewrite slice_bound_back by lia.
    replace (x + len data + 20 <? x + 20) with false by lia.
    rewrite py_prefix_firstn by lia.
    assert (O : overwrite row (x + 20) data
                = firstn at_col row ++ firstn (Z.to_nat (len data)) data
                  ++ skipn (Z.to_nat (x + len data + 20)) row).
    { unfold overwrite. cbv zeta. unfold line_length. fold at_col.
      replace (Z.max 0 (Z.min (20 - (x + 20)) (len data))) with (len data) by lia.
      now replace (x + 20 + len data) with (x + len data + 20) by lia. }
    split; [now rewrite O|]. rewrite <- O. apply len_overwrite; [exact Hr|lia].
  - assert (B : ln = len data) by (unfold ln; lia). rewrite B.
    rewrite slice_bound_in by lia.
    replace (x + len data <? x + 20) with true by lia.
    rewrite py_prefix_firstn by lia.
    replace (firstn (Z.to_nat (len data)) data) with data
      by (unfold len; now rewrite Nat2Z.id, firstn_all).
    split; [reflexivity|].
    unfold len in *. rewrite !length_app, length_firstn, length_skipn.
    unfold at_col. lia.
  - assert (B : 20 <= ln <= len data /\ x + ln <= 20) by (unfold ln; lia).
    clearbody ln. rewrite slice_bound_in by lia.
    replace (x + ln <? x + 20) with false by lia.
    rewrite py_prefix_firstn by lia.
    unfold len in *. rewrite !length_app, !length_firstn, length_skipn.
    unfold at_col. lia.
Qed.

Lemma write_text_negative_column_witness :
  exists row',
    write_text (init_surface zero_clock) (-1) 0 [72; 105]
    = Ok (mkSurface (core (init_surface zero_clock))
            (list_update (Z.to_nat 0) row' (buffer (init_surface zero_clock)))) /\
    (len [72; 105] < - (-1) ->
     row' = overwrite (nth (Z.to_nat 0) (buffer (init_surface zero_clock)) [])
              (-1 + line_length) [72; 105] /\
     len row' = line_length) /\
    (- (-1) <= len [72; 105] < line_length ->
     row' = firstn (Z.to_nat (-1 + line_length))
              (nth (Z.to_nat 0) (buffer (init_surface zero_clock)) [])
            ++ [72; 105]
            ++ skipn (Z.to_nat (-1 + line_length))
                 (nth (Z.to_nat 0) (buffer (init_surface zero_clock)) []) /\
     len row' = line_length + len [72; 105]) /\
    (line_length <= len [72; 105] ->
     len row' = 2 * line_length).
Proof.
  apply (write_text_negative_column (init_surface zero_clock) (-1) 0 [72; 105]).
  - exact blank_well_shaped.
  - unfold n_lines. lia.
  - unfold line_length. lia.
Defined.

(** *** Flushing the buffer *)

Lemma cmd_display_text_short (self : VinDisplay) (text : list Z) :
  Forall is_byte text -> len text <= 249 ->
  cmd_display_text self text
  = Ok (dev_write self (spec_frame ([CMD_DISPLAY_TEXT; len text] ++ text))).
Proof.
  intros Hb H. pose proof (len_nonneg text) as L0.
  unfold cmd_display_text, send_cmd, display_text_msg. cbv zeta.
  change (pack_B CMD_DISPLAY_TEXT) with (Ok (A := list Z) [CMD_DISPLAY_TEXT]).
  cbn [bind]. unfold pack_B.
  replace ((0 <=? len text) && (len text <=? 255)) with true by lia.
  cbn [bind]. rewrite pack_s_exact. rewrite frame_of_bytes; [reflexivity| |].
  - repeat constructor; try (unfold CMD_DISPLAY_TEXT; lia); try lia. exact Hb.
  - unfold len in *. simpl length. unfold is_byte, MESSAGE_TRAILER_SIZE. lia.
Qed.

Lemma concat_rows (b : list (list Z)) :
  well_shaped b ->
  len (concat b) = line_length * n_lines /\ Forall is_byte (concat b).
Proof.
  intros W. destruct (well_shaped_rows _ W) as (r0 & r1 & -> & L0 & L1 & B0 & B1).
  cbn [concat]. rewrite app_nil_r. split.
  - rewrite len_app, L0, L1. reflexivity.
  - apply Forall_app. now split.
Qed.

Lemma flush_ok (self : Surface) :
  well_shaped (buffer self) ->
  flush self
  = Ok (mkSurface
          (dev_write (core self)
             (spec_frame ([CMD_DISPLAY_TEXT; line_length * n_lines]
                          ++ concat (buffer self))))
          blank).
Proof.
  intros W. destruct (concat_rows _ W) as [L B].
  unfold flush. cbv zeta.
  rewrite cmd_display_text_short
    by (try exact B; rewrite L; unfold line_length, n_lines; lia).
  cbn [bind]. now rewrite L.
Qed.

Lemma flush_frame_valid (text : list Z) :
  len text = line_length * n_lines ->
  valid_frame (spec_frame ([CMD_DISPLAY_TEXT; line_length * n_lines] ++ text)) /\
  len (spec_frame ([CMD_DISPLAY_TEXT; line_length * n_lines] ++ text)) = 46.
Proof.
  intros L.
  assert (E : len ([CMD_DISPLAY_TEXT; line_length * n_lines] ++ text) = 42).
  { rewrite len_app, L. reflexivity. }
  split.
  - apply spec_frame_valid; rewrite E;
      unfold MESSAGE_MIN, MESSAGE_MAX, MESSAGE_SYNC; lia.
  - rewrite len_spec_frame, E. reflexivity.
Qed.

(** X19: on a buffer of [n_lines] rows of [line_length] bytes, [flush]
    returns: it writes one frame of 46 bytes whose payload is the command
    id 10, the size 40 and the rows one after the other, and leaves every
    byte of the buffer zero; a decoder with an empty buffer that receives
    the frame queues it whole. *)
Theorem flush_sends_rows_and_resets (self : Surface) (dec : VinDisplay) :
  well_shaped (buffer self) -> rdata dec = [] ->
  exists frame,
    flush self = Ok (mkSurface (dev_write (core self) frame) blank) /\
    frame = spec_frame ([CMD_DISPLAY_TEXT; 40] ++ concat (buffer self)) /\
    len frame = 46 /\
    parse_incoming_data (rdata_extend dec frame)
    = set_in_commands dec (in_commands dec ++ [frame]).
Proof.
  intros W Hr. eexists. split; [apply flush_ok; exact W|].
  destruct (concat_rows _ W) as [L _].
  destruct (flush_frame_valid _ L) as [V L'].
  split; [reflexivity|]. split; [exact L'|].
  apply parse_one_valid; assumption.
Qed.

Lemma flush_sends_rows_and_resets_witness :
  exists frame,
    flush (init_surface zero_clock)
    = Ok (mkSurface (dev_write (core (init_surface zero_clock)) frame) blank) /\
    frame = spec_frame ([CMD_DISPLAY_TEXT; 40]
                        ++ concat (buffer (init_surface zero_clock))) /\
    len frame = 46 /\
    parse_incoming_data (rdata_extend (init zero_clock) frame)
    = set_in_commands (init zero_clock) (in_commands (init zero_clock) ++ [frame]).
Proof.
  apply (flush_sends_rows_and_resets (init_surface zero_clock) (init zero_clock)).
  - exact blank_well_shaped.
  - reflexivity.
Defined.

Lemma item_frame_text (c s : Z) (text : list Z) (k : Z) :
  0 <= k < len text -> item (spec_frame ([c; s] ++ text)) (3 + k) = item text k.
Proof.
  intros H. unfold spec_frame, item, len in *. cbv zeta. cbn [app].
  replace (Z.to_nat (3 + k)) with (S (S (S (Z.to_nat k)))) by lia.
  cbn [nth]. apply app_nth1. lia.
Qed.

Lemma item_two_rows (r0 r1 : list Z) (k : Z) :
  len r0 = line_length -> 0 <= k ->
  item (concat [r0; r1]) k
  = if k <? line_length then item r0 k else item r1 (k - line_length).
Proof.
  intros L Hk. cbn [concat]. rewrite app_nil_r. unfold item, len in *.
  destruct (k <? line_length) eqn:E.
  - apply app_nth1. lia.
  - rewrite app_nth2 by lia. f_equal. lia.
Qed.

(** X20: a text written with [write_text] at column x of row y (neither
    negative, the row below [n_lines]) and then flushed reaches the wire at
    its place: byte [3 + line_length * y + x + j] of the frame written is
    byte j of the data, for the bytes that fit in the row; the other text
    bytes of the frame are those the buffer held before; the decoder
    accepts the frame. *)
Theorem written_text_reaches_frame (self : Surface) (dec : VinDisplay)
  (x y : Z) (data : list Z) :
  well_shaped (buffer self) -> 0 <= x -> 0 <= y < n_lines ->
  Forall is_byte data -> rdata dec = [] ->
  exists s1 frame,
    write_text self x y data = Ok s1 /\
    flush s1 = Ok (mkSurface (dev_write (core self) frame) blank) /\
    len frame = 46 /\
    (forall k, 0 <= k < line_length * n_lines ->
       item frame (3 + k)
       = if (line_length * y + x <=? k)
            && (k <? line_length * y + Z.min line_length (x + len data))
         then item data (k - (line_length * y + x))
         else item (concat (buffer self)) k) /\
    parse_incoming_data (rdata_extend dec frame)
    = set_in_commands dec (in_commands dec ++ [frame]).
Proof.
  intros W Hx Hy Hd Hr. pose proof (len_nonneg data) as Ld.
  destruct (write_text_shape self x y data W Hx Hy Hd) as (rows & E & W').
  exists (mkSurface (core self) rows). eexists. split; [exact E|].
  split; [rewrite (flush_ok (mkSurface (core self) rows) W'); reflexivity|].
  cbn [buffer core].
  destruct (concat_rows _ W') as [L _].
  destruct (flush_frame_valid _ L) as [V L'].
  split; [exact L'|]. split; [|apply parse_one_valid; assumption].
  intros k Hk. rewrite item_frame_text by (rewrite L; exact Hk).
  rewrite write_text_ok in E by assumption. inversion E as [R]. clear E R.
  destruct (well_shaped_rows _ W) as (r0 & r1 & -> & L0 & L1 & _).
  unfold n_lines in Hy, Hk. assert (Cy : y = 0 \/ y = 1) by lia.
  destruct Cy as [-> | ->];
    change (Z.to_nat 0) with 0%nat; change (Z.to_nat 1) with 1%nat;
    unfold list_update; cbn [nth firstn skipn app];
    rewrite !item_two_rows by (auto using len_overwrite; lia);
    unfold line_length in *;
    destruct (k <? 20) eqn:K.
  - rewrite item_overwrite by (unfold line_length; auto; lia).
    replace ((20 * 0 + x <=? k) && (k <? 20 * 0 + Z.min 20 (x + len data)))
      with ((x <=? k) && (k <? x + len data)) by lia.
    now replace (k - (20 * 0 + x)) with (k - x) by lia.
  - now replace ((20 * 0 + x <=? k) && (k <? 20 * 0 + Z.min 20 (x + len data)))
      with false by lia.
  - now replace ((20 * 1 + x <=? k) && (k <? 20 * 1 + Z.min 20 (x + len data)))
      with false by lia.
  - rewrite item_overwrite by (unfold line_length; auto; lia).
    replace ((20 * 1 + x <=? k) && (k <? 20 * 1 + Z.min 20 (x + len data)))
      with ((x <=? k - 20) && (k - 20 <? x + len data)) by lia.
    now replace (k - (20 * 1 + x)) with (k - 20 - x) by lia.
Qed.

Lemma written_text_reaches_frame_witness :
  exists s1 frame,
    write_text (init_surface zero_clock) 18 1 [72; 105; 33] = Ok s1 /\
    flush s1
    = Ok (mkSurface (dev_write (core (init_surface zero_clock)) frame) blank) /\
    len frame = 46 /\
    (forall k, 0 <= k < line_length * n_lines ->
       item frame (3 + k)
       = if (line_length * 1 + 18 <=? k)
            && (k <? line_length * 1 + Z.min line_length (18 + len [72; 105; 33]))
         then item [72; 105; 33] (k - (line_length * 1 + 18))
         else item (concat (buffer (init_surface zero_clock))) k) /\
    parse_incoming_data (rdata_extend (init zero_clock) frame)
    = set_in_commands (init zero_clock) (in_commands (init zero_clock) ++ [frame]).
Proof.
  apply (written_text_reaches_frame (init_surface zero_clock) (init zero_clock)
           18 1 [72; 105; 33]).
  - exact blank_well_shaped.
  - lia.
  - unfold n_lines. lia.
  - repeat constructor; unfold is_byte; lia.
  - reflexivity.
Defined.

(** *** Sequences of writes *)

Lemma write_all_raise (e : exn) (ws : list (Z * Z * list Z)) :
  fold_left
    (fun r w => s <- r ;; write_text s (fst (fst w)) (snd (fst w)) (snd w))
    ws (Raise e) = Raise e.
Proof. induction ws as [|w ws IH]; [reflexivity|exact IH]. Qed.

Lemma write_all_cons (self : Surface) (w : Z * Z * list Z)
  (ws : list (Z * Z * list Z)) (s : Surface) :
  write_text self (fst (fst w)) (snd (fst w)) (snd w) = Ok s ->
  write_all self (w :: ws) = write_all s ws.
Proof. intros H. unfold write_all. cbn [fold_left bind]. now rewrite H. Qed.

(** X21: the shape of the buffer is an invariant of writing: after any
    sequence of [write_text] calls with columns that are not negative, row
    indexes from [-n_lines] to [n_lines - 1] and data of any length, every
    call has returned, the buffer still has the dimensions that
    [get_dimensions] reports, and [flush] returns, having written one frame
    with the 40 bytes of the rows. *)
Theorem writes_keep_shape (self : Surface) (ws : list (Z * Z * list Z)) :
  well_shaped (buffer self) ->
  Forall (fun w => 0 <= fst (fst w) /\ - n_lines <= snd (fst w) < n_lines /\
                   Forall is_byte (snd w)) ws ->
  exists rows,
    write_all self ws = Ok (mkSurface (core self) rows) /\
    len rows = snd (get_dimensions self) /\
    Forall (fun row => len row = fst (get_dimensions self)) rows /\
    Forall (Forall is_byte) rows /\
    flush (mkSurface (core self) rows)
    = Ok (mkSurface
            (dev_write (core self)
               (spec_frame ([CMD_DISPLAY_TEXT; 40] ++ concat rows)))
            blank).
Proof.
  intros W H. revert self W. induction H as [|[[x y] data] ws (Hx & Hy & Hd) _ IH];
    intros self W.
  - exists (buffer self). destruct self as [c b]. cbn [buffer core] in *.
    split; [reflexivity|]. destruct W as (W1 & W2 & W3).
    split; [exact W1|]. split; [exact W2|]. split; [exact W3|].
    apply (flush_ok (mkSurface c b)). now repeat split.
  - cbn [fst snd] in Hx, Hy, Hd.
    assert (E : exists rows, write_text self x y data = Ok (mkSurface (core self) rows)
                             /\ well_shaped rows).
    { destruct (Z.lt_ge_cases y 0) as [C|C].
      - destruct W as (W1 & W2 & W3).
        destruct (write_text_shape self x (y + n_lines) data) as (rows & E & W');
          [now repeat split|exact Hx|lia|exact Hd|].
        exists rows. split; [|exact W'].
        rewrite <- E. unfold write_text. cbv zeta. rewrite W1.
        now rewrite py_index_back by lia.
      - apply write_text_shape; try assumption. lia. }
    destruct E as (rows & E & W').
    destruct (IH (mkSurface (core self) rows) W') as (rows' & E' & R).
    exists rows'. split; [|exact R].
    rewrite (write_all_cons self (x, y, data) ws _ E). exact E'.
Qed.

Lemma writes_keep_shape_witness :
  exists rows,
    write_all (init_surface zero_clock)
      [(0, 0, [75; 108; 105; 112]); (18, -1, [72; 105; 33]); (40, 1, [65])]
    = Ok (mkSurface (core (init_surface zero_clock)) rows) /\
    len rows = snd (get_dimensions (init_surface zero_clock)) /\
    Forall (fun row => len row = fst (get_dimensions (init_surface zero_clock))) rows /\
    Forall (Forall is_byte) rows /\
    flush (mkSurface (core (init_surface zero_clock)) rows)
    = Ok (mkSurface
            (dev_write (core (init_surface zero_clock))
               (spec_frame ([CMD_DISPLAY_TEXT; 40] ++ concat rows)))
            blank).
Proof.
  apply (writes_keep_shape (init_surface zero_clock)
           [(0, 0, [75; 108; 105; 112]); (18, -1, [72; 105; 33]); (40, 1, [65])]).
  - exact blank_well_shaped.
  - repeat constructor; cbn [fst snd]; unfold n_lines, is_byte; lia.
Defined.
